(** * tetwrap: the TetGen wrapper of dtcc-wrapper-tetgen

    A shallow embedding of [src/dtcc_tetgen_wrapper/cpp/tetwrap/tetwrap.cpp]
    and the properties of its marker encoding, switch buffer, output
    marshalling, boundary face extraction and marker reconciliation.

    Conventions of the embedding.
    - A C++ [int] is a [Z] in the range [INT_MIN .. INT_MAX]; what the
      source computes in [int] is written with its 32-bit two's-complement
      wrap-around: the markers [raw_marker + 1] and [-(bi + 2)], the facet
      count [M + B], the size [numberofpoints * 3] and the buffer indices
      [i * m + j] and [3 * i + k].  The [ssize_t] sizes and the indices
      that pybind11's accessors compute from them are plain [Z].  The facet
      index [M + bi] is plain as well: it is below [M + B] when that sum
      did not wrap, and the facet arrays hold no cell when it did.
    - [new T[n]] is a list of [n] cells, and of none when [n] is not
      positive.
    - A NumPy array is a shape and a row-major buffer ([ndarray]).
    - A C pointer to a buffer is an [option (list _)]; [None] is [nullptr].
    - A [py::object] that holds an array or [None] is an [option (ndarray _)].
    - A C++ exception is the [Throw] branch of [result]; the call of the
      external generator is a node of the program tree [run]. *)

From Stdlib Require Import ZArith Ascii String Floats.PrimFloat.
From stdpp Require Import gmap strings list sorting pretty.

Local Open Scope Z_scope.
Set Warnings "-clear-no-such-hyp".

(** ** Machine integers *)

Definition INT_MAX : Z := 2147483647.
Definition INT_MIN : Z := -2147483648.

Definition is_int (z : Z) : Prop := INT_MIN ≤ z ≤ INT_MAX.

(** The value an [int] holds after a 32-bit two's-complement operation. *)
Definition wrap_int (z : Z) : Z := (z + 2 ^ 31) `mod` 2 ^ 32 - 2 ^ 31.

Definition int_add (a b : Z) : Z := wrap_int (a + b).
Definition int_mul (a b : Z) : Z := wrap_int (a * b).
Definition int_neg (a : Z) : Z := wrap_int (- a).

(** [static_cast<int>] of a [ssize_t] or [size_t]. *)
Definition static_cast_int (z : Z) : Z := wrap_int z.

(** [REAL] is [double]. *)
Definition REAL : Type := float.

(** ** Exceptions *)

Inductive result (A : Type) : Type :=
| Ok (a : A)
| Throw (what : string).
Arguments Ok {A} a.
Arguments Throw {A} what.

Definition result_bind {A B} (r : result A) (k : A → result B) : result B :=
  match r with
  | Ok a => k a
  | Throw w => Throw w
  end.

(** ** NumPy arrays *)

Record ndarray (A : Type) : Type := NdArray {
  shape : list Z;
  data : list A
}.
Arguments NdArray {A} shape data.
Arguments shape {A} _.
Arguments data {A} _.

Definition ndim {A} (a : ndarray A) : Z := Z.of_nat (length (shape a)).

(** [a.shape(k)] *)
Definition dim {A} (a : ndarray A) (k : nat) : Z := default 0 (shape a !! k).

(** Reading cell [i] of a buffer ([src[i]]). *)
Definition rd {A} (d : A) (buf : list A) (i : Z) : A :=
  default d (buf !! Z.to_nat i).

(** [a(i)] and [a(i, j)] of an unchecked (row-major, C-style) view. *)
Definition at1 {A} (d : A) (a : ndarray A) (i : Z) : A := rd d (data a) i.
Definition at2 {A} (d : A) (a : ndarray A) (i j : Z) : A :=
  rd d (data a) (i * dim a 1 + j).

(** A default-constructed [py::array_t<T>()]: one dimension, no element. *)
Definition empty_array {A} : ndarray A := NdArray [0] [].

(** ** Helper conversions *)

Definition to_array {A} (d : A) (src : option (list A)) (n m : Z) : ndarray A :=
  match src with
  | None => empty_array
  | Some buf =>
      if bool_decide (n ≤ 0 ∨ m ≤ 0) then empty_array
      else NdArray [n; m]
             (i ← seqZ 0 n;
              (λ j, rd d buf (int_add (int_mul i m) j)) <$> seqZ 0 m)
  end.

Definition to_vector {A} (d : A) (src : option (list A)) (n : Z) : ndarray A :=
  match src with
  | None => empty_array
  | Some buf =>
      if bool_decide (n ≤ 0) then empty_array
      else NdArray [n] ((λ i, rd d buf i) <$> seqZ 0 n)
  end.

Definition to_array_f64 : option (list REAL) → Z → Z → ndarray REAL := to_array 0%float.
Definition to_array_i32 : option (list Z) → Z → Z → ndarray Z := to_array 0.
Definition to_vector_i32 : option (list Z) → Z → ndarray Z := to_vector 0.
Definition to_vector_f64 : option (list REAL) → Z → ndarray REAL := to_vector 0%float.

(** ** Boundary face extraction *)

(** Local face patterns: face opposite vertex [k]. *)
Definition faces_of_tet : list (list Z) :=
  [ [1; 2; 3];    (* opposite 0 *)
    [0; 3; 2];    (* opposite 1 *)
    [0; 1; 3];    (* opposite 2 *)
    [0; 2; 1] ].  (* opposite 3 *)

(** [faces_of_tet[lf][k]] *)
Definition pat (lf : Z) (k : nat) : Z :=
  default 0 (default [] (faces_of_tet !! Z.to_nat lf) !! k).

(** First pass: count boundary faces. *)
Definition count_step (nbrs : ndarray Z) (i : Z) (B : Z) (lf : Z) : Z :=
  if bool_decide (at2 0 nbrs i lf < 0) then B + 1 else B.

Definition count_boundary_faces (nbrs : ndarray Z) (T : Z) : Z :=
  foldl (λ B i, foldl (count_step nbrs i) B (seqZ 0 4)) 0 (seqZ 0 T).

(** [F(b, k) = v] on the buffer of a [(B,3)] array. *)
Definition set_cell (F : list Z) (b : Z) (k : Z) (v : Z) : list Z :=
  <[Z.to_nat (b * 3 + k) := v]> F.

(** Second pass: fill.  The state is the write cursor [b] and the buffer. *)
Definition fill_step (tets nbrs : ndarray Z) (i : Z)
    (st : Z * list Z) (lf : Z) : Z * list Z :=
  let '(b, F) := st in
  if bool_decide (at2 0 nbrs i lf < 0) then
    let F := set_cell F b 0 (at2 0 tets i (pat lf 0)) in
    let F := set_cell F b 1 (at2 0 tets i (pat lf 1)) in
    let F := set_cell F b 2 (at2 0 tets i (pat lf 2)) in
    (b + 1, F)
  else (b, F).

Definition fill_boundary_faces (tets nbrs : ndarray Z) (T : Z)
    (F : list Z) : Z * list Z :=
  foldl (λ st i, foldl (fill_step tets nbrs i) st (seqZ 0 4)) (0, F) (seqZ 0 T).

Definition compute_boundary_face_tris (tets_ nbrs_ : ndarray Z)
    : result (ndarray Z) :=
  if bool_decide (ndim tets_ ≠ 2 ∨ dim tets_ 1 ≠ 4) then
    Throw "tets must have shape (T,4)"
  else if bool_decide (ndim nbrs_ ≠ 2 ∨ dim nbrs_ 1 ≠ 4) then
    Throw "neighbors must have shape (T,4)"
  else if bool_decide (dim tets_ 0 ≠ dim nbrs_ 0) then
    Throw "tets and neighbors must have same length"
  else
    let T := dim tets_ 0 in
    let B := count_boundary_faces nbrs_ T in
    (* a fresh (B,3) array; its cells are all written by the second pass *)
    let F := replicate (Z.to_nat (B * 3)) 0 in
    Ok (NdArray [B; 3] (snd (fill_boundary_faces tets_ nbrs_ T F))).

(** ** The generator's input and output structure *)

Record polygon : Type := Polygon {
  vertexlist : list Z;
  numberofvertices : Z
}.

Record facet : Type := Facet {
  polygonlist : option (list polygon);
  numberofpolygons : Z;
  holelist : option (list REAL);
  numberofholes : Z
}.

(** A value-initialised facet ([new tetgenio::facet[n]()]). *)
Definition facet_zero : facet := Facet None 0 None 0.

Record tetgenio : Type := Tetgenio {
  firstnumber : Z;
  pointlist : option (list REAL);
  pointmarkerlist : option (list Z);
  numberofpoints : Z;
  tetrahedronlist : option (list Z);
  tetrahedronattributelist : option (list REAL);
  tetrahedronvolumelist : option (list REAL);
  neighborlist : option (list Z);
  numberoftetrahedra : Z;
  numberofcorners : Z;
  numberoftetrahedronattributes : Z;
  facetlist : option (list facet);
  facetmarkerlist : option (list Z);
  numberoffacets : Z;
  trifacelist : option (list Z);
  trifacemarkerlist : option (list Z);
  numberoftrifaces : Z;
  edgelist : option (list Z);
  edgemarkerlist : option (list Z);
  numberofedges : Z
}.

(** What the external generator does with a switch string and a PLC: it
    fills an output structure or throws. *)
Inductive tetgen_outcome : Type :=
| Produced (out : tetgenio)
| ThrewStd (what : string)      (* a std::exception, with its what() *)
| ThrewOther.                   (* anything else *)

(** A run of the wrapper: it stops (with a value or an exception) without
    calling the generator, or it calls the generator once, on a switch
    buffer and a PLC, and continues with what the generator did. *)
Inductive run (A : Type) : Type :=
| Stop (r : result A)
| Tetrahedralize (sw : list ascii) (plc : tetgenio)
    (k : tetgen_outcome → result A).
Arguments Stop {A} r.
Arguments Tetrahedralize {A} sw plc k.

Definition lift {A B} (r : result A) (k : A → run B) : run B :=
  match r with
  | Ok a => k a
  | Throw w => Stop (Throw w)
  end.

Definition run_map {A B} (f : A → B) (p : run A) : run B :=
  match p with
  | Stop r => Stop (result_bind r (λ a, Ok (f a)))
  | Tetrahedralize sw plc k =>
      Tetrahedralize sw plc (λ o, result_bind (k o) (λ a, Ok (f a)))
  end.

(** Running a program with a given generator. *)
Definition exec {A} (tetrahedralize : list ascii → tetgenio → tetgen_outcome)
    (p : run A) : result A :=
  match p with
  | Stop r => r
  | Tetrahedralize sw plc k => k (tetrahedralize sw plc)
  end.

(** Whether a run reaches the generator. *)
Definition invokes_generator {A} (p : run A) : bool :=
  match p with
  | Stop _ => false
  | Tetrahedralize _ _ _ => true
  end.

(** ** Loops that may throw *)

Fixpoint for_each {A} (l : list A) (body : A → result unit) : result unit :=
  match l with
  | [] => Ok ()
  | x :: l =>
      match body x with
      | Ok _ => for_each l body
      | Throw w => Throw w
      end
  end.

Definition throw_if (c : Prop) `{Decision c} (what : string) : result unit :=
  if bool_decide c then Throw what else Ok ().

(** ** Input validation *)

(** The Python objects the entry point receives as [tetgen_switches]. *)
Inductive py_object : Type :=
| PyStr (s : string)
| PyBytes (s : string)
| PyArray (a : ndarray ascii)
| PyNone
| PyOther.

(** [std::to_string] *)
Definition to_string_int (i : Z) : string := pretty i.
Definition to_string_size_t (i : nat) : string := pretty i.

Definition check_vid (N vid : Z) (what : string) : result unit :=
  throw_if (vid < 0 ∨ vid >= N) what.

Definition check_mesh_facets (F : ndarray Z) (N M : Z) : result unit :=
  for_each (seqZ 0 M) (λ i,
    for_each (seqZ 0 3) (λ k,
      check_vid N (at2 0 F i k)
        ("mesh_facets index out of range at row " +:+ to_string_int i))).

Definition check_boundary_facets (boundary_facets : list (list Z)) (N : Z)
    : result unit :=
  for_each (seq 0 (length boundary_facets)) (λ bi,
    let poly := default [] (boundary_facets !! bi) in
    match throw_if (length poly < 3)%nat
            ("boundary facet has fewer than 3 vertices: polygon "
               +:+ to_string_size_t bi) with
    | Throw w => Throw w
    | Ok _ =>
        for_each poly (λ vid,
          check_vid N vid
            ("boundary_facets index out of range at polygon "
               +:+ to_string_size_t bi))
    end).

(** The marker array, when one is given: its buffer, after the checks. *)
Definition check_markers (mesh_facet_markers_obj : option (ndarray Z)) (M : Z)
    : result (option (list Z)) :=
  match mesh_facet_markers_obj with
  | None => Ok None
  | Some mesh_facet_markers =>
      if bool_decide (ndim mesh_facet_markers ≠ 1) then
        Throw "mesh_facet_markers must be a 1D array"
      else if bool_decide (dim mesh_facet_markers 0 ≠ M) then
        Throw "mesh_facet_markers length must match number of mesh facets"
      else Ok (Some (data mesh_facet_markers))
  end.

(** Everything [tetrahedralize_core] checks before it builds the PLC.  It
    returns [mesh_facet_marker_ptr]. *)
Definition validate (vertices : ndarray REAL) (mesh_facets : ndarray Z)
    (mesh_facet_markers_obj : option (ndarray Z))
    (boundary_facets : list (list Z)) : result (option (list Z)) :=
  if bool_decide (ndim vertices ≠ 2 ∨ dim vertices 1 ≠ 3) then
    Throw "vertices must have shape (N,3)"
  else if bool_decide (ndim mesh_facets ≠ 2 ∨ dim mesh_facets 1 ≠ 3) then
    Throw "mesh_facets must have shape (M,3)"
  else if bool_decide (length boundary_facets < 1)%nat then
    Throw "boundary_facets must contain at least one polygon (list of vertex indices)"
  else
    let N := static_cast_int (dim vertices 0) in
    let M := static_cast_int (dim mesh_facets 0) in
    match check_markers mesh_facet_markers_obj M with
    | Throw w => Throw w
    | Ok mesh_facet_marker_ptr =>
        if bool_decide (N ≤ 0) then Throw "vertices: N <= 0"
        else if bool_decide (M < 0) then Throw "mesh_facets: M < 0"
        else
          match check_mesh_facets mesh_facets N M with
          | Throw w => Throw w
          | Ok _ =>
              match check_boundary_facets boundary_facets N with
              | Throw w => Throw w
              | Ok _ => Ok mesh_facet_marker_ptr
              end
          end
    end.

(** ** Assembling the PLC *)

(** Writing [f 0 .. f (n-1)] into cells [off .. off+n-1] of an array. *)
Definition store_range {A} (l : list A) (off n : Z) (f : Z → A) : list A :=
  foldl (λ l i, <[Z.to_nat (off + i) := f i]> l) l (seqZ 0 n).

Definition marker_value (mesh_facet_marker_ptr : option (list Z)) (fi : Z) : Z :=
  match mesh_facet_marker_ptr with
  | None => -1
  | Some p =>
      let raw_marker := rd 0 p fi in
      if bool_decide (raw_marker < 0) then -1 else int_add raw_marker 1
  end.

Definition mesh_facet (F : ndarray Z) (fi : Z) : facet :=
  Facet (Some [Polygon [at2 0 F fi 0; at2 0 F fi 1; at2 0 F fi 2] 3]) 1 None 0.

Definition boundary_facet (boundary_facets : list (list Z)) (bi : Z) : facet :=
  let loop := default [] (boundary_facets !! Z.to_nat bi) in
  let nv := static_cast_int (Z.of_nat (length loop)) in
  Facet (Some [Polygon ((λ j, rd 0 loop j) <$> seqZ 0 nv) nv]) 1 None 0.

Definition build_facetlist (F : ndarray Z) (boundary_facets : list (list Z))
    (M B : Z) : list facet :=
  let T := int_add M B in
  let l := replicate (Z.to_nat T) facet_zero in
  let l := store_range l 0 M (mesh_facet F) in
  store_range l M B (boundary_facet boundary_facets).

Definition build_facetmarkerlist (mesh_facet_marker_ptr : option (list Z))
    (M B : Z) : list Z :=
  let T := int_add M B in
  let l := replicate (Z.to_nat T) 0 in
  let l := store_range l 0 M (marker_value mesh_facet_marker_ptr) in
  store_range l M B (λ bi, int_neg (int_add bi 2)).

(** [pointlist[3 * i + k] = v] *)
Definition set_coordinate (pointlist : list REAL) (i k : Z) (v : REAL)
    : list REAL :=
  <[Z.to_nat (int_add (int_mul 3 i) k) := v]> pointlist.

(** The body of the loop over the vertices. *)
Definition store_point (V : ndarray REAL) (pointlist : list REAL) (i : Z)
    : list REAL :=
  let pointlist := set_coordinate pointlist i 0 (at2 0%float V i 0) in
  let pointlist := set_coordinate pointlist i 1 (at2 0%float V i 1) in
  set_coordinate pointlist i 2 (at2 0%float V i 2).

Definition build_pointlist (V : ndarray REAL) (N : Z) : list REAL :=
  (* new REAL[in.numberofpoints * 3] *)
  let pointlist := replicate (Z.to_nat (int_mul N 3)) 0%float in
  foldl (store_point V) pointlist (seqZ 0 N).

(** A freshly constructed [tetgenio]. *)
Definition tetgenio_init : tetgenio :=
  Tetgenio 0 None None 0 None None None None 0 4 0 None None 0
    None None 0 None None 0.

Definition build_plc (vertices : ndarray REAL) (mesh_facets : ndarray Z)
    (mesh_facet_marker_ptr : option (list Z))
    (boundary_facets : list (list Z)) : tetgenio :=
  let N := static_cast_int (dim vertices 0) in
  let M := static_cast_int (dim mesh_facets 0) in
  let B := static_cast_int (Z.of_nat (length boundary_facets)) in
  Tetgenio 0 (Some (build_pointlist vertices N)) None N
    None None None None 0 4 0
    (Some (build_facetlist mesh_facets boundary_facets M B))
    (Some (build_facetmarkerlist mesh_facet_marker_ptr M B))
    (int_add M B)
    None None 0 None None 0.

(** ** The switch buffer *)

Definition NUL : ascii := "000"%char.

(** The bytes of a switch payload, for the three accepted kinds. *)
Definition array_bytes (a : ndarray ascii) : list ascii :=
  (λ i, at1 NUL a i) <$> seqZ 0 (dim a 0).

(** [std::vector<char> sw], NUL-terminated.  [unchecked<1>()] of pybind11
    throws on an array that is not one-dimensional. *)
Definition build_switches (tetgen_switches : py_object) : result (list ascii) :=
  match tetgen_switches with
  | PyStr s | PyBytes s => Ok (list_ascii_of_string s ++ [NUL])
  | PyArray a =>
      if bool_decide (ndim a ≠ 1) then
        Throw ("array has incorrect number of dimensions: "
                 +:+ to_string_int (ndim a) +:+ "; expected 1")
      else Ok (array_bytes a ++ [NUL])
  | _ => Throw "tetgen_switches must be str, bytes, or 1D byte array"
  end.

(** The scan [for (char c : sw)] with its [break] at the first NUL. *)
Fixpoint scan_flags (sw : list ascii) (has_n has_f : bool) : bool * bool :=
  match sw with
  | [] => (has_n, has_f)
  | c :: sw =>
      if bool_decide (c = NUL) then (has_n, has_f)
      else scan_flags sw
             (if bool_decide (c = "n"%char) then true else has_n)
             (if bool_decide (c = "f"%char) then true else has_f)
  end.

(** Ensure neighbors are requested if boundary faces are needed. *)
Definition ensure_flags (compute_boundary_faces : bool) (sw : list ascii)
    : list ascii :=
  if compute_boundary_faces then
    let '(has_n, has_f) := scan_flags sw false false in
    if negb has_n || negb has_f then
      let sw := if bool_decide (sw ≠ [] ∧ last sw = Some NUL)
                then removelast sw else sw in
      let sw := if negb has_n then sw ++ ["n"%char] else sw in
      let sw := if negb has_f then sw ++ ["f"%char] else sw in
      sw ++ [NUL]
    else sw
  else sw.

Definition switch_buffer (tetgen_switches : py_object)
    (compute_boundary_faces : bool) : result (list ascii) :=
  result_bind (build_switches tetgen_switches)
    (λ sw, Ok (ensure_flags compute_boundary_faces sw)).

(** ** Rich IO result *)

Record TetwrapIO : Type := MkTetwrapIO {
  points : ndarray REAL;                       (* (N,3) float64 *)
  tets : ndarray Z;                            (* (K,4/10) int32 *)
  tri_faces : option (ndarray Z);              (* (F,3) int32 or None *)
  tri_markers : option (ndarray Z);            (* (F,) int32 or None *)
  boundary_tri_faces : option (ndarray Z);     (* (BF,3) int32 or None *)
  boundary_tri_markers : option (ndarray Z);   (* (BF,) int32 or None *)
  edges : option (ndarray Z);                  (* (E,2) int32 or None *)
  edge_markers : option (ndarray Z);           (* (E,) int32 or None *)
  neighbors : option (ndarray Z);              (* (K,4) int32 or None *)
  point_markers : option (ndarray Z);          (* (N,) int32 or None *)
  tet_attr : option (ndarray REAL);            (* (K,A) float64 or None *)
  tet_vol : option (ndarray REAL);             (* (K,) float64 or None *)
  corners : Z;
  switches : string
}.

(** ** Marker reconciliation *)

Definition triangle : Type := Z * Z * Z.

(** [std::sort] on a [std::array<int, 3>]. *)
Definition sort3 (key : triangle) : triangle :=
  let '(a, b, c) := key in
  let '(a, b) := if bool_decide (b < a) then (b, a) else (a, b) in
  let '(b, c) := if bool_decide (c < b) then (c, b) else (b, c) in
  let '(a, b) := if bool_decide (b < a) then (b, a) else (a, b) in
  (a, b, c).

(** Row [i] of a flat buffer of triangles. *)
Definition buffer_triangle (buf : list Z) (i : Z) : triangle :=
  (rd 0 buf (int_add (int_mul 3 i) 0),
   rd 0 buf (int_add (int_mul 3 i) 1),
   rd 0 buf (int_add (int_mul 3 i) 2)).

(** Row [i] of a [(B,3)] array. *)
Definition face_row (faces : ndarray Z) (i : Z) : triangle :=
  (at2 0 faces i 0, at2 0 faces i 1, at2 0 faces i 2).

(** The loop that fills [triface_marker_map], over face indices [idx]. *)
Definition insert_trifaces (tl ml : list Z) (idx : list Z)
    (m : gmap triangle Z) : gmap triangle Z :=
  foldl (λ m i, <[sort3 (buffer_triangle tl i) := rd 0 ml i]> m) m idx.

Definition build_triface_marker_map (out : tetgenio) : gmap triangle Z :=
  match trifacelist out, trifacemarkerlist out with
  | Some tl, Some ml =>
      if bool_decide (0 < numberoftrifaces out) then
        insert_trifaces tl ml (seqZ 0 (numberoftrifaces out)) ∅
      else ∅
  | _, _ => ∅
  end.

(** [markers(i) = (it != end) ? it->second : 0] *)
Definition lookup_marker (m : gmap triangle Z) (t : triangle) : Z :=
  default 0 (m !! sort3 t).

Definition boundary_markers (m : gmap triangle Z) (faces : ndarray Z)
    : ndarray Z :=
  NdArray [dim faces 0]
    ((λ i, lookup_marker m (face_row faces i)) <$> seqZ 0 (dim faces 0)).

(** ** Populating the result *)

Definition marshal_tri_faces (out : tetgenio) : option (ndarray Z) :=
  match trifacelist out with
  | Some _ =>
      if bool_decide (0 < numberoftrifaces out) then
        Some (to_array_i32 (trifacelist out) (numberoftrifaces out) 3)
      else None
  | None => None
  end.

Definition marshal_tri_markers (out : tetgenio) : option (ndarray Z) :=
  match trifacelist out with
  | Some _ =>
      if bool_decide (0 < numberoftrifaces out) then
        match trifacemarkerlist out with
        | Some _ => Some (to_vector_i32 (trifacemarkerlist out) (numberoftrifaces out))
        | None => None
        end
      else None
  | None => None
  end.

Definition marshal_edges (out : tetgenio) : option (ndarray Z) :=
  match edgelist out with
  | Some _ =>
      if bool_decide (0 < numberofedges out) then
        Some (to_array_i32 (edgelist out) (numberofedges out) 2)
      else None
  | None => None
  end.

Definition marshal_edge_markers (out : tetgenio) : option (ndarray Z) :=
  match edgelist out with
  | Some _ =>
      if bool_decide (0 < numberofedges out) then
        match edgemarkerlist out with
        | Some _ => Some (to_vector_i32 (edgemarkerlist out) (numberofedges out))
        | None => None
        end
      else None
  | None => None
  end.

Definition marshal_neighbors (out : tetgenio) : option (ndarray Z) :=
  match neighborlist out with
  | Some _ => Some (to_array_i32 (neighborlist out) (numberoftetrahedra out) 4)
  | None => None
  end.

Definition marshal_point_markers (out : tetgenio) : option (ndarray Z) :=
  match pointmarkerlist out with
  | Some _ => Some (to_vector_i32 (pointmarkerlist out) (numberofpoints out))
  | None => None
  end.

Definition marshal_tet_attr (out : tetgenio) : option (ndarray REAL) :=
  match tetrahedronattributelist out with
  | Some _ =>
      if bool_decide (0 < numberoftetrahedronattributes out) then
        Some (to_array_f64 (tetrahedronattributelist out)
                (numberoftetrahedra out) (numberoftetrahedronattributes out))
      else None
  | None => None
  end.

Definition marshal_tet_vol (out : tetgenio) : option (ndarray REAL) :=
  match tetrahedronvolumelist out with
  | Some _ => Some (to_vector_f64 (tetrahedronvolumelist out) (numberoftetrahedra out))
  | None => None
  end.

(** The derived boundary faces and their markers. *)
Definition derive_boundary (compute_boundary_faces : bool)
    (res_tets : ndarray Z) (res_neighbors : option (ndarray Z))
    (triface_marker_map : gmap triangle Z)
    : result (option (ndarray Z) * option (ndarray Z)) :=
  match compute_boundary_faces, res_neighbors with
  | true, Some nbrs =>
      match compute_boundary_face_tris res_tets nbrs with
      | Throw w => Throw w
      | Ok boundary_faces =>
          Ok (Some boundary_faces,
              if bool_decide (triface_marker_map ≠ ∅)
              then Some (boundary_markers triface_marker_map boundary_faces)
              else None)
      end
  | _, _ => Ok (None, None)
  end.

(** Everything [tetrahedralize_core] does after the generator returned. *)
Definition marshal (compute_boundary_faces : bool) (tetgen_switches : py_object)
    (out : tetgenio) : result TetwrapIO :=
  let res_points := to_array_f64 (pointlist out) (numberofpoints out) 3 in
  let res_tets :=
    to_array_i32 (tetrahedronlist out) (numberoftetrahedra out) (numberofcorners out) in
  let res_switches := match tetgen_switches with PyStr s => s | _ => "" end in
  let triface_marker_map := build_triface_marker_map out in
  let res_neighbors := marshal_neighbors out in
  match derive_boundary compute_boundary_faces res_tets res_neighbors
          triface_marker_map with
  | Throw w => Throw w
  | Ok (bf, bm) =>
      Ok {| points := res_points;
            tets := res_tets;
            tri_faces := marshal_tri_faces out;
            tri_markers := marshal_tri_markers out;
            boundary_tri_faces := bf;
            boundary_tri_markers := bm;
            edges := marshal_edges out;
            edge_markers := marshal_edge_markers out;
            neighbors := res_neighbors;
            point_markers := marshal_point_markers out;
            tet_attr := marshal_tet_attr out;
            tet_vol := marshal_tet_vol out;
            corners := numberofcorners out;
            switches := res_switches |}
  end.

(** ** The entry points *)

(** Tetrahedralize with exception handling. *)
Definition after_generator (compute_boundary_faces : bool)
    (tetgen_switches : py_object) (o : tetgen_outcome) : result TetwrapIO :=
  match o with
  | Produced out => marshal compute_boundary_faces tetgen_switches out
  | ThrewStd e => Throw ("TetGen failed: " +:+ e)
  | ThrewOther =>
      Throw "TetGen failed with an unknown error. This may be due to invalid input geometry or incompatible switches."
  end.

(** Core routine: run TetGen and produce rich IO. *)
Definition tetrahedralize_core (vertices : ndarray REAL)
    (mesh_facets : ndarray Z) (mesh_facet_markers_obj : option (ndarray Z))
    (boundary_facets : list (list Z)) (tetgen_switches : py_object)
    (compute_boundary_faces : bool) : run TetwrapIO :=
  lift (validate vertices mesh_facets mesh_facet_markers_obj boundary_facets)
    (λ mesh_facet_marker_ptr,
      let plc := build_plc vertices mesh_facets mesh_facet_marker_ptr
                   boundary_facets in
      lift (switch_buffer tetgen_switches compute_boundary_faces)
        (λ sw,
          Tetrahedralize sw plc
            (after_generator compute_boundary_faces tetgen_switches))).

(** Back-compat: return (points, tets). *)
Definition build_volume_mesh (vertices : ndarray REAL)
    (mesh_facets : ndarray Z) (boundary_facets : list (list Z))
    (tetgen_switches : py_object) : run (ndarray REAL * ndarray Z) :=
  run_map (λ io, (points io, tets io))
    (tetrahedralize_core vertices mesh_facets None boundary_facets
       tetgen_switches true).

(** ** Reference definitions (what the specification says) *)

(** All (tetrahedron, local face) pairs, ascending by tetrahedron index and
    then by local face index 0..3. *)
Definition all_pairs (T : Z) : list (Z * Z) :=
  i ← seqZ 0 T; (λ lf, (i, lf)) <$> seqZ 0 4.

(** The pairs whose adjacency entry is negative. *)
Definition is_boundary (nbrs : ndarray Z) (p : Z * Z) : Prop :=
  at2 0 nbrs p.1 p.2 < 0.

#[global] Instance is_boundary_dec nbrs p : Decision (is_boundary nbrs p) :=
  Z_lt_dec _ _.

Definition boundary_pairs (nbrs : ndarray Z) (T : Z) : list (Z * Z) :=
  filter (is_boundary nbrs) (all_pairs T).

(** The Local Face Pattern row of a local face index. *)
Definition local_face_pattern (lf : Z) : Z * Z * Z :=
  if bool_decide (lf = 0) then (1, 2, 3)
  else if bool_decide (lf = 1) then (0, 3, 2)
  else if bool_decide (lf = 2) then (0, 1, 3)
  else (0, 2, 1).

Definition pair_triangle (tets : ndarray Z) (p : Z * Z) : triangle :=
  let '(p0, p1, p2) := local_face_pattern p.2 in
  (at2 0 tets p.1 p0, at2 0 tets p.1 p1, at2 0 tets p.1 p2).

Definition triangle_cells (t : triangle) : list Z := [t.1.1; t.1.2; t.2].

(** Strict lexicographic order on (tetrahedron, local face) pairs. *)
Definition pair_lt (p q : Z * Z) : Prop :=
  p.1 < q.1 ∨ (p.1 = q.1 ∧ p.2 < q.2).

(** The marker of mesh facet [i] as the specification gives it: [raw + 1]
    for a raw marker [raw >= 0], [-1] for a negative or an absent one. *)
Definition encoded_marker (mesh_facet_markers_obj : option (ndarray Z))
    (i : Z) : Z :=
  match mesh_facet_markers_obj with
  | None => -1
  | Some a => if decide (at1 0 a i < 0) then -1 else at1 0 a i + 1
  end.

(** The Combined Facet List markers of [M] mesh facets and [B] boundary
    loops, as the specification gives them: [M + B] entries, the encoded
    mesh markers followed by [-(i+2)] for loop [i]; every marker is [-1],
    [>= 1] or [<= -2], and the [<= -2] markers are in bijection with the
    loop indices [0..B-1] through [index = -(marker)-2]. *)
Definition combined_markers (mesh_facet_markers_obj : option (ndarray Z))
    (M B : Z) (l : list Z) : Prop :=
  Z.of_nat (length l) = M + B
  ∧ (∀ i, 0 ≤ i < M →
       l !! Z.to_nat i = Some (encoded_marker mesh_facet_markers_obj i))
  ∧ (∀ i, 0 ≤ i < B → l !! Z.to_nat (M + i) = Some (- (i + 2)))
  ∧ (∀ m, m ∈ l → m = -1 ∨ 1 ≤ m ∨ m ≤ -2)
  ∧ (∀ p m, l !! p = Some m → m ≤ -2 →
       0 ≤ - m - 2 < B ∧ Z.of_nat p = M + (- m - 2)).

(** The bytes of a payload of an accepted kind: a text string, a bytes
    object, a one-dimensional byte array. *)
Definition payload_bytes (tetgen_switches : py_object) : option (list ascii) :=
  match tetgen_switches with
  | PyStr s | PyBytes s => Some (list_ascii_of_string s)
  | PyArray a => if bool_decide (ndim a = 1) then Some (array_bytes a) else None
  | PyNone | PyOther => None
  end.

(** The C string a buffer holds: its bytes before the first NUL. *)
Fixpoint c_string (l : list ascii) : list ascii :=
  match l with
  | [] => []
  | c :: l => if bool_decide (c = NUL) then [] else c :: c_string l
  end.

(** The required flags that do not occur in the C string of the payload. *)
Definition missing_flags (bytes : list ascii) : list ascii :=
  (if bool_decide ("n"%char ∈ c_string bytes) then [] else ["n"%char])
  ++ (if bool_decide ("f"%char ∈ c_string bytes) then [] else ["f"%char]).

(** The marker a key has after one forward pass over [n] Output Faces in
    which a later face with the same key overwrites an earlier one: the
    marker of the last face with that key, if there is one. *)
Definition last_wins (tl ml : list Z) (idx : list Z) (key : triangle)
    : option Z :=
  rd 0 ml <$> last (filter (λ i, sort3 (buffer_triangle tl i) = key) idx).

(** The input-validation violations: wrong rank or width of the vertices or
    of the mesh facets, no vertex, a mesh facet or boundary loop vertex
    index outside [0, N), a boundary loop with fewer than 3 vertices, no
    boundary loop, a marker array that is not a vector of length M. *)
Inductive violation (vertices : ndarray REAL) (mesh_facets : ndarray Z)
    (mesh_facet_markers_obj : option (ndarray Z))
    (boundary_facets : list (list Z)) : Prop :=
| bad_vertices :
    ndim vertices ≠ 2 ∨ dim vertices 1 ≠ 3 →
    violation vertices mesh_facets mesh_facet_markers_obj boundary_facets
| bad_mesh_facets :
    ndim mesh_facets ≠ 2 ∨ dim mesh_facets 1 ≠ 3 →
    violation vertices mesh_facets mesh_facet_markers_obj boundary_facets
| no_vertex :
    static_cast_int (dim vertices 0) ≤ 0 →
    violation vertices mesh_facets mesh_facet_markers_obj boundary_facets
| mesh_index_out_of_range i k :
    0 ≤ i < static_cast_int (dim mesh_facets 0) → 0 ≤ k < 3 →
    ¬ (0 ≤ at2 0 mesh_facets i k < static_cast_int (dim vertices 0)) →
    violation vertices mesh_facets mesh_facet_markers_obj boundary_facets
| loop_index_out_of_range bi poly vid :
    boundary_facets !! bi = Some poly → vid ∈ poly →
    ¬ (0 ≤ vid < static_cast_int (dim vertices 0)) →
    violation vertices mesh_facets mesh_facet_markers_obj boundary_facets
| loop_too_short bi poly :
    boundary_facets !! bi = Some poly → (length poly < 3)%nat →
    violation vertices mesh_facets mesh_facet_markers_obj boundary_facets
| no_boundary_loop :
    boundary_facets = [] →
    violation vertices mesh_facets mesh_facet_markers_obj boundary_facets
| bad_markers a :
    mesh_facet_markers_obj = Some a →
    ndim a ≠ 1 ∨ dim a 0 ≠ static_cast_int (dim mesh_facets 0) →
    violation vertices mesh_facets mesh_facet_markers_obj boundary_facets.

(** Row [i] of the mesh facets has its three indices in [0, N). *)
Definition row_in_range (mesh_facets : ndarray Z) (N i : Z) : Prop :=
  ∀ k, 0 ≤ k < 3 → 0 ≤ at2 0 mesh_facets i k < N.







(** ** Example data *)

(** A generator output with one tetrahedron, all of whose faces are on the
    boundary, and three Output Faces, the first and the last with the same
    vertices. *)
Definition one_tet_out : tetgenio :=
  {| firstnumber := 0;
     pointlist := Some (replicate 12 0%float);
     pointmarkerlist := None;
     numberofpoints := 4;
     tetrahedronlist := Some [0; 1; 2; 3];
     tetrahedronattributelist := None;
     tetrahedronvolumelist := None;
     neighborlist := Some [-1; -1; -1; -1];
     numberoftetrahedra := 1;
     numberofcorners := 4;
     numberoftetrahedronattributes := 0;
     facetlist := None;
     facetmarkerlist := None;
     numberoffacets := 0;
     trifacelist := Some [3; 1; 2;  0; 3; 2;  2; 1; 3];
     trifacemarkerlist := Some [7; 8; 9];
     numberoftrifaces := 3;
     edgelist := None;
     edgemarkerlist := None;
     numberofedges := 0 |}.

(** The result for [one_tet_out] with boundary-face derivation. *)
Definition one_tet_io : TetwrapIO :=
  {| points := NdArray [4; 3] (replicate 12 0%float);
     tets := NdArray [1; 4] [0; 1; 2; 3];
     tri_faces := Some (NdArray [3; 3] [3; 1; 2;  0; 3; 2;  2; 1; 3]);
     tri_markers := Some (NdArray [3] [7; 8; 9]);
     boundary_tri_faces :=
       Some (NdArray [4; 3] [1; 2; 3;  0; 3; 2;  0; 1; 3;  0; 2; 1]);
     boundary_tri_markers := Some (NdArray [4] [9; 8; 0; 0]);
     edges := None;
     edge_markers := None;
     neighbors := Some (NdArray [1; 4] [-1; -1; -1; -1]);
     point_markers := None;
     tet_attr := None;
     tet_vol := None;
     corners := 4;
     switches := "pq" |}.

(** The same output without the Output Faces. *)
Definition one_tet_no_faces : tetgenio :=
  {| firstnumber := 0;
     pointlist := Some (replicate 12 0%float);
     pointmarkerlist := None;
     numberofpoints := 4;
     tetrahedronlist := Some [0; 1; 2; 3];
     tetrahedronattributelist := None;
     tetrahedronvolumelist := None;
     neighborlist := Some [-1; -1; -1; -1];
     numberoftetrahedra := 1;
     numberofcorners := 4;
     numberoftetrahedronattributes := 0;
     facetlist := None;
     facetmarkerlist := None;
     numberoffacets := 0;
     trifacelist := None;
     trifacemarkerlist := None;
     numberoftrifaces := 0;
     edgelist := None;
     edgemarkerlist := None;
     numberofedges := 0 |}.

(** An output with no tetrahedron whose adjacency and point marker buffers
    are allocated all the same. *)
Definition no_tet_out : tetgenio :=
  {| firstnumber := 0;
     pointlist := None;
     pointmarkerlist := Some [];
     numberofpoints := 0;
     tetrahedronlist := None;
     tetrahedronattributelist := None;
     tetrahedronvolumelist := None;
     neighborlist := Some [];
     numberoftetrahedra := 0;
     numberofcorners := 4;
     numberoftetrahedronattributes := 0;
     facetlist := None;
     facetmarkerlist := None;
     numberoffacets := 0;
     trifacelist := None;
     trifacemarkerlist := None;
     numberoftrifaces := 0;
     edgelist := None;
     edgemarkerlist := None;
     numberofedges := 0 |}.

(** An output with one ten-corner tetrahedron and its adjacency. *)
Definition quadratic_out : tetgenio :=
  {| firstnumber := 0;
     pointlist := Some (replicate 30 0%float);
     pointmarkerlist := None;
     numberofpoints := 10;
     tetrahedronlist := Some [0; 1; 2; 3; 4; 5; 6; 7; 8; 9];
     tetrahedronattributelist := None;
     tetrahedronvolumelist := None;
     neighborlist := Some [-1; -1; -1; -1];
     numberoftetrahedra := 1;
     numberofcorners := 10;
     numberoftetrahedronattributes := 0;
     facetlist := None;
     facetmarkerlist := None;
     numberoffacets := 0;
     trifacelist := None;
     trifacemarkerlist := None;
     numberoftrifaces := 0;
     edgelist := None;
     edgemarkerlist := None;
     numberofedges := 0 |}.

(** Mesh facets whose number is the greatest an [int] holds: INT_MAX rows,
    each of them three times the vertex 0. *)
Definition int_max_mesh_facets : ndarray Z :=
  NdArray [2147483647; 3] (replicate (Z.to_nat (3 * 2147483647)) 0).

(** ** Definitions for the further properties *)

(** The number of inversions of a list of local corner indices: its parity
    is the orientation of the corners in that order. *)
Fixpoint inversions (l : list Z) : nat :=
  match l with
  | [] => 0
  | x :: l => length (filter (λ y, y < x) l) + inversions l
  end.

(** The vertex indices a PLC holds: those of all polygons of all facets. *)
Definition facet_vertices (f : facet) : list Z :=
  default [] (polygonlist f) ≫= vertexlist.

Definition plc_vertices (plc : tetgenio) : list Z :=
  default [] (facetlist plc) ≫= facet_vertices.

(** The errors the boundary face extraction can raise. *)
Definition extractor_errors : list string :=
  [ "tets must have shape (T,4)";
    "neighbors must have shape (T,4)";
    "tets and neighbors must have same length" ].

(** * Properties *)

(** ** Machine integers *)

Lemma wrap_int_id z : is_int z → wrap_int z = z.
Proof.
  unfold is_int, INT_MIN, INT_MAX, wrap_int. intros Hz.
  rewrite Z.mod_small; lia.
Qed.

Lemma wrap_int_is_int z : is_int (wrap_int z).
Proof.
  unfold is_int, INT_MIN, INT_MAX, wrap_int.
  pose proof (Z.mod_pos_bound (z + 2 ^ 31) (2 ^ 32)). lia.
Qed.

(** An index expression [a * b + c] that stays within [INT_MAX] is computed
    without wrap-around. *)
Lemma int_index a b c :
  0 ≤ a → 0 ≤ b → 0 ≤ c → a * b + c ≤ INT_MAX →
  int_add (int_mul a b) c = a * b + c.
Proof.
  intros Ha Hb Hc Hmax. unfold int_add, int_mul.
  rewrite (wrap_int_id (a * b)); [apply wrap_int_id|];
    unfold is_int, INT_MIN, INT_MAX in *; nia.
Qed.

(** ** Loops *)

Lemma foldl_row {S A B} (f : A → S → B → S) (i : A) (l2 : list B) st :
  foldl (f i) st l2
  = foldl (λ st p, f p.1 st p.2) st ((λ j, (i, j)) <$> l2).
Proof. revert st. induction l2 as [|j l2 IH]; intros st; [done|]. apply IH. Qed.

(** A loop nest is one loop over the pairs of indices, in order. *)
Lemma foldl_nested {S A B} (f : A → S → B → S) (l1 : list A) (l2 : list B) st :
  foldl (λ st i, foldl (f i) st l2) st l1
  = foldl (λ st p, f p.1 st p.2) st (i ← l1; (λ j, (i, j)) <$> l2).
Proof.
  revert st. induction l1 as [|i l1 IH]; intros st; [done|].
  cbn [foldl]. rewrite bind_cons, foldl_app, IH. f_equal. apply foldl_row.
Qed.

Lemma for_each_Ok {A} (l : list A) body :
  for_each l body = Ok () ↔ ∀ x, x ∈ l → body x = Ok ().
Proof.
  induction l as [|x l IH]; cbn.
  - split; [intros _ x Hx; inversion Hx|done].
  - destruct (body x) as [[]|w] eqn:Hb.
    + rewrite IH. split.
      * intros H y Hy. apply elem_of_cons in Hy as [->|Hy]; auto.
      * intros H y Hy. apply H. by right.
    + split; [done|]. intros H. specialize (H x (list_elem_of_here _ _)).
      congruence.
Qed.


Lemma for_each_total {A} (l : list A) body :
  for_each l body = Ok () ∨ ∃ w, for_each l body = Throw w.
Proof. destruct (for_each l body) as [[]|w]; eauto. Qed.

(** ** Boundary face extraction *)

Section extractor.
Context (tets nbrs : ndarray Z).

Lemma count_pairs (ps : list (Z * Z)) B :
  foldl (λ B p, count_step nbrs p.1 B p.2) B ps
  = B + Z.of_nat (length (filter (is_boundary nbrs) ps)).
Proof.
  revert B. induction ps as [|p ps IH]; intros B; cbn [foldl].
  - cbn. lia.
  - rewrite IH. unfold count_step. rewrite filter_cons.
    unfold is_boundary at 2. case_bool_decide; case_decide; try done;
      cbn [length]; lia.
Qed.

Lemma count_boundary_faces_spec T :
  count_boundary_faces nbrs T = Z.of_nat (length (boundary_pairs nbrs T)).
Proof.
  unfold count_boundary_faces. rewrite foldl_nested.
  fold (all_pairs T). rewrite count_pairs. done.
Qed.

Lemma pat_pattern lf :
  0 ≤ lf < 4 →
  local_face_pattern lf = (pat lf 0, pat lf 1, pat lf 2).
Proof.
  intros Hlf.
  assert (lf = 0 ∨ lf = 1 ∨ lf = 2 ∨ lf = 3) as [-> | [-> | [-> | ->]]] by lia;
    reflexivity.
Qed.

Lemma set_cells_app (pre rest : list Z) b x y z :
  Z.of_nat (length pre) = b * 3 → (3 ≤ length rest)%nat →
  set_cell (set_cell (set_cell (pre ++ rest) b 0 x) b 1 y) b 2 z
  = (pre ++ [x; y; z]) ++ drop 3 rest.
Proof.
  intros Hpre Hrest. unfold set_cell.
  replace (Z.to_nat (b * 3 + 0)) with (length pre + 0)%nat by lia.
  replace (Z.to_nat (b * 3 + 1)) with (length pre + 1)%nat by lia.
  replace (Z.to_nat (b * 3 + 2)) with (length pre + 2)%nat by lia.
  rewrite !insert_app_r, <- app_assoc. f_equal.
  destruct rest as [|r0 [|r1 [|r2 rest]]]; cbn in Hrest; try lia.
  reflexivity.
Qed.

Lemma fill_step_boundary p b F :
  is_boundary nbrs p →
  fill_step tets nbrs p.1 (b, F) p.2
  = (b + 1,
     set_cell (set_cell (set_cell F b 0 (at2 0 tets p.1 (pat p.2 0)))
                 b 1 (at2 0 tets p.1 (pat p.2 1)))
       b 2 (at2 0 tets p.1 (pat p.2 2))).
Proof. intros Hp. unfold fill_step. by rewrite bool_decide_true. Qed.

Lemma fill_step_interior p st :
  ¬ is_boundary nbrs p → fill_step tets nbrs p.1 st p.2 = st.
Proof.
  intros Hp. unfold fill_step. destruct st. by rewrite bool_decide_false.
Qed.

(** The invariant of the second pass: the cells before the cursor hold
    the triangles emitted so far, in order; the rest is untouched. *)
Lemma fill_pairs (ps : list (Z * Z)) b (pre rest : list Z) :
  (∀ p, p ∈ ps → 0 ≤ p.2 < 4) →
  Z.of_nat (length pre) = b * 3 →
  (3 * length (filter (is_boundary nbrs) ps) ≤ length rest)%nat →
  foldl (λ st p, fill_step tets nbrs p.1 st p.2) (b, pre ++ rest) ps
  = (b + Z.of_nat (length (filter (is_boundary nbrs) ps)),
     (pre ++ (filter (is_boundary nbrs) ps
                ≫= λ p, triangle_cells (pair_triangle tets p)))
       ++ drop (3 * length (filter (is_boundary nbrs) ps)) rest).
Proof.
  revert b pre rest.
  induction ps as [|p ps IH]; intros b pre rest Hlf Hpre Hrest.
  - cbn. rewrite Z.add_0_r, app_nil_r. done.
  - cbn [foldl].
    assert (∀ q, q ∈ ps → 0 ≤ q.2 < 4) as Hlf'
      by (intros q Hq; apply Hlf; by right).
    destruct (decide (is_boundary nbrs p)) as [Hp|Hp].
    + rewrite (filter_cons_True _ _ _ Hp) in Hrest |- *.
      cbn [length] in Hrest |- *.
      rewrite fill_step_boundary by done.
      rewrite set_cells_app by (done || lia).
      rewrite IH; [|done| |].
      * assert (triangle_cells (pair_triangle tets p)
                = [at2 0 tets p.1 (pat p.2 0); at2 0 tets p.1 (pat p.2 1);
                   at2 0 tets p.1 (pat p.2 2)]) as Hpt.
        { unfold pair_triangle. rewrite pat_pattern by (apply Hlf; left).
          reflexivity. }
        f_equal; [lia|].
        rewrite bind_cons, drop_drop, Hpt. rewrite <- !app_assoc.
        cbn [app]. do 4 f_equal.
        by replace (3 * S (length (filter (is_boundary nbrs) ps)))%nat
          with (3 + 3 * length (filter (is_boundary nbrs) ps))%nat by lia.
      * rewrite length_app. cbn [length]. lia.
      * rewrite length_drop. lia.
    + rewrite (filter_cons_False _ _ _ Hp) in Hrest |- *.
      rewrite fill_step_interior by done. by apply IH.
Qed.

Lemma all_pairs_face T p : p ∈ all_pairs T → 0 ≤ p.1 < T ∧ 0 ≤ p.2 < 4.
Proof.
  unfold all_pairs. rewrite list_elem_of_bind. intros (i & Hp & Hi).
  apply list_elem_of_fmap in Hp as (lf & -> & Hlf).
  apply elem_of_seqZ in Hi, Hlf. cbn. lia.
Qed.

Lemma fill_boundary_faces_spec T :
  let B := length (boundary_pairs nbrs T) in
  fill_boundary_faces tets nbrs T (replicate (3 * B) 0)
  = (Z.of_nat B,
     boundary_pairs nbrs T ≫= λ p, triangle_cells (pair_triangle tets p)).
Proof.
  intros B. unfold fill_boundary_faces. rewrite foldl_nested.
  pose proof (fill_pairs (all_pairs T) 0 [] (replicate (3 * B) 0)) as H.
  cbn [app] in H. fold (all_pairs T). rewrite H.
  - fold (boundary_pairs nbrs T). fold B. f_equal.
    rewrite drop_ge by (rewrite length_replicate; lia).
    by rewrite app_nil_r.
  - intros p Hp. by apply all_pairs_face in Hp as [_ ?].
  - done.
  - rewrite length_replicate. done.
Qed.
End extractor.

Lemma StronglySorted_filter_list {A} (R : relation A) (P : A → Prop)
    `{∀ x, Decision (P x)} (l : list A) :
  StronglySorted R l → StronglySorted R (filter P l).
Proof.
  induction 1 as [|x l Hl IH Hx]; [constructor|].
  rewrite filter_cons. case_decide; [|done].
  constructor; [done|]. apply Forall_forall. intros y Hy.
  apply list_elem_of_filter in Hy as [_ Hy].
  rewrite Forall_forall in Hx. by apply Hx.
Qed.

Lemma pair_rows_sorted (n : nat) (m : Z) :
  StronglySorted pair_lt
    (i ← seqZ m (Z.of_nat n); (λ lf, (i, lf)) <$> seqZ 0 4).
Proof.
  revert m. induction n as [|n IH]; intros m; [constructor|].
  rewrite (seqZ_cons m) by lia. rewrite bind_cons.
  replace (Z.pred (Z.of_nat (S n))) with (Z.of_nat n) by lia.
  assert (Forall (λ q : Z * Z, m < q.1)
            (i ← seqZ (Z.succ m) (Z.of_nat n); (λ lf, (i, lf)) <$> seqZ 0 4))
    as Hrest.
  { apply Forall_forall. intros q Hq.
    apply list_elem_of_bind in Hq as (i & Hq & Hi).
    apply list_elem_of_fmap in Hq as (lf & -> & _).
    apply elem_of_seqZ in Hi. cbn. lia. }
  change ((λ lf, (m, lf)) <$> seqZ 0 4) with [(m, 0); (m, 1); (m, 2); (m, 3)].
  cbn [app].
  repeat (constructor;
    [|repeat (constructor; [right; cbn; lia|]);
      eapply Forall_impl; [exact Hrest|]; intros q Hq; left; exact Hq]).
  apply IH.
Qed.

Lemma all_pairs_sorted T : StronglySorted pair_lt (all_pairs T).
Proof.
  unfold all_pairs. destruct (decide (0 ≤ T)) as [HT|HT].
  - rewrite <- (Z2Nat.id T HT). apply pair_rows_sorted.
  - replace (seqZ 0 T) with (@nil Z); [constructor|].
    unfold seqZ. by replace (Z.to_nat T) with 0%nat by lia.
Qed.

Lemma boundary_pairs_sorted nbrs T : StronglySorted pair_lt (boundary_pairs nbrs T).
Proof. apply StronglySorted_filter_list, all_pairs_sorted. Qed.

Lemma elem_of_all_pairs T p : p ∈ all_pairs T ↔ 0 ≤ p.1 < T ∧ 0 ≤ p.2 < 4.
Proof.
  split; [apply all_pairs_face; exact (NdArray [] [])|].
  destruct p as [i lf]. cbn. intros [Hi Hlf]. unfold all_pairs.
  apply list_elem_of_bind. exists i. split.
  - apply list_elem_of_fmap. exists lf. split; [done|]. apply elem_of_seqZ. lia.
  - apply elem_of_seqZ. lia.
Qed.

Lemma elem_of_boundary_pairs nbrs T p :
  p ∈ boundary_pairs nbrs T ↔
  0 ≤ p.1 < T ∧ 0 ≤ p.2 < 4 ∧ at2 0 nbrs p.1 p.2 < 0.
Proof.
  unfold boundary_pairs. rewrite list_elem_of_filter, elem_of_all_pairs.
  unfold is_boundary. tauto.
Qed.

(** Row [b] of a buffer of triangles laid out three cells a triangle. *)
Lemma triangle_rows {A} (f : A → triangle) (ps : list A) (b : nat) p (k : Z) :
  ps !! b = Some p → 0 ≤ k < 3 →
  (ps ≫= λ p, triangle_cells (f p)) !! Z.to_nat (Z.of_nat b * 3 + k)
  = triangle_cells (f p) !! Z.to_nat k.
Proof.
  revert b. induction ps as [|q ps IH]; intros b Hb Hk; [done|].
  rewrite bind_cons. destruct b as [|b]; cbn in Hb.
  - simplify_eq. rewrite lookup_app_l; [f_equal; lia|]. cbn. lia.
  - rewrite lookup_app_r by (cbn; lia).
    rewrite <- (IH b Hb Hk). f_equal. cbn [triangle_cells length]. lia.
Qed.

Lemma compute_boundary_face_tris_Ok (tets nbrs : ndarray Z) (T : Z) :
  shape tets = [T; 4] → shape nbrs = [T; 4] →
  compute_boundary_face_tris tets nbrs
  = Ok (NdArray [Z.of_nat (length (boundary_pairs nbrs T)); 3]
          (boundary_pairs nbrs T ≫= λ p, triangle_cells (pair_triangle tets p))).
Proof.
  intros Ht Hn. unfold compute_boundary_face_tris, ndim, dim.
  rewrite Ht, Hn. cbn [length lookup list_lookup default].
  rewrite !bool_decide_false by (cbn; lia). cbn zeta. unfold id.
  rewrite count_boundary_faces_spec.
  replace (Z.to_nat (Z.of_nat (length (boundary_pairs nbrs T)) * 3))
    with (3 * length (boundary_pairs nbrs T))%nat by lia.
  by rewrite fill_boundary_faces_spec.
Qed.

Lemma face_row_triangles (tets : ndarray Z) (ps : list (Z * Z)) n b p :
  ps !! b = Some p →
  face_row (NdArray [n; 3] (ps ≫= λ p, triangle_cells (pair_triangle tets p)))
    (Z.of_nat b)
  = pair_triangle tets p.
Proof.
  intros Hb. unfold face_row, at2, rd, dim. cbn [shape data lookup list_lookup default].
  rewrite !(triangle_rows _ _ _ _ _ Hb) by lia.
  by destruct (pair_triangle tets p) as [[x y] z].
Qed.

(** Claim C2.  For a tetrahedra array of shape (T,4) and a neighbors array
    of shape (T,4), the extractor returns one triangle for each pair
    (tetrahedron i, local face lf) with neighbors(i,lf) < 0, and no other:
    the pairs are taken in ascending order of (i, lf), lf running 0..3, and
    the triangle at position b is the one of the b-th such pair,
    (tets(i,p0), tets(i,p1), tets(i,p2)) with (p0,p1,p2) the Local Face
    Pattern row of lf: (1,2,3), (0,3,2), (0,1,3), (0,2,1) for lf = 0,1,2,3. *)
Theorem boundary_faces_one_per_negative_pair (tets nbrs : ndarray Z) (T : Z) :
  shape tets = [T; 4] → shape nbrs = [T; 4] →
  ∃ faces ps,
    compute_boundary_face_tris tets nbrs = Ok faces ∧
    (* the pairs with a negative adjacency entry, each once, ascending *)
    (∀ p, p ∈ ps ↔ 0 ≤ p.1 < T ∧ 0 ≤ p.2 < 4 ∧ at2 0 nbrs p.1 p.2 < 0) ∧
    StronglySorted pair_lt ps ∧
    (* as many rows as pairs *)
    shape faces = [Z.of_nat (length ps); 3] ∧
    length (data faces) = (3 * length ps)%nat ∧
    (* row b is the triangle of the b-th pair *)
    (∀ b i lf, ps !! b = Some (i, lf) →
       ∃ p0 p1 p2,
         nth (Z.to_nat lf) [(1, 2, 3); (0, 3, 2); (0, 1, 3); (0, 2, 1)] (0, 0, 0)
           = (p0, p1, p2) ∧
         face_row faces (Z.of_nat b)
           = (at2 0 tets i p0, at2 0 tets i p1, at2 0 tets i p2)).
Proof.
  intros Ht Hn.
  exists (NdArray [Z.of_nat (length (boundary_pairs nbrs T)); 3]
            (boundary_pairs nbrs T ≫= λ p, triangle_cells (pair_triangle tets p))),
         (boundary_pairs nbrs T).
  split_and!.
  - by apply compute_boundary_face_tris_Ok.
  - apply elem_of_boundary_pairs.
  - apply boundary_pairs_sorted.
  - done.
  - cbn [data]. induction (boundary_pairs nbrs T) as [|p ps IH]; [done|].
    rewrite bind_cons, length_app, IH. cbn [length triangle_cells]. lia.
  - intros b i lf Hb.
    assert (0 ≤ lf < 4) as Hlf.
    { apply list_elem_of_lookup_2, elem_of_boundary_pairs in Hb. cbn in Hb. lia. }
    rewrite (face_row_triangles tets _ _ _ _ Hb).
    unfold pair_triangle. cbn [fst snd].
    assert (lf = 0 ∨ lf = 1 ∨ lf = 2 ∨ lf = 3) as [-> | [-> | [-> | ->]]] by lia;
      by eexists _, _, _.
Qed.

Lemma boundary_faces_one_per_negative_pair_witness :
  ∃ faces ps,
    compute_boundary_face_tris
      (NdArray [2; 4] [10; 11; 12; 13; 11; 12; 13; 14])
      (NdArray [2; 4] [1; -1; -1; -1; -1; 0; -1; -1]) = Ok faces ∧
    (∀ p, p ∈ ps ↔ 0 ≤ p.1 < 2 ∧ 0 ≤ p.2 < 4 ∧
       at2 0 (NdArray [2; 4] [1; -1; -1; -1; -1; 0; -1; -1]) p.1 p.2 < 0) ∧
    StronglySorted pair_lt ps ∧
    shape faces = [Z.of_nat (length ps); 3] ∧
    length (data faces) = (3 * length ps)%nat ∧
    (∀ b i lf, ps !! b = Some (i, lf) →
       ∃ p0 p1 p2,
         nth (Z.to_nat lf) [(1, 2, 3); (0, 3, 2); (0, 1, 3); (0, 2, 1)] (0, 0, 0)
           = (p0, p1, p2) ∧
         face_row faces (Z.of_nat b)
           = (at2 0 (NdArray [2; 4] [10; 11; 12; 13; 11; 12; 13; 14]) i p0,
              at2 0 (NdArray [2; 4] [10; 11; 12; 13; 11; 12; 13; 14]) i p1,
              at2 0 (NdArray [2; 4] [10; 11; 12; 13; 11; 12; 13; 14]) i p2)).
Proof.
  apply (boundary_faces_one_per_negative_pair
           (NdArray [2; 4] [10; 11; 12; 13; 11; 12; 13; 14])
           (NdArray [2; 4] [1; -1; -1; -1; -1; 0; -1; -1]) 2);
    reflexivity.
Defined.

(** On the witness input the six boundary faces come out in order. *)
Example boundary_faces_two_tets :
  compute_boundary_face_tris
    (NdArray [2; 4] [10; 11; 12; 13; 11; 12; 13; 14])
    (NdArray [2; 4] [1; -1; -1; -1; -1; 0; -1; -1])
  = Ok (NdArray [6; 3]
          [10; 13; 12;  10; 11; 13;  10; 12; 11;
           12; 13; 14;  11; 12; 14;  11; 13; 12]).
Proof. reflexivity. Qed.

(** ** The PLC assembler *)

Lemma store_range_snoc {A} (l : list A) off (k : nat) f :
  store_range l off (Z.of_nat (S k)) f
  = <[Z.to_nat (off + Z.of_nat k) := f (Z.of_nat k)]>
      (store_range l off (Z.of_nat k) f).
Proof.
  unfold store_range.
  replace (Z.of_nat (S k)) with (Z.of_nat k + 1) by lia.
  rewrite seqZ_app by lia. rewrite foldl_app. reflexivity.
Qed.

Lemma store_range_length {A} (l : list A) off n f :
  length (store_range l off n f) = length l.
Proof.
  destruct (decide (0 ≤ n)) as [Hn|Hn].
  - rewrite <- (Z2Nat.id n Hn). induction (Z.to_nat n) as [|k IH]; [done|].
    by rewrite store_range_snoc, length_insert.
  - unfold store_range, seqZ. by replace (Z.to_nat n) with 0%nat by lia.
Qed.

(** Cells in the range hold the stored values, the others are unchanged. *)
Lemma store_range_lookup {A} (l : list A) off n f (i : nat) :
  0 ≤ off →
  store_range l off n f !! i
  = if decide (off ≤ Z.of_nat i < off + n ∧ (i < length l)%nat)
    then Some (f (Z.of_nat i - off)) else l !! i.
Proof.
  intros Hoff. destruct (decide (0 ≤ n)) as [Hn|Hn].
  - rewrite <- (Z2Nat.id n Hn). induction (Z.to_nat n) as [|k IH].
    + cbn. case_decide; [lia|done].
    + rewrite store_range_snoc.
      destruct (decide (i = Z.to_nat (off + Z.of_nat k))) as [->|Hi].
      * destruct (decide (Z.to_nat (off + Z.of_nat k) < length l)%nat) as [Hlt|Hge].
        -- rewrite list_lookup_insert_eq by (by rewrite store_range_length).
           rewrite decide_True by lia. do 2 f_equal. lia.
        -- rewrite list_insert_ge by (rewrite store_range_length; lia).
           rewrite IH. rewrite !decide_False by lia. done.
      * rewrite list_lookup_insert_ne by done. rewrite IH.
        repeat case_decide; try done; lia.
  - unfold store_range, seqZ. replace (Z.to_nat n) with 0%nat by lia.
    cbn. case_decide; [lia|done].
Qed.

Lemma marker_value_spec ptr fi :
  marker_value ptr fi
  = match ptr with
    | None => -1
    | Some p => if decide (rd 0 p fi < 0) then -1 else wrap_int (rd 0 p fi + 1)
    end.
Proof.
  unfold marker_value, int_add. destruct ptr as [p|]; [|done].
  case_bool_decide; case_decide; done || lia.
Qed.

(** The marker of loop [bi].  For the last loop an [int] can count,
    [bi + 2] wraps to INT_MIN, whose negation wraps to INT_MIN again, which
    is [-(bi + 2)]. *)
Lemma loop_marker bi : 0 ≤ bi < INT_MAX → int_neg (int_add bi 2) = - (bi + 2).
Proof.
  unfold INT_MAX. intros Hbi.
  destruct (decide (bi = 2147483646)) as [->|Hne]; [reflexivity|].
  unfold int_neg, int_add.
  rewrite (wrap_int_id (bi + 2)) by (unfold is_int, INT_MIN, INT_MAX; lia).
  apply wrap_int_id. unfold is_int, INT_MIN, INT_MAX. lia.
Qed.

(** The marker array has as many cells as the facet count says, and none
    when the count is negative. *)
Lemma facetmarkerlist_cells ptr M B :
  length (build_facetmarkerlist ptr M B) = Z.to_nat (int_add M B).
Proof.
  unfold build_facetmarkerlist. by rewrite !store_range_length, length_replicate.
Qed.

Section facet_markers.
Context (ptr : option (list Z)) (M B : Z).
Hypothesis HM : 0 ≤ M.
Hypothesis HB : 0 ≤ B.
Hypothesis HT : M + B ≤ INT_MAX.

Lemma facetmarkerlist_length :
  Z.of_nat (length (build_facetmarkerlist ptr M B)) = M + B.
Proof.
  unfold build_facetmarkerlist, int_add. rewrite !store_range_length.
  rewrite length_replicate, wrap_int_id; [lia|].
  unfold is_int, INT_MIN, INT_MAX in *. lia.
Qed.

Lemma facetmarkerlist_lookup (i : nat) :
  build_facetmarkerlist ptr M B !! i
  = if decide (Z.of_nat i < M) then Some (marker_value ptr (Z.of_nat i))
    else if decide (Z.of_nat i < M + B) then Some (- (Z.of_nat i - M + 2))
    else None.
Proof.
  assert (length (replicate (Z.to_nat (int_add M B)) 0) = Z.to_nat (M + B))
    as Hlen.
  { unfold int_add. rewrite length_replicate, wrap_int_id; [done|].
    unfold is_int, INT_MIN, INT_MAX in *. lia. }
  unfold build_facetmarkerlist.
  rewrite store_range_lookup by done.
  rewrite store_range_length, Hlen.
  rewrite store_range_lookup by done. rewrite Hlen.
  destruct (decide (Z.of_nat i < M)) as [Hi|Hi].
  - rewrite decide_False by lia. rewrite decide_True by lia.
    do 2 f_equal. lia.
  - destruct (decide (Z.of_nat i < M + B)) as [Hi'|Hi'].
    + rewrite decide_True by lia. f_equal.
      apply loop_marker. unfold INT_MAX in *. lia.
    + rewrite !decide_False by lia.
      apply lookup_ge_None. rewrite Hlen. lia.
Qed.
End facet_markers.

(** ** Input validation *)

Lemma throw_if_Ok (c : Prop) `{Decision c} what :
  throw_if c what = Ok () ↔ ¬ c.
Proof. unfold throw_if. case_bool_decide; naive_solver. Qed.


Lemma check_vid_Ok N vid what : check_vid N vid what = Ok () ↔ 0 ≤ vid < N.
Proof. unfold check_vid. rewrite throw_if_Ok. lia. Qed.


Lemma check_mesh_facets_Ok F N M :
  check_mesh_facets F N M = Ok () ↔
  ∀ i k, 0 ≤ i < M → 0 ≤ k < 3 → 0 ≤ at2 0 F i k < N.
Proof.
  unfold check_mesh_facets. rewrite for_each_Ok. split.
  - intros H i k Hi Hk.
    assert (i ∈ seqZ 0 M) as Hi' by (apply elem_of_seqZ; lia).
    specialize (H i Hi'). rewrite for_each_Ok in H.
    eapply check_vid_Ok, H, elem_of_seqZ. lia.
  - intros H i Hi. apply elem_of_seqZ in Hi. apply for_each_Ok.
    intros k Hk. apply elem_of_seqZ in Hk. apply check_vid_Ok, H; lia.
Qed.





Lemma check_boundary_facets_Ok bfs N :
  check_boundary_facets bfs N = Ok () ↔
  ∀ bi poly, bfs !! bi = Some poly →
    (3 ≤ length poly)%nat ∧ ∀ vid, vid ∈ poly → 0 ≤ vid < N.
Proof.
  unfold check_boundary_facets. rewrite for_each_Ok. split.
  - intros H bi poly Hbi.
    assert (bi ∈ seq 0 (length bfs)) as Hin.
    { apply elem_of_seq. apply lookup_lt_Some in Hbi. lia. }
    specialize (H bi Hin). rewrite Hbi in H. cbn [default from_option] in H.
    unfold id in H.
    destruct (throw_if _ _) as [[]|w] eqn:Hlen in H; [|done].
    apply throw_if_Ok in Hlen. split; [lia|].
    intros vid Hvid. rewrite for_each_Ok in H. by eapply check_vid_Ok, H.
  - intros H bi Hbi. apply elem_of_seq in Hbi.
    destruct (lookup_lt_is_Some_2 bfs bi) as [poly Hpoly]; [lia|].
    rewrite Hpoly. cbn [default from_option]. unfold id.
    destruct (H bi poly Hpoly) as [Hlen Hvid].
    rewrite (proj2 (throw_if_Ok _ _)) by lia.
    apply for_each_Ok. intros vid Hv. by apply check_vid_Ok, Hvid.
Qed.



Lemma check_markers_Ok obj M ptr :
  check_markers obj M = Ok ptr ↔
  match obj with
  | None => ptr = None
  | Some a => ndim a = 1 ∧ dim a 0 = M ∧ ptr = Some (data a)
  end.
Proof.
  unfold check_markers. destruct obj as [a|]; [|naive_solver].
  repeat case_bool_decide; naive_solver.
Qed.

(** What a successful validation established. *)
Lemma validate_Ok vertices mesh_facets obj bfs ptr :
  validate vertices mesh_facets obj bfs = Ok ptr ↔
  let N := static_cast_int (dim vertices 0) in
  let M := static_cast_int (dim mesh_facets 0) in
  (ndim vertices = 2 ∧ dim vertices 1 = 3)
  ∧ (ndim mesh_facets = 2 ∧ dim mesh_facets 1 = 3)
  ∧ (1 ≤ length bfs)%nat
  ∧ check_markers obj M = Ok ptr
  ∧ 0 < N ∧ 0 ≤ M
  ∧ check_mesh_facets mesh_facets N M = Ok ()
  ∧ check_boundary_facets bfs N = Ok ().
Proof.
  unfold validate. cbn zeta.
  case_bool_decide as H1; [split; [done|tauto]|].
  case_bool_decide as H2; [split; [done|tauto]|].
  case_bool_decide as H3; [split; [done|intros (_ & _ & ? & _); lia]|].
  destruct (check_markers obj _) as [ptr'|w];
    [|split; [done|by intros (_ & _ & _ & ? & _)]].
  case_bool_decide as H4; [split; [done|intros (_ & _ & _ & _ & ? & _); lia]|].
  case_bool_decide as H5;
    [split; [done|intros (_ & _ & _ & _ & _ & ? & _); lia]|].
  destruct (check_mesh_facets _ _ _) as [[]|w];
    [|split; [done|by intros (_ & _ & _ & _ & _ & _ & ? & _)]].
  destruct (check_boundary_facets _ _) as [[]|w];
    [|split; [done|by intros (_ & _ & _ & _ & _ & _ & _ & ?)]].
  split.
  - intros [= ->]. repeat split; (done || lia || tauto).
  - by intros (_ & _ & _ & [= ->] & _).
Qed.


Lemma validate_Ok_no_violation vertices mesh_facets obj bfs ptr :
  validate vertices mesh_facets obj bfs = Ok ptr →
  ¬ violation vertices mesh_facets obj bfs.
Proof.
  rewrite validate_Ok. cbn zeta.
  intros (Hv & Hf & Hb & Hm & HN & HM & Hmesh & Hloops) Hviol.
  rewrite check_mesh_facets_Ok in Hmesh.
  rewrite check_boundary_facets_Ok in Hloops.
  rewrite check_markers_Ok in Hm.
  destruct Hviol as [H|H|H|i k Hi Hk H|bi poly vid Hbi Hvid H|bi poly Hbi H|H|a Ha H].
  - tauto.
  - tauto.
  - lia.
  - apply H. by apply Hmesh.
  - apply H. by eapply Hloops.
  - apply Hloops in Hbi as [Hlen _]. lia.
  - subst bfs. cbn in Hb. lia.
  - subst obj. destruct Hm as (? & ? & _). tauto.
Qed.







(** Validation is the only gate besides the kind of the switches: a valid
    input with switches of an accepted kind reaches the generator. *)
Lemma valid_input_reaches_generator vertices mesh_facets obj bfs o cbf ptr bytes :
  validate vertices mesh_facets obj bfs = Ok ptr →
  payload_bytes o = Some bytes →
  invokes_generator (tetrahedralize_core vertices mesh_facets obj bfs o cbf)
  = true.
Proof.
  intros Hv Hp. unfold tetrahedralize_core. rewrite Hv. cbn [lift].
  unfold switch_buffer, build_switches.
  destruct o as [s|s|a| |]; cbn in Hp; try done.
  by case_bool_decide; case_bool_decide.
Qed.

(** The rejection scenario: a mesh facet index equal to N. *)
Example index_one_past_the_end :
  tetrahedralize_core (NdArray [4; 3] (replicate 12 0%float))
    (NdArray [1; 3] [0; 1; 4]) None [[0; 1; 2]] (PyStr "pq") true
  = Stop (Throw "mesh_facets index out of range at row 0").
Proof. reflexivity. Qed.

(** The rejection scenario: zero boundary loops. *)
Example zero_boundary_loops :
  tetrahedralize_core (NdArray [4; 3] (replicate 12 0%float))
    (NdArray [1; 3] [0; 1; 3]) None [] (PyStr "pq") true
  = Stop (Throw "boundary_facets must contain at least one polygon (list of vertex indices)").
Proof. reflexivity. Qed.

(** ** The combined facet markers *)

Lemma static_cast_int_size (n : nat) :
  Z.of_nat n ≤ INT_MAX → static_cast_int (Z.of_nat n) = Z.of_nat n.
Proof.
  intros Hn. apply wrap_int_id. unfold is_int, INT_MIN, INT_MAX in *. lia.
Qed.

Lemma marker_value_encoded obj M ptr i :
  check_markers obj M = Ok ptr →
  (∀ a, obj = Some a → at1 0 a i < INT_MAX) →
  marker_value ptr i = encoded_marker obj i.
Proof.
  rewrite check_markers_Ok, marker_value_spec. unfold encoded_marker.
  destruct obj as [a|]; [|by intros ->].
  intros (_ & _ & ->) Hraw. specialize (Hraw a eq_refl).
  fold (at1 0 a i). case_decide; [done|].
  apply wrap_int_id. unfold is_int, INT_MIN, INT_MAX in *. lia.
Qed.

(** A raw marker whose successor is not an [int] is not encoded as the
    specification says. *)
Lemma marker_value_encoded_inv obj M ptr i :
  check_markers obj M = Ok ptr →
  marker_value ptr i = encoded_marker obj i →
  ∀ a, obj = Some a → at1 0 a i < INT_MAX.
Proof.
  rewrite check_markers_Ok, marker_value_spec. unfold encoded_marker.
  intros Hm Heq a ->. destruct Hm as (_ & _ & ->). fold (at1 0 a i) in Heq.
  case_decide; [unfold INT_MAX; lia|].
  pose proof (wrap_int_is_int (at1 0 a i + 1)) as Hint. rewrite Heq in Hint.
  unfold is_int, INT_MIN, INT_MAX in *. lia.
Qed.

(** Claim C1, amended.  For every valid input the PLC has a combined facet
    marker list, and that list is as the claim says exactly when the facet
    count M + B does not exceed 2^31 - 1 and the raw markers are all below
    2^31 - 1: it has exactly M + B entries; entry i < M is -1 when the
    marker array is absent or its raw value is negative and raw+1 when the
    raw value is >= 0; entry M + i, for loop i in 0..B-1, is -(i+2); hence
    every marker is exactly -1, >= 1 or <= -2, and the <= -2 markers biject
    onto the loop indices through index = -(marker)-2. *)
Theorem facet_markers_of_valid_input (vertices : ndarray REAL)
    (mesh_facets : ndarray Z) (mesh_facet_markers_obj : option (ndarray Z))
    (boundary_facets : list (list Z)) (ptr : option (list Z)) :
  validate vertices mesh_facets mesh_facet_markers_obj boundary_facets = Ok ptr →
  1 ≤ Z.of_nat (length boundary_facets) ∧
  ∃ l,
    facetmarkerlist (build_plc vertices mesh_facets ptr boundary_facets) = Some l
    ∧ (combined_markers mesh_facet_markers_obj
         (static_cast_int (dim mesh_facets 0))
         (Z.of_nat (length boundary_facets)) l
       ↔ static_cast_int (dim mesh_facets 0)
           + Z.of_nat (length boundary_facets) ≤ INT_MAX
         ∧ ∀ a i, mesh_facet_markers_obj = Some a →
             0 ≤ i < static_cast_int (dim mesh_facets 0) →
             at1 0 a i < INT_MAX).
Proof.
  set (M := static_cast_int (dim mesh_facets 0)).
  set (B := Z.of_nat (length boundary_facets)).
  intros Hval. apply validate_Ok in Hval.
  destruct Hval as (_ & _ & HB & Hm & _ & HM & _). fold M in Hm, HM.
  split; [lia|].
  eexists. split; [reflexivity|]. fold M B.
  assert (0 ≤ B) as HB0 by lia.
  assert (M + B ≤ INT_MAX → static_cast_int B = B) as HBc
    by (intros; apply static_cast_int_size; lia).
  split.
  - (* the claim holds only within the two bounds *)
    intros (Hlen & Hmesh & _).
    assert (M + B ≤ INT_MAX) as HT.
    { rewrite facetmarkerlist_cells in Hlen.
      pose proof (wrap_int_is_int (M + static_cast_int B)) as Hint.
      unfold int_add in Hlen.
      unfold is_int, INT_MIN, INT_MAX in *. lia. }
    split; [done|]. intros a i Ha Hi.
    eapply marker_value_encoded_inv; [done| |done].
    specialize (Hmesh i Hi). rewrite (HBc HT) in Hmesh.
    rewrite (facetmarkerlist_lookup ptr M B HM HB0 HT), decide_True in Hmesh
      by lia.
    rewrite Z2Nat.id in Hmesh by lia. by injection Hmesh.
  - (* and within them it holds *)
    intros [HT Hraw]. rewrite (HBc HT).
    pose proof (facetmarkerlist_lookup ptr M B HM HB0 HT) as Hl.
    assert (∀ i, 0 ≤ i < M →
              build_facetmarkerlist ptr M B !! Z.to_nat i
              = Some (encoded_marker mesh_facet_markers_obj i)) as Hmesh.
    { intros i Hi. rewrite Hl, decide_True by lia. rewrite Z2Nat.id by lia.
      f_equal. eapply marker_value_encoded; [done|].
      intros a Ha. by eapply Hraw. }
    assert (∀ p m, build_facetmarkerlist ptr M B !! p = Some m →
              (Z.of_nat p < M
               ∧ m = encoded_marker mesh_facet_markers_obj (Z.of_nat p))
              ∨ (M ≤ Z.of_nat p < M + B ∧ m = - (Z.of_nat p - M + 2)))
      as Hcases.
    { intros p m Hp. destruct (decide (Z.of_nat p < M)) as [Hlt|Hge].
      - left. split; [done|]. specialize (Hmesh (Z.of_nat p)).
        rewrite Nat2Z.id in Hmesh. rewrite Hmesh in Hp by lia. by simplify_eq.
      - right. rewrite Hl, decide_False in Hp by done.
        case_decide; simplify_eq. lia. }
    assert (∀ i, 0 ≤ i < M → encoded_marker mesh_facet_markers_obj i = -1
                             ∨ 1 ≤ encoded_marker mesh_facet_markers_obj i)
      as Henc.
    { intros i Hi. unfold encoded_marker.
      destruct mesh_facet_markers_obj as [a|]; [|by left].
      case_decide; [by left|right; lia]. }
    split_and!.
    + by apply facetmarkerlist_length.
    + done.
    + intros i Hi. rewrite Hl, decide_False by lia. rewrite decide_True by lia.
      do 2 f_equal. lia.
    + intros m Hm'. apply list_elem_of_lookup in Hm' as [p Hp].
      apply Hcases in Hp as [[Hp ->]|[Hp ->]].
      * destruct (Henc (Z.of_nat p)) as [->| ?]; [lia|by left|by right; left].
      * right. right. lia.
    + intros p m Hp Hneg. apply Hcases in Hp as [[Hp ->]|[Hp ->]].
      * destruct (Henc (Z.of_nat p)); lia.
      * lia.
Qed.

(** Two mesh facets with raw markers 5 and -3 and two loops: the bounds
    hold, and so does the claim. *)
Lemma facet_markers_of_valid_input_witness :
  1 ≤ Z.of_nat (length [[0; 1; 2]; [1; 2; 3]]) ∧
  ∃ l,
    facetmarkerlist
      (build_plc (NdArray [4; 3] (replicate 12 0%float))
         (NdArray [2; 3] [0; 1; 2; 1; 2; 3]) (Some [5; -3])
         [[0; 1; 2]; [1; 2; 3]]) = Some l
    ∧ l = [6; -1; -2; -3]
    ∧ combined_markers (Some (NdArray [2] [5; -3]))
        (static_cast_int (dim (NdArray [2; 3] [0; 1; 2; 1; 2; 3]) 0))
        (Z.of_nat (length [[0; 1; 2]; [1; 2; 3]])) l.
Proof.
  destruct (facet_markers_of_valid_input
              (NdArray [4; 3] (replicate 12 0%float))
              (NdArray [2; 3] [0; 1; 2; 1; 2; 3])
              (Some (NdArray [2] [5; -3]))
              [[0; 1; 2]; [1; 2; 3]] (Some [5; -3]) eq_refl)
    as (HB & l & Hl & Hiff).
  split; [exact HB|]. exists l. split; [exact Hl|].
  split; [by injection Hl as <-|].
  apply Hiff. split; [vm_compute; discriminate|].
  intros a i [= <-] Hi.
  change (static_cast_int (dim (NdArray [2; 3] [0; 1; 2; 1; 2; 3]) 0))
    with 2 in Hi.
  assert (i = 0 ∨ i = 1) as [-> | ->] by lia; reflexivity.
Defined.

(** On the witness input the markers are 6, -1 for the two mesh facets and
    -2, -3 for the two loops. *)
Example facet_markers_two_and_two :
  facetmarkerlist
    (build_plc (NdArray [4; 3] (replicate 12 0%float))
       (NdArray [2; 3] [0; 1; 2; 1; 2; 3]) (Some [5; -3])
       [[0; 1; 2]; [1; 2; 3]])
  = Some [6; -1; -2; -3].
Proof. reflexivity. Qed.

Lemma rd_replicate {A} (d : A) n i : rd d (replicate n d) i = d.
Proof.
  unfold rd. destruct (replicate n d !! Z.to_nat i) as [x|] eqn:Hx; [|done].
  by apply lookup_replicate in Hx as [-> _].
Qed.

(** [int_max_mesh_facets] with three vertices and one loop passes
    validation: its rows are in range. *)
Lemma int_max_mesh_facets_valid :
  validate (NdArray [3; 3] (replicate 9 0%float)) int_max_mesh_facets None
    [[0; 1; 2]] = Ok None.
Proof.
  apply validate_Ok. cbn zeta.
  change (dim int_max_mesh_facets 0) with 2147483647.
  change (dim int_max_mesh_facets 1) with 3.
  change (ndim int_max_mesh_facets) with 2.
  change (static_cast_int (dim (NdArray [3; 3] (replicate 9 0%float)) 0))
    with 3.
  change (static_cast_int 2147483647) with 2147483647.
  split; [by split|]. split; [by split|]. split; [cbn; lia|].
  split; [reflexivity|]. split; [lia|]. split; [lia|]. split.
  - apply check_mesh_facets_Ok. intros i k _ _.
    unfold at2, int_max_mesh_facets. cbn [data]. rewrite rd_replicate. lia.
  - reflexivity.
Qed.

(** A facet count that does not fit an [int] is negative, and the facet
    arrays allocated for it hold no cell. *)
Lemma facet_count_overflow vertices mesh_facets ptr boundary_facets :
  INT_MAX < static_cast_int (dim mesh_facets 0)
            + static_cast_int (Z.of_nat (length boundary_facets)) →
  numberoffacets (build_plc vertices mesh_facets ptr boundary_facets) < 0
  ∧ facetlist (build_plc vertices mesh_facets ptr boundary_facets) = Some []
  ∧ facetmarkerlist (build_plc vertices mesh_facets ptr boundary_facets)
    = Some [].
Proof.
  intros Hover. cbn [numberoffacets facetlist facetmarkerlist build_plc].
  set (M := static_cast_int (dim mesh_facets 0)) in *.
  set (B := static_cast_int (Z.of_nat (length boundary_facets))) in *.
  assert (int_add M B < 0) as Hneg.
  { pose proof (wrap_int_is_int (dim mesh_facets 0)) as HM.
    pose proof (wrap_int_is_int (Z.of_nat (length boundary_facets))) as HB.
    fold (static_cast_int (dim mesh_facets 0)) in HM.
    fold (static_cast_int (Z.of_nat (length boundary_facets))) in HB.
    fold M in HM. fold B in HB.
    unfold int_add, wrap_int, is_int, INT_MIN, INT_MAX in *.
    replace (M + B + 2 ^ 31) with (M + B - 2 ^ 31 + 1 * 2 ^ 32) by lia.
    rewrite Z.mod_add by lia. rewrite Z.mod_small by lia. lia. }
  split; [done|]. split; f_equal; apply nil_length_inv.
  - unfold build_facetlist. rewrite !store_range_length, length_replicate. lia.
  - rewrite facetmarkerlist_cells. lia.
Qed.

(** The index [M + bi] of the facet of loop [bi], which the source computes
    in [int], does not wrap when the facet count did not. *)
Remark facet_index_in_int M B bi :
  is_int M → is_int B → 0 ≤ M → 0 ≤ int_add M B → 0 ≤ bi < B →
  int_add M bi = M + bi.
Proof.
  unfold is_int, INT_MIN, INT_MAX. intros HM HB HM0 HT Hbi.
  assert (M + B ≤ 2147483647) as Hsum.
  { destruct (decide (M + B ≤ 2147483647)) as [|Hover]; [done|]. exfalso.
    unfold int_add, wrap_int in HT.
    replace (M + B + 2 ^ 31) with (M + B - 2 ^ 31 + 1 * 2 ^ 32) in HT by lia.
    rewrite Z.mod_add in HT by lia. rewrite Z.mod_small in HT by lia. lia. }
  apply wrap_int_id. unfold is_int, INT_MIN, INT_MAX. lia.
Qed.

(** Claim C1 as stated fails on two valid inputs.  With a raw marker
    INT_MAX the entry is an [int], which cannot hold raw + 1, and the
    wrapped value falls among the markers [<= -2] although it is no loop's
    marker.  With INT_MAX mesh facets and one loop the facet count M + B is
    no [int]: the count the PLC holds is negative and no marker list of
    M + B entries is built. *)
Lemma facet_marker_int_max_counterexample :
  (validate (NdArray [3; 3] (replicate 9 0%float)) (NdArray [1; 3] [0; 1; 2])
     (Some (NdArray [1] [2147483647])) [[0; 1; 2]]
   = Ok (Some [2147483647])
   ∧ facetmarkerlist
       (build_plc (NdArray [3; 3] (replicate 9 0%float))
          (NdArray [1; 3] [0; 1; 2]) (Some [2147483647]) [[0; 1; 2]])
     = Some [-2147483648; -2]
   ∧ ¬ combined_markers (Some (NdArray [1] [2147483647])) 1 1
         [-2147483648; -2]
   ∧ ¬ (∃ l : list Z, l !! 0%nat = Some (2147483647 + 1) ∧ Forall is_int l))
  ∧ (validate (NdArray [3; 3] (replicate 9 0%float)) int_max_mesh_facets None
       [[0; 1; 2]] = Ok None
     ∧ static_cast_int (dim int_max_mesh_facets 0) = 2147483647
     ∧ numberoffacets
         (build_plc (NdArray [3; 3] (replicate 9 0%float))
            int_max_mesh_facets None [[0; 1; 2]]) < 0
     ∧ ¬ (∃ l : list Z,
            facetmarkerlist
              (build_plc (NdArray [3; 3] (replicate 9 0%float))
                 int_max_mesh_facets None [[0; 1; 2]]) = Some l
            ∧ combined_markers None 2147483647 1 l)).
Proof.
  split.
  - split_and!.
    + reflexivity.
    + reflexivity.
    + intros (_ & H & _). specialize (H 0 ltac:(lia)). discriminate H.
    + intros (l & Hl & Hint). apply list_elem_of_lookup_2 in Hl.
      rewrite Forall_forall in Hint. apply Hint in Hl.
      unfold is_int, INT_MIN, INT_MAX in Hl. lia.
  - destruct (facet_count_overflow (NdArray [3; 3] (replicate 9 0%float))
                int_max_mesh_facets None [[0; 1; 2]]) as (Hn & _ & Hml).
    { change (dim int_max_mesh_facets 0) with 2147483647.
      vm_compute. reflexivity. }
    split_and!.
    + apply int_max_mesh_facets_valid.
    + reflexivity.
    + exact Hn.
    + intros (l & Hl & Hlen & _). rewrite Hml in Hl. injection Hl as <-.
      cbn in Hlen. lia.
Qed.

(** ** The switch buffer *)

Lemma c_string_no_NUL l : NUL ∉ l → c_string l = l.
Proof.
  induction l as [|c l IH]; [done|]. intros Hl. cbn.
  rewrite bool_decide_false by set_solver. f_equal. apply IH. set_solver.
Qed.

Lemma c_string_terminated l l' : c_string (l ++ NUL :: l') = c_string l.
Proof.
  induction l as [|c l IH]; cbn; [done|].
  destruct (decide (c = NUL)) as [Hc|Hc].
  - by rewrite !(bool_decide_true (c = NUL)).
  - rewrite !(bool_decide_false (c = NUL)) by done. by rewrite IH.
Qed.


Lemma scan_flags_c_string sw has_n has_f :
  scan_flags sw has_n has_f
  = (has_n || bool_decide ("n"%char ∈ c_string sw),
     has_f || bool_decide ("f"%char ∈ c_string sw)).
Proof.
  revert has_n has_f. induction sw as [|c sw IH]; intros has_n has_f; cbn.
  - rewrite !(bool_decide_false (_ ∈ [])) by set_solver.
    by rewrite !orb_false_r.
  - destruct (decide (c = NUL)) as [Hc|Hc].
    + rewrite !(bool_decide_true (c = NUL)) by done.
      rewrite !(bool_decide_false (_ ∈ [])) by set_solver.
      by rewrite !orb_false_r.
    + rewrite !(bool_decide_false (c = NUL)) by done. rewrite IH. f_equal.
      * destruct (decide (c = "n"%char)) as [Hn|Hn].
        -- rewrite (bool_decide_true (c = _)) by done.
           rewrite (bool_decide_true (_ ∈ _ :: _)) by set_solver.
           by rewrite orb_true_r.
        -- rewrite (bool_decide_false (c = _)) by done. f_equal.
           apply bool_decide_ext. set_solver.
      * destruct (decide (c = "f"%char)) as [Hf|Hf].
        -- rewrite (bool_decide_true (c = _)) by done.
           rewrite (bool_decide_true (_ ∈ _ :: _)) by set_solver.
           by rewrite orb_true_r.
        -- rewrite (bool_decide_false (c = _)) by done. f_equal.
           apply bool_decide_ext. set_solver.
Qed.

(** The buffer after the flags were ensured: the payload, the flags its C
    string lacks, and the terminator. *)
Lemma ensure_flags_terminated bytes :
  ensure_flags true (bytes ++ [NUL]) = bytes ++ missing_flags bytes ++ [NUL].
Proof.
  unfold ensure_flags, missing_flags.
  rewrite scan_flags_c_string, c_string_terminated. cbn [orb].
  rewrite (bool_decide_true (_ ∧ _)).
  2:{ split; [by destruct bytes|]. by rewrite last_snoc. }
  rewrite removelast_last.
  destruct (bool_decide ("n"%char ∈ c_string bytes)),
           (bool_decide ("f"%char ∈ c_string bytes)); cbn [negb orb app];
    by rewrite <- ?app_assoc.
Qed.

Lemma build_switches_payload o :
  build_switches o
  = match payload_bytes o with
    | Some bytes => Ok (bytes ++ [NUL])
    | None =>
        Throw (match o with
               | PyArray a =>
                   "array has incorrect number of dimensions: "
                     +:+ to_string_int (ndim a) +:+ "; expected 1"
               | _ => "tetgen_switches must be str, bytes, or 1D byte array"
               end)
    end.
Proof.
  destruct o as [s|s|a| |]; cbn; try done.
  case_bool_decide; case_bool_decide; done.
Qed.

Lemma switch_buffer_payload o compute_boundary_faces :
  switch_buffer o compute_boundary_faces
  = match payload_bytes o with
    | Some bytes =>
        Ok (bytes
              ++ (if compute_boundary_faces then missing_flags bytes else [])
              ++ [NUL])
    | None =>
        Throw (match o with
               | PyArray a =>
                   "array has incorrect number of dimensions: "
                     +:+ to_string_int (ndim a) +:+ "; expected 1"
               | _ => "tetgen_switches must be str, bytes, or 1D byte array"
               end)
    end.
Proof.
  unfold switch_buffer. rewrite build_switches_payload.
  destruct (payload_bytes o) as [bytes|]; [|done]. cbn [result_bind].
  destruct compute_boundary_faces; [by rewrite ensure_flags_terminated|done].
Qed.


Lemma elem_of_missing_flags c bytes :
  c ∈ missing_flags bytes ↔
  (c = "n"%char ∨ c = "f"%char) ∧ c ∉ c_string bytes.
Proof.
  unfold missing_flags.
  destruct (decide ("n"%char ∈ c_string bytes)) as [Hn|Hn],
           (decide ("f"%char ∈ c_string bytes)) as [Hf|Hf];
    rewrite ?(bool_decide_true _ Hn), ?(bool_decide_false _ Hn),
      ?(bool_decide_true _ Hf), ?(bool_decide_false _ Hf);
    set_solver.
Qed.

(** What a reader of the buffer as a C string sees, for a payload that
    holds no NUL byte: the payload and then the flags it lacked. *)
Lemma c_string_switches bytes flags :
  NUL ∉ bytes → NUL ∉ flags →
  c_string (bytes ++ flags ++ [NUL]) = bytes ++ flags.
Proof.
  intros Hb Hf. rewrite app_assoc, c_string_terminated.
  apply c_string_no_NUL. set_solver.
Qed.

Lemma missing_flags_no_NUL bytes : NUL ∉ missing_flags bytes.
Proof. rewrite elem_of_missing_flags. by intros [[?|?] _]. Qed.

Lemma both_flags_after_ensuring bytes :
  "n"%char ∈ c_string bytes ++ missing_flags bytes
  ∧ "f"%char ∈ c_string bytes ++ missing_flags bytes.
Proof.
  split; apply elem_of_app.
  - destruct (decide ("n"%char ∈ c_string bytes)); [by left|right].
    apply elem_of_missing_flags. auto.
  - destruct (decide ("f"%char ∈ c_string bytes)); [by left|right].
    apply elem_of_missing_flags. auto.
Qed.

Lemma missing_flags_none bytes :
  "n"%char ∈ c_string bytes → "f"%char ∈ c_string bytes →
  missing_flags bytes = [].
Proof. intros Hn Hf. unfold missing_flags. by rewrite !bool_decide_true. Qed.



(** The flag augmentation scenario: no flag in the payload. *)
Example switches_without_flags :
  switch_buffer (PyStr "pq1.2") true
  = Ok (list_ascii_of_string "pq1.2nf" ++ [NUL]).
Proof. reflexivity. Qed.

Example switches_with_both_flags :
  switch_buffer (PyBytes "pfqn") true = Ok (list_ascii_of_string "pfqn" ++ [NUL]).
Proof. reflexivity. Qed.

Example switches_two_dimensional_array :
  switch_buffer (PyArray (NdArray [1; 2] ["n"%char; "f"%char])) true
  = Throw "array has incorrect number of dimensions: 2; expected 1".
Proof. reflexivity. Qed.


(** ** Canonical face keys *)

Lemma sort3_perm t : triangle_cells (sort3 t) ≡ₚ triangle_cells t.
Proof.
  destruct t as [[a b] c]. unfold sort3, triangle_cells.
  repeat case_bool_decide; cbn [fst snd];
    first [ reflexivity
          | by apply perm_swap
          | by apply perm_skip, perm_swap
          | by (etrans; [apply perm_swap|apply perm_skip, perm_swap])
          | by (etrans; [apply perm_skip, perm_swap|apply perm_swap])
          | by (etrans; [apply perm_swap|];
                etrans; [apply perm_skip, perm_swap|apply perm_swap])
          | lia ].
Qed.

Lemma sort3_sorted t : StronglySorted Z.le (triangle_cells (sort3 t)).
Proof.
  destruct t as [[a b] c]. unfold sort3, triangle_cells.
  repeat case_bool_decide; cbn [fst snd];
    repeat (constructor; [|repeat (constructor; [lia|]); constructor]);
    constructor.
Qed.

(** A key does not depend on the order of the three vertices. *)
Lemma sort3_permutation t1 t2 :
  triangle_cells t1 ≡ₚ triangle_cells t2 → sort3 t1 = sort3 t2.
Proof.
  intros Hperm.
  assert (triangle_cells (sort3 t1) = triangle_cells (sort3 t2)) as Heq.
  { apply (StronglySorted_unique Z.le); [apply sort3_sorted..|].
    by rewrite !sort3_perm. }
  destruct (sort3 t1) as [[a1 b1] c1], (sort3 t2) as [[a2 b2] c2].
  unfold triangle_cells in Heq. cbn in Heq. by simplify_eq.
Qed.

Lemma sort3_ascending t : (sort3 t).1.1 ≤ (sort3 t).1.2 ≤ (sort3 t).2.
Proof.
  destruct t as [[a b] c]. unfold sort3.
  repeat case_bool_decide; cbn [fst snd]; lia.
Qed.

(** ** Marker reconciliation *)

Lemma insert_trifaces_lookup tl ml idx m key :
  insert_trifaces tl ml idx m !! key
  = match last_wins tl ml idx key with
    | Some v => Some v
    | None => m !! key
    end.
Proof.
  unfold last_wins. revert m.
  induction idx as [|i idx IH]; intros m; [done|].
  cbn [insert_trifaces foldl]. unfold insert_trifaces in IH. rewrite IH.
  rewrite filter_cons. case_decide as Hi.
  - subst key. rewrite last_cons.
    destruct (last (filter _ idx)) as [j|]; [done|].
    cbn [fmap option_fmap option_map]. by rewrite lookup_insert_eq.
  - destruct (last (filter _ idx)) as [j|]; [done|].
    cbn [fmap option_fmap option_map]. by rewrite lookup_insert_ne.
Qed.

(** The map of a generator output with faces and markers: last wins. *)
Lemma build_triface_marker_map_lookup out tl ml key :
  trifacelist out = Some tl → trifacemarkerlist out = Some ml →
  0 < numberoftrifaces out →
  build_triface_marker_map out !! key
  = last_wins tl ml (seqZ 0 (numberoftrifaces out)) key.
Proof.
  intros Htl Hml Hn. unfold build_triface_marker_map.
  rewrite Htl, Hml, bool_decide_true by done.
  rewrite insert_trifaces_lookup, lookup_empty.
  by destruct (last_wins _ _ _ _).
Qed.

Lemma build_triface_marker_map_nonempty out tl ml :
  trifacelist out = Some tl → trifacemarkerlist out = Some ml →
  0 < numberoftrifaces out →
  build_triface_marker_map out ≠ ∅.
Proof.
  intros Htl Hml Hn Hempty.
  pose proof (build_triface_marker_map_lookup out tl ml
                (sort3 (buffer_triangle tl 0)) Htl Hml Hn) as Hl.
  rewrite Hempty, lookup_empty in Hl. unfold last_wins in Hl.
  destruct (last _) as [j|] eqn:Hlast; [done|]. apply last_None in Hlast.
  assert (0 ∈ filter (λ i, sort3 (buffer_triangle tl i)
                           = sort3 (buffer_triangle tl 0))
                (seqZ 0 (numberoftrifaces out))) as Hin.
  { apply list_elem_of_filter. split; [done|]. apply elem_of_seqZ. lia. }
  rewrite Hlast in Hin. inversion Hin.
Qed.

(** Without faces, or without their markers, the map is empty. *)
Lemma build_triface_marker_map_empty out :
  trifacelist out = None ∨ trifacemarkerlist out = None
    ∨ numberoftrifaces out ≤ 0 →
  build_triface_marker_map out = ∅.
Proof.
  unfold build_triface_marker_map.
  destruct (trifacelist out), (trifacemarkerlist out); try done.
  intros [?|[?|?]]; try done. by rewrite bool_decide_false by lia.
Qed.

Lemma rd_fmap_seqZ {A} (d : A) (f : Z → A) n i :
  0 ≤ i < n → rd d (f <$> seqZ 0 n) i = f i.
Proof.
  intros Hi. unfold rd. rewrite list_lookup_fmap.
  rewrite lookup_seqZ_lt by lia. cbn. f_equal. lia.
Qed.

Lemma boundary_markers_at m faces i :
  0 ≤ i < dim faces 0 →
  at1 0 (boundary_markers m faces) i = lookup_marker m (face_row faces i).
Proof.
  intros Hi. unfold at1, boundary_markers. cbn [data].
  by rewrite (rd_fmap_seqZ 0 (λ i, lookup_marker m (face_row faces i))).
Qed.

(** ** Populating the result *)

Lemma derive_boundary_Ok cbf res_tets res_neighbors m bf bm :
  derive_boundary cbf res_tets res_neighbors m = Ok (bf, bm) ↔
  (cbf = true ∧ ∃ nbrs faces,
     res_neighbors = Some nbrs
     ∧ compute_boundary_face_tris res_tets nbrs = Ok faces
     ∧ bf = Some faces
     ∧ bm = (if bool_decide (m ≠ ∅) then Some (boundary_markers m faces) else None))
  ∨ ((cbf = false ∨ res_neighbors = None) ∧ bf = None ∧ bm = None).
Proof.
  unfold derive_boundary. destruct cbf, res_neighbors as [nbrs|].
  - destruct (compute_boundary_face_tris res_tets nbrs) as [faces|w] eqn:Hc.
    + split.
      * intros [= <- <-]. left. split; [done|]. by exists nbrs, faces.
      * intros [(_ & nbrs' & faces' & [= <-] & Hc' & -> & ->)
               |([?|?] & _)]; [|done..].
        rewrite Hc in Hc'. by simplify_eq.
    + split; [done|].
      intros [(_ & nbrs' & faces' & [= <-] & Hc' & _)|([?|?] & _)]; [|done..].
      rewrite Hc in Hc'. done.
  - split; [intros [= <- <-]; right; auto|].
    intros [(_ & ? & ? & ? & _)|(_ & -> & ->)]; done.
  - split; [intros [= <- <-]; right; auto|].
    intros [(? & _)|(_ & -> & ->)]; done.
  - split; [intros [= <- <-]; right; auto|].
    intros [(? & _)|(_ & -> & ->)]; done.
Qed.

Lemma derive_boundary_Throw cbf res_tets res_neighbors m w :
  derive_boundary cbf res_tets res_neighbors m = Throw w ↔
  cbf = true ∧ ∃ nbrs, res_neighbors = Some nbrs
                       ∧ compute_boundary_face_tris res_tets nbrs = Throw w.
Proof.
  unfold derive_boundary. destruct cbf, res_neighbors as [nbrs|];
    try (split; [done|]; intros (? & ? & ? & _); done).
  destruct (compute_boundary_face_tris res_tets nbrs) as [faces|w'] eqn:Hc.
  - split; [done|]. intros (_ & nbrs' & [= <-] & Hc'). congruence.
  - split.
    + intros [= ->]. split; [done|]. by exists nbrs.
    + intros (_ & nbrs' & [= <-] & Hc'). congruence.
Qed.

(** The result of a run that returned: every field but the two derived ones
    is a function of the generator's output alone. *)
Lemma marshal_Ok cbf o out res :
  marshal cbf o out = Ok res ↔
  ∃ bf bm,
    derive_boundary cbf
      (to_array_i32 (tetrahedronlist out) (numberoftetrahedra out)
         (numberofcorners out))
      (marshal_neighbors out) (build_triface_marker_map out) = Ok (bf, bm)
    ∧ res = {| points := to_array_f64 (pointlist out) (numberofpoints out) 3;
               tets := to_array_i32 (tetrahedronlist out)
                         (numberoftetrahedra out) (numberofcorners out);
               tri_faces := marshal_tri_faces out;
               tri_markers := marshal_tri_markers out;
               boundary_tri_faces := bf;
               boundary_tri_markers := bm;
               edges := marshal_edges out;
               edge_markers := marshal_edge_markers out;
               neighbors := marshal_neighbors out;
               point_markers := marshal_point_markers out;
               tet_attr := marshal_tet_attr out;
               tet_vol := marshal_tet_vol out;
               corners := numberofcorners out;
               switches := match o with PyStr s => s | _ => "" end |}.
Proof.
  unfold marshal. cbn zeta.
  destruct (derive_boundary _ _ _ _) as [[bf bm]|w].
  - split.
    + intros [= <-]. by exists bf, bm.
    + intros (bf' & bm' & [= <- <-] & ->). done.
  - split; [done|]. by intros (? & ? & ? & _).
Qed.

Lemma marshal_Throw cbf o out w :
  marshal cbf o out = Throw w ↔
  derive_boundary cbf
    (to_array_i32 (tetrahedronlist out) (numberoftetrahedra out)
       (numberofcorners out))
    (marshal_neighbors out) (build_triface_marker_map out) = Throw w.
Proof.
  unfold marshal. cbn zeta.
  destruct (derive_boundary _ _ _ _) as [[bf bm]|w']; [done|].
  split; by intros [= ->].
Qed.

Lemma last_wins_snoc tl ml idx i key :
  last_wins tl ml (idx ++ [i]) key
  = if decide (sort3 (buffer_triangle tl i) = key) then Some (rd 0 ml i)
    else last_wins tl ml idx key.
Proof.
  unfold last_wins. rewrite filter_app, filter_cons, filter_nil.
  case_decide; [by rewrite last_snoc|by rewrite app_nil_r].
Qed.

(** Last wins, spelled out: the face that gives a key its marker is the one
    of greatest index among the faces with that key. *)
Lemma last_wins_Some tl ml (n : nat) key v :
  last_wins tl ml (seqZ 0 (Z.of_nat n)) key = Some v ↔
  ∃ i, 0 ≤ i < Z.of_nat n ∧ sort3 (buffer_triangle tl i) = key ∧ v = rd 0 ml i
       ∧ ∀ j, i < j < Z.of_nat n → sort3 (buffer_triangle tl j) ≠ key.
Proof.
  induction n as [|n IH].
  - cbn. split; [done|]. intros (i & ? & _). lia.
  - replace (Z.of_nat (S n)) with (Z.of_nat n + 1) by lia.
    rewrite seqZ_app by lia.
    replace (seqZ (0 + Z.of_nat n) 1) with [Z.of_nat n]
      by (unfold seqZ; cbn; f_equal; lia).
    rewrite last_wins_snoc. case_decide as Hk.
    + split.
      * intros [= <-]. exists (Z.of_nat n). split_and!; [lia..|done|done|]. lia.
      * intros (i & Hi & Hki & -> & Hlast).
        destruct (decide (i = Z.of_nat n)) as [->|Hne]; [done|].
        exfalso. apply (Hlast (Z.of_nat n)); [lia|done].
    + rewrite IH. split.
      * intros (i & Hi & Hki & -> & Hlast). exists i.
        split_and!; [lia..|done|done|]. intros j Hj.
        destruct (decide (j = Z.of_nat n)) as [->|Hne]; [done|]. apply Hlast. lia.
      * intros (i & Hi & Hki & -> & Hlast).
        destruct (decide (i = Z.of_nat n)) as [->|Hne]; [done|].
        exists i. split_and!; [lia..|done|done|]. intros j Hj. apply Hlast. lia.
Qed.

Lemma last_wins_None tl ml n key :
  last_wins tl ml (seqZ 0 n) key = None ↔
  ∀ i, 0 ≤ i < n → sort3 (buffer_triangle tl i) ≠ key.
Proof.
  unfold last_wins. rewrite fmap_None, last_None. split.
  - intros Hnil i Hi Hk.
    assert (i ∈ filter (λ i, sort3 (buffer_triangle tl i) = key) (seqZ 0 n))
      as Hin by (apply list_elem_of_filter; split; [done|apply elem_of_seqZ; lia]).
    rewrite Hnil in Hin. inversion Hin.
  - intros Hall.
    destruct (filter _ (seqZ 0 n)) as [|i l] eqn:Hf; [done|].
    assert (i ∈ filter (λ i, sort3 (buffer_triangle tl i) = key) (seqZ 0 n))
      as Hin by (rewrite Hf; left).
    apply list_elem_of_filter in Hin as [Hk Hi]. apply elem_of_seqZ in Hi.
    exfalso. apply (Hall i); [lia|done].
Qed.

(** Claim C3.  When the generator's Output Faces and their markers are both
    present, every derived Boundary Face gets the marker stored under its
    sorted vertex triple in a map built by one forward pass over the Output
    Faces, keyed by the sorted vertex triple, in which a later face with the
    same key overwrites an earlier one; a Boundary Face whose key is not in
    the map gets marker 0. *)
Theorem boundary_markers_from_last_wins_map (compute_boundary_faces : bool)
    (tetgen_switches : py_object) (out : tetgenio) (tl ml : list Z)
    (res : TetwrapIO) (bf : ndarray Z) :
  trifacelist out = Some tl → trifacemarkerlist out = Some ml →
  0 < numberoftrifaces out →
  marshal compute_boundary_faces tetgen_switches out = Ok res →
  boundary_tri_faces res = Some bf →
  ∃ (m : gmap triangle Z) (markers : ndarray Z),
    (* the map: for each key, the marker of the last face with that key *)
    (∀ key v, m !! key = Some v ↔
       ∃ i, 0 ≤ i < numberoftrifaces out
            ∧ sort3 (buffer_triangle tl i) = key ∧ v = rd 0 ml i
            ∧ ∀ j, i < j < numberoftrifaces out →
                sort3 (buffer_triangle tl j) ≠ key)
    ∧ (∀ key, m !! key = None ↔
         ∀ i, 0 ≤ i < numberoftrifaces out →
           sort3 (buffer_triangle tl i) ≠ key)
    (* one marker for each boundary face: the map's, or 0 *)
    ∧ boundary_tri_markers res = Some markers
    ∧ shape markers = [dim bf 0]
    ∧ length (data markers) = Z.to_nat (dim bf 0)
    ∧ ∀ i, 0 ≤ i < dim bf 0 →
        at1 0 markers i = default 0 (m !! sort3 (face_row bf i)).
Proof.
  intros Htl Hml Hn Hres Hbf.
  exists (build_triface_marker_map out),
         (boundary_markers (build_triface_marker_map out) bf).
  pose proof (build_triface_marker_map_lookup out tl ml) as Hmap.
  split_and!.
  - intros key v. rewrite Hmap by done.
    rewrite <- (Z2Nat.id (numberoftrifaces out)) by lia.
    apply last_wins_Some.
  - intros key. rewrite Hmap by done. apply last_wins_None.
  - apply marshal_Ok in Hres as (bf' & bm & Hd & ->). cbn in Hbf. subst bf'.
    cbn [boundary_tri_markers].
    apply derive_boundary_Ok in Hd as [(_ & nbrs & faces & _ & _ & [= <-] & ->)
                                      |(_ & ? & _)]; [|done].
    rewrite bool_decide_true; [done|].
    by eapply build_triface_marker_map_nonempty.
  - done.
  - cbn. by rewrite length_fmap, length_seqZ.
  - intros i Hi. by rewrite boundary_markers_at.
Qed.

Example one_tet_marshal :
  marshal true (PyStr "pq") one_tet_out = Ok one_tet_io.
Proof. vm_compute. reflexivity. Qed.

Lemma boundary_markers_from_last_wins_map_witness :
  ∃ (m : gmap triangle Z) (markers : ndarray Z),
    (∀ key v, m !! key = Some v ↔
       ∃ i, 0 ≤ i < numberoftrifaces one_tet_out
            ∧ sort3 (buffer_triangle [3; 1; 2; 0; 3; 2; 2; 1; 3] i) = key
            ∧ v = rd 0 [7; 8; 9] i
            ∧ ∀ j, i < j < numberoftrifaces one_tet_out →
                sort3 (buffer_triangle [3; 1; 2; 0; 3; 2; 2; 1; 3] j) ≠ key)
    ∧ (∀ key, m !! key = None ↔
         ∀ i, 0 ≤ i < numberoftrifaces one_tet_out →
           sort3 (buffer_triangle [3; 1; 2; 0; 3; 2; 2; 1; 3] i) ≠ key)
    ∧ boundary_tri_markers one_tet_io = Some markers
    ∧ shape markers
      = [dim (NdArray [4; 3] [1; 2; 3; 0; 3; 2; 0; 1; 3; 0; 2; 1]) 0]
    ∧ length (data markers)
      = Z.to_nat (dim (NdArray [4; 3] [1; 2; 3; 0; 3; 2; 0; 1; 3; 0; 2; 1]) 0)
    ∧ ∀ i, 0 ≤ i < dim (NdArray [4; 3] [1; 2; 3; 0; 3; 2; 0; 1; 3; 0; 2; 1]) 0 →
        at1 0 markers i
        = default 0
            (m !! sort3 (face_row
                           (NdArray [4; 3] [1; 2; 3; 0; 3; 2; 0; 1; 3; 0; 2; 1])
                           i)).
Proof.
  apply (boundary_markers_from_last_wins_map true (PyStr "pq") one_tet_out
           [3; 1; 2; 0; 3; 2; 2; 1; 3] [7; 8; 9] one_tet_io
           (NdArray [4; 3] [1; 2; 3; 0; 3; 2; 0; 1; 3; 0; 2; 1])).
  - reflexivity.
  - reflexivity.
  - reflexivity.
  - vm_compute. reflexivity.
  - reflexivity.
Defined.

(** Claim C4.  The Canonical Face Key is the vertex triple sorted ascending;
    two triangles whose vertex triples are permutations of each other have
    the same key and so get the same marker, whatever their winding; the
    Boundary Faces of the result are the triangles as the extractor emitted
    them, in their original vertex order. *)
Theorem canonical_key_ignores_winding :
  (∀ t : triangle,
     (sort3 t).1.1 ≤ (sort3 t).1.2 ≤ (sort3 t).2
     ∧ triangle_cells (sort3 t) ≡ₚ triangle_cells t)
  ∧ (∀ t1 t2 : triangle,
       triangle_cells t1 ≡ₚ triangle_cells t2 →
       sort3 t1 = sort3 t2
       ∧ ∀ m : gmap triangle Z, lookup_marker m t1 = lookup_marker m t2)
  ∧ (∀ cbf o out res bf markers i j,
       marshal cbf o out = Ok res →
       boundary_tri_faces res = Some bf →
       boundary_tri_markers res = Some markers →
       0 ≤ i < dim bf 0 → 0 ≤ j < dim bf 0 →
       triangle_cells (face_row bf i) ≡ₚ triangle_cells (face_row bf j) →
       at1 0 markers i = at1 0 markers j)
  ∧ (∀ cbf o out res bf,
       marshal cbf o out = Ok res →
       boundary_tri_faces res = Some bf →
       ∃ nbrs, neighbors res = Some nbrs
               ∧ compute_boundary_face_tris (tets res) nbrs = Ok bf).
Proof.
  split_and!.
  - intros t. split; [apply sort3_ascending|apply sort3_perm].
  - intros t1 t2 Hperm. split; [by apply sort3_permutation|].
    intros m. unfold lookup_marker. by rewrite (sort3_permutation t1 t2).
  - intros cbf o out res bf markers i j Hres Hbf Hbm Hi Hj Hperm.
    apply marshal_Ok in Hres as (bf' & bm & Hd & ->). cbn in Hbf, Hbm.
    subst bf' bm.
    apply derive_boundary_Ok in Hd as [(_ & nbrs & faces & _ & _ & [= <-] & Hm)
                                      |(_ & ? & _)]; [|done].
    case_bool_decide; [|done]. injection Hm as ->.
    rewrite !boundary_markers_at by done. unfold lookup_marker.
    by rewrite (sort3_permutation _ _ Hperm).
  - intros cbf o out res bf Hres Hbf.
    apply marshal_Ok in Hres as (bf' & bm & Hd & ->). cbn in Hbf. subst bf'.
    cbn [neighbors tets].
    apply derive_boundary_Ok in Hd as [(_ & nbrs & faces & Hn & Hc & [= <-] & _)
                                      |(_ & ? & _)]; [|done].
    by exists nbrs.
Qed.

(** On [one_tet_out] the second boundary face is emitted as (0,3,2), in the
    pattern's order, and gets the marker stored under the key (0,2,3). *)
Example emitted_face_keeps_its_order :
  face_row (NdArray [4; 3] [1; 2; 3; 0; 3; 2; 0; 1; 3; 0; 2; 1]) 1 = (0, 3, 2)
  ∧ sort3 (0, 3, 2) = (0, 2, 3)
  ∧ build_triface_marker_map one_tet_out !! (0, 2, 3) = Some 8
  ∧ build_triface_marker_map one_tet_out !! (1, 2, 3) = Some 9.
Proof. by vm_compute. Qed.

(** ** Absence *)


Lemma absence_free_of_error cbf o out :
  neighborlist out = None ∨ cbf = false →
  ∃ res, marshal cbf o out = Ok res.
Proof.
  intros Habs. destruct (marshal cbf o out) as [res|w] eqn:Hres; [by exists res|].
  apply marshal_Throw, derive_boundary_Throw in Hres as (-> & nbrs & Hn & _).
  destruct Habs as [Habs|?]; [|done].
  unfold marshal_neighbors in Hn. by rewrite Habs in Hn.
Qed.

(** Claim C5, amended.  Absence propagates and is not conflated with
    emptiness or zero.  The adjacency output is absent when its buffer is
    null, whatever the number of tetrahedra: when that buffer is null or
    boundary-face derivation is not requested, the call returns and both
    the Boundary Faces and their markers are the absent value; the Boundary
    Faces are absent in no other case (derived faces, even none, are a
    present array); and when the Output Faces or their markers are absent
    (a null buffer or no face) while Boundary Faces are derived, the
    markers alone are absent. *)
Theorem absence_propagates (compute_boundary_faces : bool)
    (tetgen_switches : py_object) (out : tetgenio) :
  (neighborlist out = None ∨ compute_boundary_faces = false →
     ∃ res, marshal compute_boundary_faces tetgen_switches out = Ok res
            ∧ boundary_tri_faces res = None
            ∧ boundary_tri_markers res = None)
  ∧ (∀ res, marshal compute_boundary_faces tetgen_switches out = Ok res →
       (neighbors res = None ↔ neighborlist out = None)
       ∧ (boundary_tri_faces res = None ↔
          neighborlist out = None ∨ compute_boundary_faces = false)
       ∧ (boundary_tri_faces res = None → boundary_tri_markers res = None)
       ∧ (trifacelist out = None ∨ numberoftrifaces out ≤ 0
            ∨ trifacemarkerlist out = None →
          boundary_tri_markers res = None)
       ∧ (is_Some (boundary_tri_faces res) →
          is_Some (trifacelist out) → 0 < numberoftrifaces out →
          is_Some (trifacemarkerlist out) →
          is_Some (boundary_tri_markers res))).
Proof.
  assert (marshal_neighbors out = None ↔ neighborlist out = None) as Hnb.
  { unfold marshal_neighbors. by destruct (neighborlist out). }
  split.
  - intros Habs.
    destruct (marshal compute_boundary_faces tetgen_switches out)
      as [res|w] eqn:Hres.
    + exists res. split; [done|].
      apply marshal_Ok in Hres as (bf & bm & Hd & ->). cbn.
      apply derive_boundary_Ok in Hd
        as [(-> & nbrs & faces & Hn & _)|(_ & -> & ->)]; [|done].
      destruct Habs as [Habs|?]; [|done]. apply Hnb in Habs. congruence.
    + apply marshal_Throw, derive_boundary_Throw in Hres
        as (-> & nbrs & Hn & _).
      destruct Habs as [Habs|?]; [|done]. apply Hnb in Habs. congruence.
  - intros res Hres. apply marshal_Ok in Hres as (bf & bm & Hd & ->). cbn.
    split; [done|].
    apply derive_boundary_Ok in Hd
      as [(-> & nbrs & faces & Hn & _ & -> & ->)|(Habs & -> & ->)].
    + split_and!.
      * split; [done|]. intros [Habs|?]; [|done].
        apply Hnb in Habs. congruence.
      * done.
      * intros Habs. by rewrite build_triface_marker_map_empty by tauto.
      * intros _ [tl Htl] Hn' [ml Hml]. rewrite bool_decide_true; [done|].
        by eapply build_triface_marker_map_nonempty.
    + split_and!; try done.
      split; [|done]. intros _. destruct Habs as [?|Habs]; [by right|].
      left. by apply Hnb.
Qed.

(** Derivation not requested, on an output without tetrahedra whose
    adjacency buffer is allocated: the call returns, both fields absent. *)
Lemma absence_propagates_witness :
  ∃ res, marshal false (PyStr "pq") no_tet_out = Ok res
         ∧ boundary_tri_faces res = None
         ∧ boundary_tri_markers res = None.
Proof.
  destruct (absence_propagates false (PyStr "pq") no_tet_out) as [Habs _].
  apply Habs. by right.
Defined.

(** Claim C5 as stated fails on an output with no tetrahedron whose
    adjacency buffer is allocated all the same: by the presence test of
    the marshaller's contract (buffer non-null and count > 0) the adjacency
    is absent, derivation is requested, and the call raises "tets must
    have shape (T,4)" instead of returning a result with the two fields
    absent. *)
Lemma adjacency_without_tetrahedra_counterexample :
  ¬ (is_Some (neighborlist no_tet_out) ∧ 0 < numberoftetrahedra no_tet_out)
  ∧ marshal true (PyStr "pqn") no_tet_out = Throw "tets must have shape (T,4)"
  ∧ ¬ (∃ res, marshal true (PyStr "pqn") no_tet_out = Ok res
              ∧ boundary_tri_faces res = None
              ∧ boundary_tri_markers res = None).
Proof.
  split_and!.
  - intros [_ HK]. cbn in HK. lia.
  - reflexivity.
  - intros (res & Hres & _). discriminate Hres.
Qed.

(** Derived faces without Output Faces: the markers alone are absent. *)
Example derived_faces_without_markers :
  ∃ res, marshal true (PyStr "pqn") one_tet_no_faces = Ok res
         ∧ boundary_tri_faces res
           = Some (NdArray [4; 3] [1; 2; 3;  0; 3; 2;  0; 1; 3;  0; 2; 1])
         ∧ boundary_tri_markers res = None.
Proof. eexists. vm_compute. done. Qed.

(** Derived faces, none of them on the boundary: an empty array, present. *)
Example no_boundary_face_is_not_absent :
  ∃ res,
    marshal true (PyStr "pqn")
      (Tetgenio 0 None None 0 (Some [0; 1; 2; 3]) None None (Some [0; 0; 0; 0])
         1 4 0 None None 0 None None 0 None None 0) = Ok res
    ∧ boundary_tri_faces res = Some (NdArray [0; 3] [])
    ∧ boundary_tri_markers res = None.
Proof. eexists. vm_compute. done. Qed.

(** Derivation not requested: both fields are absent. *)
Example derivation_not_requested :
  ∃ res, marshal false (PyStr "pqnf") one_tet_out = Ok res
         ∧ boundary_tri_faces res = None ∧ boundary_tri_markers res = None.
Proof. eexists. vm_compute. done. Qed.

(** ** Higher-order tetrahedra *)

Lemma to_array_shape {A} (d : A) src n m :
  shape (to_array d src n m) = [0] ∨ shape (to_array d src n m) = [n; m].
Proof.
  unfold to_array. destruct src; [|by left]. case_bool_decide; auto.
Qed.

Lemma compute_boundary_face_tris_corners src K corners nbrs :
  corners ≠ 4 →
  compute_boundary_face_tris (to_array_i32 src K corners) nbrs
  = Throw "tets must have shape (T,4)".
Proof.
  intros Hc. unfold compute_boundary_face_tris, to_array_i32.
  rewrite bool_decide_true; [done|]. unfold ndim, dim.
  destruct (to_array_shape 0 src K corners) as [-> | ->]; cbn; [left|right]; lia.
Qed.

(** What a run does once its inputs passed validation and its switches are
    of an accepted kind. *)
Lemma exec_core gen vertices mesh_facets obj bfs o cbf ptr bytes :
  validate vertices mesh_facets obj bfs = Ok ptr →
  payload_bytes o = Some bytes →
  exec gen (tetrahedralize_core vertices mesh_facets obj bfs o cbf)
  = after_generator cbf o
      (gen (bytes ++ (if cbf then missing_flags bytes else []) ++ [NUL])
           (build_plc vertices mesh_facets ptr bfs)).
Proof.
  intros Hv Hp. unfold tetrahedralize_core. rewrite Hv. cbn [lift].
  by rewrite switch_buffer_payload, Hp.
Qed.

(** Claim C10.  When the generator reports a corner count other than 4
    while the adjacency output is present and boundary-face derivation is
    enabled, the call raises "tets must have shape (T,4)" after generation
    and returns no output aggregate. *)
Theorem higher_order_tets_raise (tetgen_switches : py_object) (out : tetgenio) :
  numberofcorners out ≠ 4 → is_Some (neighborlist out) →
  marshal true tetgen_switches out = Throw "tets must have shape (T,4)"
  ∧ ∀ gen vertices mesh_facets mesh_facet_markers_obj boundary_facets ptr bytes,
      validate vertices mesh_facets mesh_facet_markers_obj boundary_facets
        = Ok ptr →
      payload_bytes tetgen_switches = Some bytes →
      gen (bytes ++ missing_flags bytes ++ [NUL])
          (build_plc vertices mesh_facets ptr boundary_facets) = Produced out →
      exec gen
        (tetrahedralize_core vertices mesh_facets mesh_facet_markers_obj
           boundary_facets tetgen_switches true)
      = Throw "tets must have shape (T,4)".
Proof.
  intros Hc [nl Hnl].
  assert (marshal true tetgen_switches out = Throw "tets must have shape (T,4)")
    as Hm.
  { apply marshal_Throw, derive_boundary_Throw. split; [done|].
    unfold marshal_neighbors. rewrite Hnl. eexists. split; [done|].
    by apply compute_boundary_face_tris_corners. }
  split; [done|].
  intros gen vertices mesh_facets obj bfs ptr bytes Hv Hp Hgen.
  rewrite (exec_core _ _ _ _ _ _ _ ptr bytes) by done.
  by rewrite Hgen.
Qed.

Lemma higher_order_tets_raise_witness :
  marshal true (PyStr "pqo2") quadratic_out = Throw "tets must have shape (T,4)"
  ∧ ∀ gen vertices mesh_facets mesh_facet_markers_obj boundary_facets ptr bytes,
      validate vertices mesh_facets mesh_facet_markers_obj boundary_facets
        = Ok ptr →
      payload_bytes (PyStr "pqo2") = Some bytes →
      gen (bytes ++ missing_flags bytes ++ [NUL])
          (build_plc vertices mesh_facets ptr boundary_facets)
        = Produced quadratic_out →
      exec gen
        (tetrahedralize_core vertices mesh_facets mesh_facet_markers_obj
           boundary_facets (PyStr "pqo2") true)
      = Throw "tets must have shape (T,4)".
Proof.
  apply (higher_order_tets_raise (PyStr "pqo2") quadratic_out).
  - vm_compute. discriminate.
  - by eexists.
Defined.

(** ** The optional outputs *)

Lemma to_array_nonpositive {A} (d : A) src n m :
  n ≤ 0 ∨ m ≤ 0 → to_array d src n m = empty_array.
Proof.
  intros Hn. unfold to_array. destruct src; [|done].
  by rewrite bool_decide_true.
Qed.

Lemma to_vector_nonpositive {A} (d : A) src n :
  n ≤ 0 → to_vector d src n = empty_array.
Proof.
  intros Hn. unfold to_vector. destruct src; [|done].
  by rewrite bool_decide_true.
Qed.

(** Settles a presence test once the buffers are known to be null or not. *)
Ltac presence_cases :=
  repeat case_bool_decide;
  first
    [ rewrite decide_True by (split_and?; done || by eexists)
    | rewrite decide_False
        by (by intros ?; destruct_and?;
              first [lia | by destruct select (is_Some None)]) ];
  done.

(** Claim C8, amended.  The marshaller never raises for a missing optional
    quantity: a call that raises after generation does so in the boundary
    face extraction, with derivation requested and a non-null adjacency
    buffer.  The explicit faces and the edges are present exactly when
    their buffer is non-null and their count is positive, and their markers
    when moreover the marker buffer is non-null; the per-tetrahedron
    attributes are present exactly when their buffer is non-null and the
    number of attributes is positive; the adjacency, the per-point markers
    and the per-tetrahedron volumes are present exactly when their buffer
    is non-null, whatever the count.  A present quantity is the conversion
    of its buffer, and a conversion with a non-positive count is an empty
    array, not the absent value. *)
Theorem optional_outputs_presence (compute_boundary_faces : bool)
    (tetgen_switches : py_object) (out : tetgenio) :
  (∀ w, marshal compute_boundary_faces tetgen_switches out = Throw w →
     compute_boundary_faces = true ∧ is_Some (neighborlist out)
     ∧ ∃ nbrs,
         compute_boundary_face_tris
           (to_array_i32 (tetrahedronlist out) (numberoftetrahedra out)
              (numberofcorners out)) nbrs = Throw w)
  ∧ (neighborlist out = None →
       ∃ res, marshal compute_boundary_faces tetgen_switches out = Ok res)
  ∧ (∀ res, marshal compute_boundary_faces tetgen_switches out = Ok res →
       tri_faces res
         = (if decide (is_Some (trifacelist out) ∧ 0 < numberoftrifaces out)
            then Some (to_array_i32 (trifacelist out) (numberoftrifaces out) 3)
            else None)
       ∧ tri_markers res
         = (if decide (is_Some (trifacelist out) ∧ 0 < numberoftrifaces out
                       ∧ is_Some (trifacemarkerlist out))
            then Some (to_vector_i32 (trifacemarkerlist out) (numberoftrifaces out))
            else None)
       ∧ edges res
         = (if decide (is_Some (edgelist out) ∧ 0 < numberofedges out)
            then Some (to_array_i32 (edgelist out) (numberofedges out) 2)
            else None)
       ∧ edge_markers res
         = (if decide (is_Some (edgelist out) ∧ 0 < numberofedges out
                       ∧ is_Some (edgemarkerlist out))
            then Some (to_vector_i32 (edgemarkerlist out) (numberofedges out))
            else None)
       ∧ tet_attr res
         = (if decide (is_Some (tetrahedronattributelist out)
                       ∧ 0 < numberoftetrahedronattributes out)
            then Some (to_array_f64 (tetrahedronattributelist out)
                         (numberoftetrahedra out)
                         (numberoftetrahedronattributes out))
            else None)
       ∧ neighbors res
         = (if decide (is_Some (neighborlist out))
            then Some (to_array_i32 (neighborlist out) (numberoftetrahedra out) 4)
            else None)
       ∧ point_markers res
         = (if decide (is_Some (pointmarkerlist out))
            then Some (to_vector_i32 (pointmarkerlist out) (numberofpoints out))
            else None)
       ∧ tet_vol res
         = (if decide (is_Some (tetrahedronvolumelist out))
            then Some (to_vector_f64 (tetrahedronvolumelist out)
                         (numberoftetrahedra out))
            else None))
  ∧ (∀ (src : option (list Z)) n m,
       n ≤ 0 → to_array_i32 src n m = empty_array
               ∧ to_vector_i32 src n = empty_array)
  ∧ (∀ (src : option (list REAL)) n m,
       n ≤ 0 → to_array_f64 src n m = empty_array
               ∧ to_vector_f64 src n = empty_array).
Proof.
  split_and!.
  - intros w Hw. apply marshal_Throw, derive_boundary_Throw in Hw
      as (-> & nbrs & Hn & Hc).
    split; [done|]. split; [|by exists nbrs].
    unfold marshal_neighbors in Hn. by destruct (neighborlist out).
  - intros Hn.
    destruct (absence_free_of_error compute_boundary_faces tetgen_switches out)
      as [res Hres]; [by left|]. by exists res.
  - intros res Hres. apply marshal_Ok in Hres as (bf & bm & _ & ->). cbn.
    unfold marshal_tri_faces, marshal_tri_markers, marshal_edges,
      marshal_edge_markers, marshal_tet_attr, marshal_neighbors,
      marshal_point_markers, marshal_tet_vol.
    split_and!.
    + destruct (trifacelist out); presence_cases.
    + destruct (trifacelist out), (trifacemarkerlist out); presence_cases.
    + destruct (edgelist out); presence_cases.
    + destruct (edgelist out), (edgemarkerlist out); presence_cases.
    + destruct (tetrahedronattributelist out); presence_cases.
    + destruct (neighborlist out); presence_cases.
    + destruct (pointmarkerlist out); presence_cases.
    + destruct (tetrahedronvolumelist out); presence_cases.
  - intros src n m Hn. split.
    + apply to_array_nonpositive. by left.
    + by apply to_vector_nonpositive.
  - intros src n m Hn. split.
    + apply to_array_nonpositive. by left.
    + by apply to_vector_nonpositive.
Qed.

(** Claim C8 as stated fails on an output whose adjacency and point marker
    buffers are non-null while it has no tetrahedron and no point: the
    counts are not positive, yet the two fields are empty arrays, not the
    absent value. *)
Lemma empty_not_absent_counterexample :
  ∃ res,
    marshal false (PyStr "pq") no_tet_out = Ok res
    ∧ is_Some (neighborlist no_tet_out)
    ∧ ¬ (0 < numberoftetrahedra no_tet_out)
    ∧ neighbors res = Some empty_array
    ∧ neighbors res ≠ None
    ∧ is_Some (pointmarkerlist no_tet_out)
    ∧ ¬ (0 < numberofpoints no_tet_out)
    ∧ point_markers res = Some empty_array
    ∧ point_markers res ≠ None.
Proof.
  eexists. split; [vm_compute; reflexivity|]. cbn.
  split_and!; try done; try (by eexists); lia.
Qed.

(** ** The legacy entry point *)


Lemma validate_no_markers vertices mesh_facets bfs ptr :
  validate vertices mesh_facets None bfs = Ok ptr → ptr = None.
Proof.
  rewrite validate_Ok. intros (_ & _ & _ & Hm & _). cbn in Hm. by simplify_eq.
Qed.






(** A legacy call on a tetrahedron: the generator is handed "pq" with "nf"
    appended and markers -1, -1 for the mesh facets and -2 for the loop. *)
Example legacy_call :
  ∃ k,
    build_volume_mesh (NdArray [4; 3] (replicate 12 0%float))
      (NdArray [2; 3] [0; 1; 2; 1; 2; 3]) [[0; 1; 3]] (PyStr "pq")
    = Tetrahedralize (list_ascii_of_string "pqnf" ++ [NUL])
        (build_plc (NdArray [4; 3] (replicate 12 0%float))
           (NdArray [2; 3] [0; 1; 2; 1; 2; 3]) None [[0; 1; 3]]) k
    ∧ facetmarkerlist
        (build_plc (NdArray [4; 3] (replicate 12 0%float))
           (NdArray [2; 3] [0; 1; 2; 1; 2; 3]) None [[0; 1; 3]])
      = Some [-1; -1; -2]
    ∧ k (Produced one_tet_out)
      = Ok (NdArray [4; 3] (replicate 12 0%float), NdArray [1; 4] [0; 1; 2; 3])
    ∧ k (Produced quadratic_out) = Throw "tets must have shape (T,4)".
Proof. eexists. split; [reflexivity|]. by vm_compute. Qed.

(** * Further properties of the code *)

(** ** Helper conversions *)

Lemma length_bind_rows {A B} (g : A → list B) (m : nat) (l : list A) :
  (∀ x, length (g x) = m) → length (l ≫= g) = (length l * m)%nat.
Proof.
  intros Hg. induction l as [|x l IH]; [done|].
  rewrite bind_cons, length_app, IH, Hg. cbn [length]. lia.
Qed.

(** Cell [j] of row [i] of a buffer filled row after row. *)
Lemma lookup_bind_rows {A} (g : Z → list A) (m : nat) n i (j : nat) :
  (∀ x, length (g x) = m) → 0 ≤ i < n → (j < m)%nat →
  (seqZ 0 n ≫= g) !! (Z.to_nat i * m + j)%nat = g i !! j.
Proof.
  intros Hg Hi Hj.
  replace n with (i + (1 + (n - i - 1))) by lia.
  rewrite seqZ_app, bind_app by lia. rewrite (seqZ_app _ 1) by lia.
  rewrite bind_app.
  replace (seqZ (0 + i) 1) with [i] by (unfold seqZ; cbn; f_equal; lia).
  rewrite lookup_app_r by (rewrite (length_bind_rows g m), length_seqZ by done; lia).
  rewrite (length_bind_rows g m), length_seqZ by done.
  replace (Z.to_nat i * m + j - Z.to_nat i * m)%nat with j by lia.
  assert ([i] ≫= g = g i) as -> by (cbn; apply app_nil_r).
  rewrite lookup_app_l; [done|]. by rewrite Hg.
Qed.

Lemma to_array_present {A} (d : A) buf n m :
  0 < n → 0 < m →
  to_array d (Some buf) n m
  = NdArray [n; m]
      (i ← seqZ 0 n; (λ j, rd d buf (int_add (int_mul i m) j)) <$> seqZ 0 m).
Proof.
  intros Hn Hm. unfold to_array. by rewrite bool_decide_false by lia.
Qed.

(** Cell (i, j) of the array is the buffer's cell at the index the source
    computes in [int]. *)
Lemma to_array_at_int {A} (d : A) buf n m i j :
  0 < n → 0 < m → 0 ≤ i < n → 0 ≤ j < m →
  at2 d (to_array d (Some buf) n m) i j
  = rd d buf (int_add (int_mul i m) j).
Proof.
  intros Hn Hm Hi Hj. rewrite to_array_present by done.
  unfold at2, dim. cbn [shape data lookup list_lookup default from_option].
  unfold id, rd at 1. f_equal.
  replace (Z.to_nat (i * m + j))
    with (Z.to_nat i * Z.to_nat m + Z.to_nat j)%nat by lia.
  rewrite (lookup_bind_rows _ (Z.to_nat m))
    by (lia || (intros; by rewrite length_fmap, length_seqZ)).
  rewrite list_lookup_fmap, lookup_seqZ_lt by lia. cbn. do 3 f_equal. lia.
Qed.

(** When the n * m cells can be counted in an [int], that index is
    i * m + j. *)
Lemma to_array_at {A} (d : A) buf n m i j :
  0 < n → 0 < m → n * m ≤ INT_MAX → 0 ≤ i < n → 0 ≤ j < m →
  at2 d (to_array d (Some buf) n m) i j = rd d buf (i * m + j).
Proof.
  intros Hn Hm Hmax Hi Hj. rewrite to_array_at_int by done.
  f_equal. apply int_index; nia.
Qed.

Lemma to_array_length {A} (d : A) buf n m :
  0 < n → 0 < m →
  length (data (to_array d (Some buf) n m)) = (Z.to_nat n * Z.to_nat m)%nat.
Proof.
  intros Hn Hm. rewrite to_array_present by done. cbn [data].
  rewrite (length_bind_rows _ (Z.to_nat m)), length_seqZ; [done|].
  intros. by rewrite length_fmap, length_seqZ.
Qed.

Lemma to_array_two_dimensional {A} (d : A) src n m :
  ndim (to_array d src n m) = 2 ↔ is_Some src ∧ 0 < n ∧ 0 < m.
Proof.
  unfold to_array. destruct src as [buf|].
  - case_bool_decide as Hc; cbn.
    + split; [done|]. intros (_ & ? & ?). lia.
    + split; [|done]. intros _. split; [by eexists|lia].
  - cbn. split; [done|]. by intros ([? [=]] & _).
Qed.

(** X1.  The two-dimensional conversions: for a non-null buffer and positive
    counts the array has shape (n, m) and holds n * m elements, and when
    n * m does not exceed INT_MAX (so that the index i * m + j, which the
    source computes in [int], does not wrap) its cell (i, j) is the
    buffer's cell i * m + j; the array has two dimensions in no other case:
    for a null buffer or a non-positive count it is the default-constructed
    array, of one dimension and no element. *)
Theorem to_array_row_major (ibuf : list Z) (fbuf : list REAL) (n m : Z) :
  0 < n → 0 < m →
  (shape (to_array_i32 (Some ibuf) n m) = [n; m]
   ∧ length (data (to_array_i32 (Some ibuf) n m)) = (Z.to_nat n * Z.to_nat m)%nat
   ∧ (n * m ≤ INT_MAX → ∀ i j, 0 ≤ i < n → 0 ≤ j < m →
        at2 0 (to_array_i32 (Some ibuf) n m) i j = rd 0 ibuf (i * m + j)))
  ∧ (shape (to_array_f64 (Some fbuf) n m) = [n; m]
     ∧ length (data (to_array_f64 (Some fbuf) n m))
       = (Z.to_nat n * Z.to_nat m)%nat
     ∧ (n * m ≤ INT_MAX → ∀ i j, 0 ≤ i < n → 0 ≤ j < m →
          at2 0%float (to_array_f64 (Some fbuf) n m) i j
          = rd 0%float fbuf (i * m + j)))
  ∧ (∀ src n' m', ndim (to_array_i32 src n' m') = 2 ↔
                  is_Some src ∧ 0 < n' ∧ 0 < m')
  ∧ (∀ src n' m', ndim (to_array_i32 src n' m') ≠ 2 →
                  to_array_i32 src n' m' = empty_array)
  ∧ (∀ src n' m', ndim (to_array_f64 src n' m') = 2 ↔
                  is_Some src ∧ 0 < n' ∧ 0 < m')
  ∧ (∀ src n' m', ndim (to_array_f64 src n' m') ≠ 2 →
                  to_array_f64 src n' m' = empty_array).
Proof.
  intros Hn Hm. unfold to_array_i32, to_array_f64. split_and!.
  - by rewrite to_array_present.
  - by apply to_array_length.
  - intros Hmax i j Hi Hj. by apply to_array_at.
  - by rewrite to_array_present.
  - by apply to_array_length.
  - intros Hmax i j Hi Hj. by apply to_array_at.
  - intros. apply to_array_two_dimensional.
  - intros src n' m' Hd. unfold to_array in *. destruct src; [|done].
    by case_bool_decide.
  - intros. apply to_array_two_dimensional.
  - intros src n' m' Hd. unfold to_array in *. destruct src; [|done].
    by case_bool_decide.
Qed.

Lemma to_array_row_major_witness :
  (shape (to_array_i32 (Some [1; 2; 3; 4; 5; 6]) 2 3) = [2; 3]
   ∧ length (data (to_array_i32 (Some [1; 2; 3; 4; 5; 6]) 2 3))
     = (Z.to_nat 2 * Z.to_nat 3)%nat
   ∧ (2 * 3 ≤ INT_MAX → ∀ i j, 0 ≤ i < 2 → 0 ≤ j < 3 →
        at2 0 (to_array_i32 (Some [1; 2; 3; 4; 5; 6]) 2 3) i j
        = rd 0 [1; 2; 3; 4; 5; 6] (i * 3 + j)))
  ∧ (shape (to_array_f64 (Some (replicate 6 1%float)) 2 3) = [2; 3]
     ∧ length (data (to_array_f64 (Some (replicate 6 1%float)) 2 3))
       = (Z.to_nat 2 * Z.to_nat 3)%nat
     ∧ (2 * 3 ≤ INT_MAX → ∀ i j, 0 ≤ i < 2 → 0 ≤ j < 3 →
          at2 0%float (to_array_f64 (Some (replicate 6 1%float)) 2 3) i j
          = rd 0%float (replicate 6 1%float) (i * 3 + j)))
  ∧ (∀ src n' m', ndim (to_array_i32 src n' m') = 2 ↔
                  is_Some src ∧ 0 < n' ∧ 0 < m')
  ∧ (∀ src n' m', ndim (to_array_i32 src n' m') ≠ 2 →
                  to_array_i32 src n' m' = empty_array)
  ∧ (∀ src n' m', ndim (to_array_f64 src n' m') = 2 ↔
                  is_Some src ∧ 0 < n' ∧ 0 < m')
  ∧ (∀ src n' m', ndim (to_array_f64 src n' m') ≠ 2 →
                  to_array_f64 src n' m' = empty_array).
Proof.
  apply (to_array_row_major [1; 2; 3; 4; 5; 6] (replicate 6 1%float) 2 3); lia.
Defined.

Lemma to_vector_present {A} (d : A) buf n :
  0 < n → to_vector d (Some buf) n = NdArray [n] (rd d buf <$> seqZ 0 n).
Proof. intros Hn. unfold to_vector. by rewrite bool_decide_false by lia. Qed.

Lemma to_vector_at {A} (d : A) buf n i :
  0 < n → 0 ≤ i < n → at1 d (to_vector d (Some buf) n) i = rd d buf i.
Proof.
  intros Hn Hi. rewrite to_vector_present by done. unfold at1. cbn [data].
  by rewrite (rd_fmap_seqZ d (rd d buf)).
Qed.

(** X2.  The one-dimensional conversions: for a non-null buffer and a
    positive count the vector has shape (n), holds n elements, and its cell
    i is the buffer's cell i; for a null buffer or a non-positive count it
    is the default-constructed array. *)
Theorem to_vector_cells (ibuf : list Z) (fbuf : list REAL) (n : Z) :
  0 < n →
  (shape (to_vector_i32 (Some ibuf) n) = [n]
   ∧ length (data (to_vector_i32 (Some ibuf) n)) = Z.to_nat n
   ∧ ∀ i, 0 ≤ i < n → at1 0 (to_vector_i32 (Some ibuf) n) i = rd 0 ibuf i)
  ∧ (shape (to_vector_f64 (Some fbuf) n) = [n]
     ∧ length (data (to_vector_f64 (Some fbuf) n)) = Z.to_nat n
     ∧ ∀ i, 0 ≤ i < n →
         at1 0%float (to_vector_f64 (Some fbuf) n) i = rd 0%float fbuf i)
  ∧ (∀ src n', src = None ∨ n' ≤ 0 → to_vector_i32 src n' = empty_array)
  ∧ (∀ src n', src = None ∨ n' ≤ 0 → to_vector_f64 src n' = empty_array).
Proof.
  intros Hn. unfold to_vector_i32, to_vector_f64. split_and!.
  - by rewrite to_vector_present.
  - rewrite to_vector_present by done. cbn. by rewrite length_fmap, length_seqZ.
  - intros i Hi. by apply to_vector_at.
  - by rewrite to_vector_present.
  - rewrite to_vector_present by done. cbn. by rewrite length_fmap, length_seqZ.
  - intros i Hi. by apply to_vector_at.
  - intros src n' [-> | Hn']; [done|]. by apply to_vector_nonpositive.
  - intros src n' [-> | Hn']; [done|]. by apply to_vector_nonpositive.
Qed.

Lemma to_vector_cells_witness :
  (shape (to_vector_i32 (Some [7; 8; 9]) 3) = [3]
   ∧ length (data (to_vector_i32 (Some [7; 8; 9]) 3)) = Z.to_nat 3
   ∧ ∀ i, 0 ≤ i < 3 →
       at1 0 (to_vector_i32 (Some [7; 8; 9]) 3) i = rd 0 [7; 8; 9] i)
  ∧ (shape (to_vector_f64 (Some (replicate 3 1%float)) 3) = [3]
     ∧ length (data (to_vector_f64 (Some (replicate 3 1%float)) 3)) = Z.to_nat 3
     ∧ ∀ i, 0 ≤ i < 3 →
         at1 0%float (to_vector_f64 (Some (replicate 3 1%float)) 3) i
         = rd 0%float (replicate 3 1%float) i)
  ∧ (∀ src n', src = None ∨ n' ≤ 0 → to_vector_i32 src n' = empty_array)
  ∧ (∀ src n', src = None ∨ n' ≤ 0 → to_vector_f64 src n' = empty_array).
Proof. apply (to_vector_cells [7; 8; 9] (replicate 3 1%float) 3). lia. Defined.

(** ** The boundary face extractor *)

Lemma shape_rows_by {A} (a : ndarray A) (w : Z) :
  ndim a = 2 ∧ dim a 1 = w ↔ ∃ T, shape a = [T; w].
Proof.
  unfold ndim, dim. destruct (shape a) as [|T [|w' [|x sh]]]; cbn.
  - split; [lia|]. by intros [? ?].
  - split; [lia|]. by intros [? ?].
  - split.
    + intros [_ <-]. by exists T.
    + by intros [T' [= -> ->]].
  - split; [lia|]. by intros [? ?].
Qed.

Lemma compute_boundary_face_tris_cases tets nbrs :
  compute_boundary_face_tris tets nbrs
  = if decide (ndim tets = 2 ∧ dim tets 1 = 4) then
      if decide (ndim nbrs = 2 ∧ dim nbrs 1 = 4) then
        if decide (dim tets 0 = dim nbrs 0) then
          Ok (NdArray [count_boundary_faces nbrs (dim tets 0); 3]
                (snd (fill_boundary_faces tets nbrs (dim tets 0)
                        (replicate
                           (Z.to_nat (count_boundary_faces nbrs (dim tets 0) * 3))
                           0))))
        else Throw "tets and neighbors must have same length"
      else Throw "neighbors must have shape (T,4)"
    else Throw "tets must have shape (T,4)".
Proof.
  unfold compute_boundary_face_tris.
  destruct (decide (ndim tets = 2 ∧ dim tets 1 = 4)) as [Ht|Ht].
  - rewrite (bool_decide_false (_ ∨ _)) by tauto.
    destruct (decide (ndim nbrs = 2 ∧ dim nbrs 1 = 4)) as [Hn|Hn].
    + rewrite (bool_decide_false (_ ∨ _)) by tauto.
      destruct (decide (dim tets 0 = dim nbrs 0)) as [He|He].
      * by rewrite (bool_decide_false (_ ≠ _)) by tauto.
      * by rewrite (bool_decide_true (_ ≠ _)).
    + rewrite (bool_decide_true (_ ∨ _)); [done|].
      destruct (decide (ndim nbrs = 2)), (decide (dim nbrs 1 = 4)); tauto.
  - rewrite (bool_decide_true (_ ∨ _)); [done|].
    destruct (decide (ndim tets = 2)), (decide (dim tets 1 = 4)); tauto.
Qed.

(** X3.  The extractor returns exactly when both arrays have two dimensions
    and four columns and as many rows as each other; otherwise it raises
    one of three errors, the first that applies in the order: tets not
    (T,4), neighbors not (T,4), different numbers of rows. *)
Theorem extractor_shape_checks (tets nbrs : ndarray Z) :
  ((∃ faces, compute_boundary_face_tris tets nbrs = Ok faces) ↔
     ∃ T, shape tets = [T; 4] ∧ shape nbrs = [T; 4])
  ∧ (∀ w, compute_boundary_face_tris tets nbrs = Throw w → w ∈ extractor_errors)
  ∧ (compute_boundary_face_tris tets nbrs = Throw "tets must have shape (T,4)" ↔
       ¬ ∃ T, shape tets = [T; 4])
  ∧ (compute_boundary_face_tris tets nbrs
       = Throw "neighbors must have shape (T,4)" ↔
       (∃ T, shape tets = [T; 4]) ∧ ¬ ∃ T, shape nbrs = [T; 4])
  ∧ (compute_boundary_face_tris tets nbrs
       = Throw "tets and neighbors must have same length" ↔
       ∃ T T', shape tets = [T; 4] ∧ shape nbrs = [T'; 4] ∧ T ≠ T').
Proof.
  rewrite compute_boundary_face_tris_cases. unfold extractor_errors.
  destruct (decide (ndim tets = 2 ∧ dim tets 1 = 4)) as [Ht|Ht];
    rewrite shape_rows_by in Ht; [destruct Ht as [T Ht]|].
  - destruct (decide (ndim nbrs = 2 ∧ dim nbrs 1 = 4)) as [Hn|Hn];
      rewrite shape_rows_by in Hn; [destruct Hn as [T' Hn]|].
    + unfold dim. rewrite Ht, Hn. cbn [lookup list_lookup default from_option].
      unfold id. destruct (decide (T = T')) as [<-|Hne].
      * split_and!.
        -- split; [by exists T|by eexists].
        -- done.
        -- split; [done|]. intros H. destruct H. by exists T.
        -- split; [done|]. intros [_ H]. destruct H. by exists T.
        -- split; [done|]. intros (T1 & T2 & ? & ? & ?). congruence.
      * split_and!.
        -- split; [by intros [? ?]|]. intros (T1 & ? & ?). congruence.
        -- intros w [= <-]. set_solver.
        -- split; [done|]. intros H. destruct H. by exists T.
        -- split; [done|]. intros [_ H]. destruct H. by exists T'.
        -- split; [|done]. intros _. by exists T, T'.
    + split_and!.
      * split; [by intros [? ?]|]. intros (T1 & _ & ?). destruct Hn. by exists T1.
      * intros w [= <-]. set_solver.
      * split; [done|]. intros H. destruct H. by exists T.
      * split; [|done]. intros _. split; [by exists T|done].
      * split; [done|]. intros (T1 & T2 & _ & ? & _). destruct Hn. by exists T2.
  - split_and!.
    + split; [by intros [? ?]|]. intros (T1 & ? & _). destruct Ht. by exists T1.
    + intros w [= <-]. set_solver.
    + done.
    + split; [done|]. by intros [? _].
    + split; [done|]. intros (T1 & T2 & ? & _). destruct Ht. by exists T1.
Qed.

(** X4.  The second pass writes every cell of the output array and no cell
    outside it: started on an array of the size the first pass counted,
    whatever that array holds, it ends with its cursor at the count and
    with the array holding the triangles of the boundary pairs, in order. *)
Theorem fill_overwrites_every_cell (tets nbrs : ndarray Z) (T : Z)
    (F : list Z) :
  length F = Z.to_nat (count_boundary_faces nbrs T * 3) →
  fill_boundary_faces tets nbrs T F
  = (count_boundary_faces nbrs T,
     boundary_pairs nbrs T ≫= λ p, triangle_cells (pair_triangle tets p))
  ∧ length (snd (fill_boundary_faces tets nbrs T F)) = length F.
Proof.
  intros HF. rewrite count_boundary_faces_spec in HF |- *.
  assert (fill_boundary_faces tets nbrs T F
          = (Z.of_nat (length (boundary_pairs nbrs T)),
             boundary_pairs nbrs T ≫= λ p, triangle_cells (pair_triangle tets p)))
    as Hfill.
  { unfold fill_boundary_faces. rewrite foldl_nested. fold (all_pairs T).
    pose proof (fill_pairs tets nbrs (all_pairs T) 0 [] F) as H.
    cbn [app] in H. rewrite H.
    - fold (boundary_pairs nbrs T). f_equal.
      rewrite drop_ge by lia. by rewrite app_nil_r.
    - intros p Hp. by apply elem_of_all_pairs in Hp as [_ ?].
    - done.
    - fold (boundary_pairs nbrs T). lia. }
  split; [done|]. rewrite Hfill. cbn [snd].
  rewrite (length_bind_rows _ 3) by (intros; reflexivity). lia.
Qed.

Lemma fill_overwrites_every_cell_witness :
  fill_boundary_faces (NdArray [1; 4] [5; 6; 7; 8]) (NdArray [1; 4] [-1; 0; 0; -1])
    1 [91; 92; 93; 94; 95; 96]
  = (count_boundary_faces (NdArray [1; 4] [-1; 0; 0; -1]) 1,
     boundary_pairs (NdArray [1; 4] [-1; 0; 0; -1]) 1
       ≫= λ p, triangle_cells (pair_triangle (NdArray [1; 4] [5; 6; 7; 8]) p))
  ∧ length (snd (fill_boundary_faces (NdArray [1; 4] [5; 6; 7; 8])
                   (NdArray [1; 4] [-1; 0; 0; -1]) 1 [91; 92; 93; 94; 95; 96]))
    = length [91; 92; 93; 94; 95; 96].
Proof.
  apply (fill_overwrites_every_cell (NdArray [1; 4] [5; 6; 7; 8])
           (NdArray [1; 4] [-1; 0; 0; -1]) 1 [91; 92; 93; 94; 95; 96]).
  reflexivity.
Defined.

(** X5.  The local face patterns: the row of local face lf lists the three
    corners other than corner lf, and corner lf followed by the row is an
    even permutation of (0,1,2,3), so the four faces of a tetrahedron are
    oriented alike. *)
Theorem face_patterns_opposite_and_oriented (lf : Z) :
  0 ≤ lf < 4 →
  (lf :: [pat lf 0; pat lf 1; pat lf 2]) ≡ₚ [0; 1; 2; 3]
  ∧ (lf ∉ [pat lf 0; pat lf 1; pat lf 2])
  ∧ Nat.Even (inversions (lf :: [pat lf 0; pat lf 1; pat lf 2])).
Proof.
  intros Hlf.
  assert (lf = 0 ∨ lf = 1 ∨ lf = 2 ∨ lf = 3) as [-> | [-> | [-> | ->]]] by lia;
    (split_and!;
     [ vm_compute pat; solve_Permutation
     | vm_compute pat; set_solver
     | vm_compute; first [by exists 0%nat | by exists 1%nat | by exists 2%nat] ]).
Qed.

Lemma face_patterns_opposite_and_oriented_witness :
  (2 :: [pat 2 0; pat 2 1; pat 2 2]) ≡ₚ [0; 1; 2; 3]
  ∧ (2 ∉ [pat 2 0; pat 2 1; pat 2 2])
  ∧ Nat.Even (inversions (2 :: [pat 2 0; pat 2 1; pat 2 2])).
Proof. apply (face_patterns_opposite_and_oriented 2). lia. Defined.

Lemma pair_triangle_corners tets p v :
  0 ≤ p.2 < 4 → v ∈ triangle_cells (pair_triangle tets p) →
  ∃ k, 0 ≤ k < 4 ∧ k ≠ p.2 ∧ v = at2 0 tets p.1 k.
Proof.
  intros Hlf. unfold pair_triangle, local_face_pattern, triangle_cells.
  assert (p.2 = 0 ∨ p.2 = 1 ∨ p.2 = 2 ∨ p.2 = 3) as [-> | [-> | [-> | ->]]]
    by lia; cbn [fst snd bool_decide decide_rel];
    repeat (rewrite bool_decide_false by lia);
    rewrite ?bool_decide_true by lia; cbn [fst snd];
    rewrite !elem_of_cons, elem_of_nil; intros [-> | [-> | [-> | []]]];
    eexists; (split; [|split; [|reflexivity]]); lia.
Qed.

Lemma pair_triangle_other_corners tets p :
  0 ≤ p.2 < 4 →
  triangle_cells (pair_triangle tets p)
  ≡ₚ (at2 0 tets p.1 <$> filter (λ k, k ≠ p.2) [0; 1; 2; 3]).
Proof.
  intros Hlf. destruct p as [i lf]. cbn [fst snd] in *.
  unfold pair_triangle, local_face_pattern, triangle_cells. cbn [fst snd].
  assert (lf = 0 ∨ lf = 1 ∨ lf = 2 ∨ lf = 3) as [-> | [-> | [-> | ->]]] by lia;
    vm_compute filter; cbn [fmap list_fmap];
    repeat (rewrite bool_decide_false by lia);
    rewrite ?bool_decide_true by lia; cbn [fst snd]; solve_Permutation.
Qed.

(** X6.  The extractor invents no vertex: every index of a boundary face is
    a corner of a tetrahedron of the input, so boundary faces of tetrahedra
    whose corners are all in [0, N) have all their indices in [0, N); and
    each boundary face is made of the three corners, other than the corner
    of its local face, of one tetrahedron with no neighbor across that
    face. *)
Theorem boundary_faces_use_tet_corners (tets nbrs : ndarray Z) (T : Z)
    (faces : ndarray Z) :
  shape tets = [T; 4] → shape nbrs = [T; 4] →
  compute_boundary_face_tris tets nbrs = Ok faces →
  (∀ v, v ∈ data faces → ∃ i k, 0 ≤ i < T ∧ 0 ≤ k < 4 ∧ v = at2 0 tets i k)
  ∧ (∀ N, (∀ i k, 0 ≤ i < T → 0 ≤ k < 4 → 0 ≤ at2 0 tets i k < N) →
          ∀ v, v ∈ data faces → 0 ≤ v < N)
  ∧ (∀ b, 0 ≤ b < dim faces 0 →
       ∃ i lf, 0 ≤ i < T ∧ 0 ≤ lf < 4 ∧ at2 0 nbrs i lf < 0
               ∧ triangle_cells (face_row faces b)
                 ≡ₚ (at2 0 tets i <$> filter (λ k, k ≠ lf) [0; 1; 2; 3])).
Proof.
  intros Ht Hn Hc. rewrite (compute_boundary_face_tris_Ok tets nbrs T) in Hc by done.
  injection Hc as <-. cbn [data].
  assert (∀ v, v ∈ (boundary_pairs nbrs T
                     ≫= λ p, triangle_cells (pair_triangle tets p)) →
               ∃ i k, 0 ≤ i < T ∧ 0 ≤ k < 4 ∧ v = at2 0 tets i k) as Hcorner.
  { intros v Hv. apply list_elem_of_bind in Hv as (p & Hv & Hp).
    apply elem_of_boundary_pairs in Hp as (Hi & Hlf & _).
    apply pair_triangle_corners in Hv as (k & Hk & _ & ->); [|done].
    by exists p.1, k. }
  split_and!.
  - done.
  - intros N HN v Hv. apply Hcorner in Hv as (i & k & Hi & Hk & ->).
    by apply HN.
  - unfold dim at 1. cbn [shape lookup list_lookup default from_option].
    unfold id. intros b Hb.
    destruct (lookup_lt_is_Some_2 (boundary_pairs nbrs T) (Z.to_nat b))
      as [p Hp]; [lia|].
    pose proof (face_row_triangles tets _
                  (Z.of_nat (length (boundary_pairs nbrs T))) _ _ Hp) as Hrow.
    rewrite Z2Nat.id in Hrow by lia. rewrite Hrow.
    apply list_elem_of_lookup_2, elem_of_boundary_pairs in Hp as (Hi & Hlf & Hneg).
    exists p.1, p.2. split_and!; [lia..|done|].
    by apply pair_triangle_other_corners.
Qed.

Lemma boundary_faces_use_tet_corners_witness :
  (∀ v, v ∈ data (NdArray [2; 3] [6; 7; 8; 5; 7; 6]) →
     ∃ i k, 0 ≤ i < 1 ∧ 0 ≤ k < 4 ∧ v = at2 0 (NdArray [1; 4] [5; 6; 7; 8]) i k)
  ∧ (∀ N, (∀ i k, 0 ≤ i < 1 → 0 ≤ k < 4 →
             0 ≤ at2 0 (NdArray [1; 4] [5; 6; 7; 8]) i k < N) →
          ∀ v, v ∈ data (NdArray [2; 3] [6; 7; 8; 5; 7; 6]) → 0 ≤ v < N)
  ∧ (∀ b, 0 ≤ b < dim (NdArray [2; 3] [6; 7; 8; 5; 7; 6]) 0 →
       ∃ i lf, 0 ≤ i < 1 ∧ 0 ≤ lf < 4
               ∧ at2 0 (NdArray [1; 4] [-1; 0; 0; -1]) i lf < 0
               ∧ triangle_cells (face_row (NdArray [2; 3] [6; 7; 8; 5; 7; 6]) b)
                 ≡ₚ (at2 0 (NdArray [1; 4] [5; 6; 7; 8]) i
                       <$> filter (λ k, k ≠ lf) [0; 1; 2; 3])).
Proof.
  apply (boundary_faces_use_tet_corners (NdArray [1; 4] [5; 6; 7; 8])
           (NdArray [1; 4] [-1; 0; 0; -1]) 1
           (NdArray [2; 3] [6; 7; 8; 5; 7; 6])); reflexivity.
Defined.

(** ** Validation and the PLC *)

(** X7.  Validation rejects nothing but the violations: an input passes
    exactly when it has none of them and its facet count is not negative
    as an int, and then the marker pointer is the marker array's buffer, or
    null without an array. *)
Theorem validation_accepts_exactly_valid_input (vertices : ndarray REAL)
    (mesh_facets : ndarray Z) (mesh_facet_markers_obj : option (ndarray Z))
    (boundary_facets : list (list Z)) :
  ((∃ ptr, validate vertices mesh_facets mesh_facet_markers_obj boundary_facets
           = Ok ptr) ↔
     ¬ violation vertices mesh_facets mesh_facet_markers_obj boundary_facets
     ∧ 0 ≤ static_cast_int (dim mesh_facets 0))
  ∧ (∀ ptr, validate vertices mesh_facets mesh_facet_markers_obj boundary_facets
            = Ok ptr → ptr = data <$> mesh_facet_markers_obj).
Proof.
  split.
  - split.
    + intros [ptr Hv]. split; [by eapply validate_Ok_no_violation|].
      apply validate_Ok in Hv. tauto.
    + intros [Hnv HM]. exists (data <$> mesh_facet_markers_obj).
      apply validate_Ok. cbn zeta. split_and!.
      * destruct (decide (ndim vertices = 2)); [done|].
        destruct Hnv. apply bad_vertices. by left.
      * destruct (decide (dim vertices 1 = 3)); [done|].
        destruct Hnv. apply bad_vertices. by right.
      * destruct (decide (ndim mesh_facets = 2)); [done|].
        destruct Hnv. apply bad_mesh_facets. by left.
      * destruct (decide (dim mesh_facets 1 = 3)); [done|].
        destruct Hnv. apply bad_mesh_facets. by right.
      * destruct boundary_facets; [|cbn; lia].
        destruct Hnv. by apply no_boundary_loop.
      * apply check_markers_Ok.
        destruct mesh_facet_markers_obj as [a|]; [|done]. cbn.
        destruct (decide (ndim a = 1)) as [?|Hn];
          [|destruct Hnv; eapply bad_markers; [done|by left]].
        destruct (decide (dim a 0 = static_cast_int (dim mesh_facets 0)))
          as [?|Hn]; [done|].
        destruct Hnv. eapply bad_markers; [done|by right].
      * destruct (decide (0 < static_cast_int (dim vertices 0))); [done|].
        destruct Hnv. apply no_vertex. lia.
      * done.
      * apply check_mesh_facets_Ok. intros i k Hi Hk.
        destruct (decide (0 ≤ at2 0 mesh_facets i k
                          < static_cast_int (dim vertices 0))); [done|].
        destruct Hnv. by eapply mesh_index_out_of_range.
      * apply check_boundary_facets_Ok. intros bi poly Hpoly. split.
        -- destruct (decide (3 ≤ length poly)%nat); [done|].
           destruct Hnv. eapply loop_too_short; [done|lia].
        -- intros vid Hvid.
           destruct (decide (0 ≤ vid < static_cast_int (dim vertices 0)));
             [done|].
           destruct Hnv. by eapply loop_index_out_of_range.
  - intros ptr Hv. apply validate_Ok in Hv as (_ & _ & _ & Hm & _).
    apply check_markers_Ok in Hm.
    destruct mesh_facet_markers_obj as [a|]; [by destruct Hm as (_ & _ & ->)|done].
Qed.

Lemma store_range_ext {A} (l : list A) off n f g :
  (∀ i, 0 ≤ i < n → f i = g i) → store_range l off n f = store_range l off n g.
Proof.
  intros Hfg. destruct (decide (0 ≤ n)) as [Hn|Hn].
  - revert Hfg. rewrite <- (Z2Nat.id n Hn).
    induction (Z.to_nat n) as [|k IH]; intros Hfg; [done|].
    rewrite !store_range_snoc, IH by (intros; apply Hfg; lia).
    by rewrite Hfg by lia.
  - unfold store_range, seqZ. by replace (Z.to_nat n) with 0%nat by lia.
Qed.

(** Two consecutive ranges that cover an array determine it. *)
Lemma store_range_two {A} (l : list A) M B f g :
  0 ≤ M → 0 ≤ B → length l = Z.to_nat (M + B) →
  store_range (store_range l 0 M f) M B g = (f <$> seqZ 0 M) ++ (g <$> seqZ 0 B).
Proof.
  intros HM HB Hl. apply list_eq. intros i.
  rewrite store_range_lookup by done. rewrite store_range_length.
  rewrite store_range_lookup by done.
  destruct (decide (Z.of_nat i < M)) as [Hi|Hi].
  - rewrite decide_False by lia. rewrite decide_True by lia.
    rewrite lookup_app_l by (rewrite length_fmap, length_seqZ; lia).
    rewrite list_lookup_fmap, lookup_seqZ_lt by lia. cbn. do 2 f_equal. lia.
  - rewrite lookup_app_r by (rewrite length_fmap, length_seqZ; lia).
    rewrite length_fmap, length_seqZ, list_lookup_fmap.
    destruct (decide (Z.of_nat i < M + B)) as [Hi'|Hi'].
    + rewrite decide_True by lia. rewrite lookup_seqZ_lt by lia. cbn.
      do 2 f_equal. lia.
    + rewrite !decide_False by lia. rewrite lookup_seqZ_ge by lia.
      cbn. apply lookup_ge_None. lia.
Qed.

Lemma rd_all (loop : list Z) :
  (λ j, rd 0 loop j) <$> seqZ 0 (Z.of_nat (length loop)) = loop.
Proof.
  apply list_eq. intros i. rewrite list_lookup_fmap.
  destruct (decide (i < length loop)%nat) as [Hi|Hi].
  - rewrite lookup_seqZ_lt by lia. cbn. unfold rd.
    rewrite Z.add_0_l, Nat2Z.id.
    destruct (lookup_lt_is_Some_2 loop i Hi) as [x Hx]. by rewrite Hx.
  - rewrite lookup_seqZ_ge by lia. cbn. symmetry. apply lookup_ge_None. lia.
Qed.

Lemma build_facetlist_app F bfs M B :
  0 ≤ M → 0 ≤ B → M + B ≤ INT_MAX →
  build_facetlist F bfs M B
  = (mesh_facet F <$> seqZ 0 M) ++ (boundary_facet bfs <$> seqZ 0 B).
Proof.
  intros HM HB HT. unfold build_facetlist. apply store_range_two; [done..|].
  rewrite length_replicate. unfold int_add. rewrite wrap_int_id; [done|].
  unfold is_int, INT_MIN, INT_MAX in *. lia.
Qed.

Lemma build_facetmarkerlist_app ptr M B :
  0 ≤ M → 0 ≤ B → M + B ≤ INT_MAX →
  build_facetmarkerlist ptr M B
  = (marker_value ptr <$> seqZ 0 M)
    ++ ((λ bi, int_neg (int_add bi 2)) <$> seqZ 0 B).
Proof.
  intros HM HB HT. unfold build_facetmarkerlist. apply store_range_two; [done..|].
  rewrite length_replicate. unfold int_add. rewrite wrap_int_id; [done|].
  unfold is_int, INT_MIN, INT_MAX in *. lia.
Qed.

Lemma boundary_facet_loop bfs (bi : nat) loop :
  bfs !! bi = Some loop → Z.of_nat (length loop) ≤ INT_MAX →
  boundary_facet bfs (Z.of_nat bi)
  = Facet (Some [Polygon loop (Z.of_nat (length loop))]) 1 None 0.
Proof.
  intros Hl Hlen. unfold boundary_facet. rewrite Nat2Z.id, Hl.
  cbn [default from_option]. unfold id, static_cast_int.
  rewrite wrap_int_id by (unfold is_int, INT_MIN, INT_MAX in *; lia).
  by rewrite rd_all.
Qed.

(** X8.  The facets of the PLC of a valid input whose facet count fits an
    int: there are M + B of them, as [numberoffacets] says, and as many
    facet markers; facet fi < M is one triangle, the row fi of the mesh
    facets, with no hole; facet M + bi is one polygon, the loop bi with its
    vertices in their order, with no hole. *)
Theorem plc_facets_of_valid_input (vertices : ndarray REAL)
    (mesh_facets : ndarray Z) (mesh_facet_markers_obj : option (ndarray Z))
    (boundary_facets : list (list Z)) (ptr : option (list Z)) :
  validate vertices mesh_facets mesh_facet_markers_obj boundary_facets = Ok ptr →
  static_cast_int (dim mesh_facets 0) + Z.of_nat (length boundary_facets)
    ≤ INT_MAX →
  ∃ fl ml,
    facetlist (build_plc vertices mesh_facets ptr boundary_facets) = Some fl
    ∧ facetmarkerlist (build_plc vertices mesh_facets ptr boundary_facets)
      = Some ml
    ∧ numberoffacets (build_plc vertices mesh_facets ptr boundary_facets)
      = static_cast_int (dim mesh_facets 0) + Z.of_nat (length boundary_facets)
    ∧ Z.of_nat (length fl)
      = static_cast_int (dim mesh_facets 0) + Z.of_nat (length boundary_facets)
    ∧ length ml = length fl
    ∧ (∀ fi, 0 ≤ fi < static_cast_int (dim mesh_facets 0) →
         fl !! Z.to_nat fi
         = Some (Facet (Some [Polygon [at2 0 mesh_facets fi 0;
                                       at2 0 mesh_facets fi 1;
                                       at2 0 mesh_facets fi 2] 3]) 1 None 0))
    ∧ (∀ (bi : nat) loop,
         boundary_facets !! bi = Some loop →
         Z.of_nat (length loop) ≤ INT_MAX →
         fl !! Z.to_nat (static_cast_int (dim mesh_facets 0) + Z.of_nat bi)
         = Some (Facet (Some [Polygon loop (Z.of_nat (length loop))]) 1 None 0)).
Proof.
  intros Hv HT. apply validate_Ok in Hv as (_ & _ & HB & _ & _ & HM & _).
  set (M := static_cast_int (dim mesh_facets 0)) in *.
  set (B := Z.of_nat (length boundary_facets)) in *.
  assert (static_cast_int B = B) as HBc
    by (apply wrap_int_id; unfold is_int, INT_MIN, INT_MAX in *; lia).
  assert (int_add M B = M + B) as HTc
    by (apply wrap_int_id; unfold is_int, INT_MIN, INT_MAX in *; lia).
  eexists _, _. split; [reflexivity|]. split; [reflexivity|].
  cbn [numberoffacets build_plc]. fold M. fold B. rewrite HBc.
  rewrite build_facetlist_app, build_facetmarkerlist_app by lia.
  split_and!.
  - done.
  - rewrite length_app, !length_fmap, !length_seqZ. lia.
  - by rewrite !length_app, !length_fmap.
  - intros fi Hfi.
    rewrite lookup_app_l by (rewrite length_fmap, length_seqZ; lia).
    rewrite list_lookup_fmap, lookup_seqZ_lt by lia. cbn.
    rewrite Z2Nat.id by lia. done.
  - intros bi loop Hloop Hlen.
    assert (bi < length boundary_facets)%nat by (by eapply lookup_lt_Some).
    rewrite lookup_app_r by (rewrite length_fmap, length_seqZ; lia).
    rewrite length_fmap, length_seqZ.
    replace (Z.to_nat (M + Z.of_nat bi) - Z.to_nat M)%nat with bi by lia.
    rewrite list_lookup_fmap, lookup_seqZ_lt by lia.
    cbn [fmap option_fmap option_map]. rewrite Z.add_0_l.
    by rewrite (boundary_facet_loop _ _ loop).
Qed.

Lemma plc_facets_of_valid_input_witness :
  ∃ fl ml,
    facetlist (build_plc (NdArray [4; 3] (replicate 12 0%float))
                 (NdArray [2; 3] [0; 1; 2; 1; 2; 3]) None [[0; 1; 3; 2]])
    = Some fl
    ∧ facetmarkerlist (build_plc (NdArray [4; 3] (replicate 12 0%float))
                         (NdArray [2; 3] [0; 1; 2; 1; 2; 3]) None [[0; 1; 3; 2]])
      = Some ml
    ∧ numberoffacets (build_plc (NdArray [4; 3] (replicate 12 0%float))
                        (NdArray [2; 3] [0; 1; 2; 1; 2; 3]) None [[0; 1; 3; 2]])
      = static_cast_int (dim (NdArray [2; 3] [0; 1; 2; 1; 2; 3]) 0)
        + Z.of_nat (length [[0; 1; 3; 2]])
    ∧ Z.of_nat (length fl)
      = static_cast_int (dim (NdArray [2; 3] [0; 1; 2; 1; 2; 3]) 0)
        + Z.of_nat (length [[0; 1; 3; 2]])
    ∧ length ml = length fl
    ∧ (∀ fi, 0 ≤ fi < static_cast_int (dim (NdArray [2; 3] [0; 1; 2; 1; 2; 3]) 0) →
         fl !! Z.to_nat fi
         = Some (Facet (Some [Polygon
                                [at2 0 (NdArray [2; 3] [0; 1; 2; 1; 2; 3]) fi 0;
                                 at2 0 (NdArray [2; 3] [0; 1; 2; 1; 2; 3]) fi 1;
                                 at2 0 (NdArray [2; 3] [0; 1; 2; 1; 2; 3]) fi 2]
                                3]) 1 None 0))
    ∧ (∀ (bi : nat) loop,
         [[0; 1; 3; 2]] !! bi = Some loop →
         Z.of_nat (length loop) ≤ INT_MAX →
         fl !! Z.to_nat (static_cast_int
                           (dim (NdArray [2; 3] [0; 1; 2; 1; 2; 3]) 0)
                         + Z.of_nat bi)
         = Some (Facet (Some [Polygon loop (Z.of_nat (length loop))]) 1 None 0)).
Proof.
  apply (plc_facets_of_valid_input (NdArray [4; 3] (replicate 12 0%float))
           (NdArray [2; 3] [0; 1; 2; 1; 2; 3]) None [[0; 1; 3; 2]] None).
  - reflexivity.
  - vm_compute. discriminate.
Defined.

Lemma store_point_length V pl i : length (store_point V pl i) = length pl.
Proof. unfold store_point, set_coordinate. by rewrite !length_insert. Qed.

(** One turn of the loop writes the three cells of its vertex and no
    other, when their indices can be counted in an [int]. *)
Lemma store_point_lookup V pl i (j : nat) :
  0 ≤ i → 3 * i + 2 ≤ INT_MAX →
  store_point V pl i !! j
  = if decide (3 * i ≤ Z.of_nat j < 3 * i + 3 ∧ (j < length pl)%nat)
    then Some (at2 0%float V i (Z.of_nat j - 3 * i)) else pl !! j.
Proof.
  intros Hi Hmax. unfold store_point, set_coordinate.
  rewrite !int_index by lia.
  destruct (decide (Z.of_nat j = 3 * i + 2)) as [Hj|Hj].
  { replace (Z.to_nat (3 * i + 2)) with j by lia.
    destruct (decide (j < length pl)%nat).
    - rewrite list_lookup_insert_eq by (by rewrite !length_insert).
      rewrite decide_True by lia. do 2 f_equal. lia.
    - rewrite list_insert_ge by (rewrite !length_insert; lia).
      rewrite !list_lookup_insert_ne by lia. by rewrite decide_False by lia. }
  rewrite list_lookup_insert_ne by lia.
  destruct (decide (Z.of_nat j = 3 * i + 1)) as [Hj1|Hj1].
  { replace (Z.to_nat (3 * i + 1)) with j by lia.
    destruct (decide (j < length pl)%nat).
    - rewrite list_lookup_insert_eq by (by rewrite !length_insert).
      rewrite decide_True by lia. do 2 f_equal. lia.
    - rewrite list_insert_ge by (rewrite !length_insert; lia).
      rewrite !list_lookup_insert_ne by lia. by rewrite decide_False by lia. }
  rewrite list_lookup_insert_ne by lia.
  destruct (decide (Z.of_nat j = 3 * i + 0)) as [Hj0|Hj0].
  { replace (Z.to_nat (3 * i + 0)) with j by lia.
    destruct (decide (j < length pl)%nat).
    - rewrite list_lookup_insert_eq by done.
      rewrite decide_True by lia. do 2 f_equal. lia.
    - rewrite list_insert_ge by lia. by rewrite decide_False by lia. }
  rewrite list_lookup_insert_ne by lia. by rewrite decide_False by lia.
Qed.

Lemma store_points_length V pl l :
  length (foldl (store_point V) pl l) = length pl.
Proof.
  revert pl. induction l as [|i l IH]; intros pl; [done|].
  cbn [foldl]. by rewrite IH, store_point_length.
Qed.

(** After the turns for the vertices below n, their cells hold their
    coordinates. *)
Lemma store_points_lookup V pl (n : nat) i k :
  3 * Z.of_nat n ≤ INT_MAX →
  0 ≤ i < Z.of_nat n → 0 ≤ k < 3 → (Z.to_nat (3 * i + k) < length pl)%nat →
  foldl (store_point V) pl (seqZ 0 (Z.of_nat n)) !! Z.to_nat (3 * i + k)
  = Some (at2 0%float V i k).
Proof.
  intros Hmax Hi Hk Hlen. induction n as [|n IH]; [lia|].
  replace (Z.of_nat (S n)) with (Z.of_nat n + 1) by lia.
  rewrite seqZ_app by lia. rewrite foldl_app.
  replace (seqZ (0 + Z.of_nat n) 1) with [Z.of_nat n]
    by (unfold seqZ; cbn; f_equal; lia).
  cbn [foldl]. rewrite store_point_lookup by lia.
  destruct (decide (i = Z.of_nat n)) as [->|Hne].
  - rewrite decide_True.
    + do 2 f_equal. lia.
    + split; [lia|]. by rewrite store_points_length.
  - rewrite decide_False by lia. apply IH; lia.
Qed.

Lemma build_pointlist_length V N :
  0 ≤ N → 3 * N ≤ INT_MAX → Z.of_nat (length (build_pointlist V N)) = 3 * N.
Proof.
  intros HN Hmax. unfold build_pointlist, int_mul.
  rewrite store_points_length, length_replicate.
  rewrite wrap_int_id by (unfold is_int, INT_MIN, INT_MAX in *; lia). lia.
Qed.

Lemma build_pointlist_at V N i k :
  3 * N ≤ INT_MAX → 0 ≤ i < N → 0 ≤ k < 3 →
  build_pointlist V N !! Z.to_nat (3 * i + k) = Some (at2 0%float V i k).
Proof.
  intros Hmax Hi Hk. unfold build_pointlist, int_mul.
  rewrite <- (Z2Nat.id N) at 2 by lia.
  apply store_points_lookup; [lia..|].
  rewrite length_replicate.
  rewrite wrap_int_id by (unfold is_int, INT_MIN, INT_MAX in *; lia). lia.
Qed.

(** X9.  The points of the PLC of a valid input whose 3 N coordinates can
    be counted in an [int]: indexing is 0-based, the number of points is N,
    and the point buffer holds 3 N coordinates, the coordinate k of vertex
    i in cell 3 i + k. *)
Theorem plc_points_of_valid_input (vertices : ndarray REAL)
    (mesh_facets : ndarray Z) (mesh_facet_markers_obj : option (ndarray Z))
    (boundary_facets : list (list Z)) (ptr : option (list Z)) :
  validate vertices mesh_facets mesh_facet_markers_obj boundary_facets = Ok ptr →
  3 * static_cast_int (dim vertices 0) ≤ INT_MAX →
  ∃ pl,
    pointlist (build_plc vertices mesh_facets ptr boundary_facets) = Some pl
    ∧ firstnumber (build_plc vertices mesh_facets ptr boundary_facets) = 0
    ∧ numberofpoints (build_plc vertices mesh_facets ptr boundary_facets)
      = static_cast_int (dim vertices 0)
    ∧ 0 < numberofpoints (build_plc vertices mesh_facets ptr boundary_facets)
    ∧ Z.of_nat (length pl) = 3 * static_cast_int (dim vertices 0)
    ∧ ∀ i k, 0 ≤ i < static_cast_int (dim vertices 0) → 0 ≤ k < 3 →
        pl !! Z.to_nat (3 * i + k) = Some (at2 0%float vertices i k).
Proof.
  intros Hv Hmax. apply validate_Ok in Hv as (_ & _ & _ & _ & HN & _).
  eexists. split; [reflexivity|]. cbn [firstnumber numberofpoints build_plc].
  split_and!; [done..| |].
  - apply build_pointlist_length; [lia|done].
  - intros i k Hi Hk. by apply build_pointlist_at.
Qed.

Lemma plc_points_of_valid_input_witness :
  ∃ pl,
    pointlist (build_plc (NdArray [4; 3] (replicate 12 1%float))
                 (NdArray [2; 3] [0; 1; 2; 1; 2; 3]) None [[0; 1; 3; 2]])
    = Some pl
    ∧ firstnumber (build_plc (NdArray [4; 3] (replicate 12 1%float))
                     (NdArray [2; 3] [0; 1; 2; 1; 2; 3]) None [[0; 1; 3; 2]]) = 0
    ∧ numberofpoints (build_plc (NdArray [4; 3] (replicate 12 1%float))
                        (NdArray [2; 3] [0; 1; 2; 1; 2; 3]) None [[0; 1; 3; 2]])
      = static_cast_int (dim (NdArray [4; 3] (replicate 12 1%float)) 0)
    ∧ 0 < numberofpoints
            (build_plc (NdArray [4; 3] (replicate 12 1%float))
               (NdArray [2; 3] [0; 1; 2; 1; 2; 3]) None [[0; 1; 3; 2]])
    ∧ Z.of_nat (length pl)
      = 3 * static_cast_int (dim (NdArray [4; 3] (replicate 12 1%float)) 0)
    ∧ ∀ i k,
        0 ≤ i < static_cast_int (dim (NdArray [4; 3] (replicate 12 1%float)) 0) →
        0 ≤ k < 3 →
        pl !! Z.to_nat (3 * i + k)
        = Some (at2 0%float (NdArray [4; 3] (replicate 12 1%float)) i k).
Proof.
  apply (plc_points_of_valid_input (NdArray [4; 3] (replicate 12 1%float))
           (NdArray [2; 3] [0; 1; 2; 1; 2; 3]) None [[0; 1; 3; 2]] None).
  - reflexivity.
  - vm_compute. discriminate.
Defined.

Lemma mesh_facet_vertices F N fi v :
  row_in_range F N fi → v ∈ facet_vertices (mesh_facet F fi) → 0 ≤ v < N.
Proof.
  intros Hrow. unfold facet_vertices, mesh_facet. cbn.
  rewrite !elem_of_cons, elem_of_nil.
  intros [-> | [-> | [-> | []]]]; apply Hrow; lia.
Qed.

(** X10.  The PLC handed to the generator has no index out of range: for a
    valid input whose sizes fit an int, every vertex index of every polygon
    of every facet is in [0, numberofpoints), and every facet is a single
    polygon of at least 3 vertices, whose vertex count is the length of its
    vertex list, without holes. *)
Theorem plc_indices_in_range (vertices : ndarray REAL)
    (mesh_facets : ndarray Z) (mesh_facet_markers_obj : option (ndarray Z))
    (boundary_facets : list (list Z)) (ptr : option (list Z)) :
  validate vertices mesh_facets mesh_facet_markers_obj boundary_facets = Ok ptr →
  static_cast_int (dim mesh_facets 0) + Z.of_nat (length boundary_facets)
    ≤ INT_MAX →
  (∀ loop, loop ∈ boundary_facets → Z.of_nat (length loop) ≤ INT_MAX) →
  (∀ v, v ∈ plc_vertices (build_plc vertices mesh_facets ptr boundary_facets) →
     0 ≤ v < numberofpoints (build_plc vertices mesh_facets ptr boundary_facets))
  ∧ (∀ fl f,
       facetlist (build_plc vertices mesh_facets ptr boundary_facets) = Some fl →
       f ∈ fl →
       ∃ poly, polygonlist f = Some [poly] ∧ numberofpolygons f = 1
               ∧ holelist f = None ∧ numberofholes f = 0
               ∧ numberofvertices poly = Z.of_nat (length (vertexlist poly))
               ∧ 3 ≤ numberofvertices poly).
Proof.
  intros Hv HT Hloops. apply validate_Ok in Hv
    as (_ & _ & HB & _ & HN & HM & Hmesh & Hbnd).
  rewrite check_mesh_facets_Ok in Hmesh. rewrite check_boundary_facets_Ok in Hbnd.
  set (N := static_cast_int (dim vertices 0)) in *.
  set (M := static_cast_int (dim mesh_facets 0)) in *.
  set (B := Z.of_nat (length boundary_facets)) in *.
  assert (static_cast_int B = B) as HBc
    by (apply wrap_int_id; unfold is_int, INT_MIN, INT_MAX in *; lia).
  assert (∀ f, f ∈ build_facetlist mesh_facets boundary_facets M B →
            (∃ fi, 0 ≤ fi < M ∧ f = mesh_facet mesh_facets fi)
            ∨ (∃ loop, loop ∈ boundary_facets
                       ∧ f = Facet (Some [Polygon loop (Z.of_nat (length loop))])
                               1 None 0)) as Hfl.
  { intros f. rewrite build_facetlist_app by lia.
    rewrite elem_of_app, !list_elem_of_fmap.
    intros [(fi & -> & Hfi)|(bi & -> & Hbi)].
    - left. exists fi. split; [|done]. apply elem_of_seqZ in Hfi. lia.
    - right. apply elem_of_seqZ in Hbi.
      destruct (lookup_lt_is_Some_2 boundary_facets (Z.to_nat bi))
        as [loop Hloop]; [lia|].
      exists loop. split; [by eapply list_elem_of_lookup_2|].
      rewrite <- (Z2Nat.id bi) by lia.
      apply boundary_facet_loop; [done|].
      apply Hloops. by eapply list_elem_of_lookup_2. }
  split.
  - intros v. unfold plc_vertices.
    cbn [facetlist numberofpoints build_plc default from_option]. unfold id.
    fold N M B. rewrite HBc. rewrite list_elem_of_bind.
    intros (f & Hvf & Hf). apply Hfl in Hf as [(fi & Hfi & ->)|(loop & Hloop & ->)].
    + eapply mesh_facet_vertices; [|done]. intros k Hk. by apply Hmesh.
    + unfold facet_vertices in Hvf. cbn in Hvf. rewrite app_nil_r in Hvf.
      apply list_elem_of_lookup in Hloop as [bi Hbi].
      by eapply Hbnd.
  - intros fl f [= <-]. fold M B. rewrite HBc. intros Hf.
    apply Hfl in Hf as [(fi & Hfi & ->)|(loop & Hloop & ->)].
    + eexists. cbn. split_and!; done || lia.
    + eexists. cbn. split_and!; try done.
      apply list_elem_of_lookup in Hloop as [bi Hbi].
      apply Hbnd in Hbi as [Hlen _]. cbn. lia.
Qed.

Lemma plc_indices_in_range_witness :
  (∀ v, v ∈ plc_vertices
              (build_plc (NdArray [4; 3] (replicate 12 0%float))
                 (NdArray [2; 3] [0; 1; 2; 1; 2; 3]) None [[0; 1; 3; 2]]) →
     0 ≤ v < numberofpoints
               (build_plc (NdArray [4; 3] (replicate 12 0%float))
                  (NdArray [2; 3] [0; 1; 2; 1; 2; 3]) None [[0; 1; 3; 2]]))
  ∧ (∀ fl f,
       facetlist (build_plc (NdArray [4; 3] (replicate 12 0%float))
                    (NdArray [2; 3] [0; 1; 2; 1; 2; 3]) None [[0; 1; 3; 2]])
       = Some fl →
       f ∈ fl →
       ∃ poly, polygonlist f = Some [poly] ∧ numberofpolygons f = 1
               ∧ holelist f = None ∧ numberofholes f = 0
               ∧ numberofvertices poly = Z.of_nat (length (vertexlist poly))
               ∧ 3 ≤ numberofvertices poly).
Proof.
  apply (plc_indices_in_range (NdArray [4; 3] (replicate 12 0%float))
           (NdArray [2; 3] [0; 1; 2; 1; 2; 3]) None [[0; 1; 3; 2]] None).
  - reflexivity.
  - vm_compute. discriminate.
  - intros loop Hin. apply list_elem_of_singleton in Hin as ->.
    vm_compute. discriminate.
Defined.

Lemma validate_markers vertices mesh_facets a bfs :
  ndim a = 1 → dim a 0 = static_cast_int (dim mesh_facets 0) →
  validate vertices mesh_facets (Some a) bfs
  = match validate vertices mesh_facets None bfs with
    | Ok _ => Ok (Some (data a))
    | Throw w => Throw w
    end.
Proof.
  intros Hn Hd. unfold validate, check_markers.
  rewrite (bool_decide_false (ndim a ≠ 1)) by tauto.
  rewrite (bool_decide_false (dim a 0 ≠ _)) by tauto.
  repeat (case_bool_decide; [done|]).
  destruct (check_mesh_facets _ _ _) as [[]|w]; [|done].
  by destruct (check_boundary_facets _ _) as [[]|w].
Qed.

Lemma build_facetmarkerlist_negative p M B :
  (∀ i, 0 ≤ i < M → rd 0 p i < 0) →
  build_facetmarkerlist (Some p) M B = build_facetmarkerlist None M B.
Proof.
  intros Hneg. unfold build_facetmarkerlist. f_equal.
  apply store_range_ext. intros i Hi. unfold marker_value.
  by rewrite bool_decide_true by (by apply Hneg).
Qed.

(** X11.  A marker array whose entries are all negative is the same as no
    marker array: the run is the same, with the same switch buffer and the
    same PLC handed to the generator and the same treatment of its
    outcome. *)
Theorem negative_markers_as_no_markers (vertices : ndarray REAL)
    (mesh_facets : ndarray Z) (a : ndarray Z)
    (boundary_facets : list (list Z)) (tetgen_switches : py_object)
    (compute_boundary_faces : bool) :
  ndim a = 1 → dim a 0 = static_cast_int (dim mesh_facets 0) →
  (∀ i, 0 ≤ i < static_cast_int (dim mesh_facets 0) → at1 0 a i < 0) →
  tetrahedralize_core vertices mesh_facets (Some a) boundary_facets
    tetgen_switches compute_boundary_faces
  = tetrahedralize_core vertices mesh_facets None boundary_facets
      tetgen_switches compute_boundary_faces.
Proof.
  intros Hn Hd Hneg. unfold tetrahedralize_core.
  rewrite validate_markers by done.
  destruct (validate vertices mesh_facets None boundary_facets)
    as [ptr|w] eqn:Hv; [|done].
  apply validate_no_markers in Hv as ->. cbn [lift].
  unfold build_plc. by rewrite build_facetmarkerlist_negative.
Qed.

Lemma negative_markers_as_no_markers_witness :
  tetrahedralize_core (NdArray [4; 3] (replicate 12 0%float))
    (NdArray [2; 3] [0; 1; 2; 1; 2; 3]) (Some (NdArray [2] [-1; -7]))
    [[0; 1; 3; 2]] (PyStr "pq") true
  = tetrahedralize_core (NdArray [4; 3] (replicate 12 0%float))
      (NdArray [2; 3] [0; 1; 2; 1; 2; 3]) None
      [[0; 1; 3; 2]] (PyStr "pq") true.
Proof.
  apply (negative_markers_as_no_markers (NdArray [4; 3] (replicate 12 0%float))
           (NdArray [2; 3] [0; 1; 2; 1; 2; 3]) (NdArray [2] [-1; -7])
           [[0; 1; 3; 2]] (PyStr "pq") true).
  - reflexivity.
  - reflexivity.
  - intros i Hi.
    change (static_cast_int (dim (NdArray [2; 3] [0; 1; 2; 1; 2; 3]) 0))
      with 2 in Hi.
    assert (i = 0 ∨ i = 1) as [-> | ->] by lia; reflexivity.
Defined.

(** ** Errors *)

Lemma to_array_four_columns {A} (d : A) src n m :
  ndim (to_array d src n m) = 2 ∧ dim (to_array d src n m) 1 = 4 ↔
  is_Some src ∧ 0 < n ∧ m = 4.
Proof.
  unfold to_array. destruct src as [buf|].
  - case_bool_decide as Hc; cbn.
    + split; [by intros [? _]|]. intros (_ & ? & ?). lia.
    + split.
      * intros [_ ->]. split; [by eexists|]. lia.
      * by intros (_ & _ & ->).
  - cbn. split; [by intros [? _]|]. by intros ([? ?] & _).
Qed.

Lemma to_array_rows {A} (d : A) buf n m :
  0 < n → 0 < m → dim (to_array d (Some buf) n m) 0 = n.
Proof. intros Hn Hm. by rewrite to_array_present. Qed.

Lemma compute_boundary_face_tris_marshalled tlo nl K c w :
  compute_boundary_face_tris (to_array_i32 tlo K c) (to_array_i32 (Some nl) K 4)
  = Throw w ↔
  (tlo = None ∨ K ≤ 0 ∨ c ≠ 4) ∧ w = "tets must have shape (T,4)".
Proof.
  rewrite compute_boundary_face_tris_cases. unfold to_array_i32.
  pose proof (to_array_four_columns 0 tlo K c) as Ht.
  pose proof (to_array_four_columns 0 (Some nl) K 4) as Hn.
  pose proof (to_array_rows 0 nl K 4) as Hrn.
  assert (∀ tl, tlo = Some tl → 0 < K → 0 < c →
                dim (to_array 0 tlo K c) 0 = K) as Hrt
    by (intros tl -> ? ?; by apply to_array_rows).
  generalize dependent (to_array 0 (Some nl) K 4).
  generalize dependent (to_array 0 tlo K c). intros T Ht Hrt N Hn Hrn.
  destruct (decide (ndim T = 2 ∧ dim T 1 = 4)) as [HT|HT].
  - apply Ht in HT as ([tl Htl] & HK & Hc).
    rewrite decide_True by (apply Hn; split; [by eexists|]; lia).
    rewrite decide_True by (rewrite (Hrt tl Htl), Hrn by lia; done).
    split; [done|]. intros [[?|[?|?]] _]; [congruence|lia|done].
  - split.
    + intros [= <-]. split; [|done]. rewrite Ht in HT.
      destruct tlo; [|by left]. right.
      destruct (decide (K ≤ 0)); [by left|right].
      intros Hco. apply HT. split; [by eexists|]. lia.
    + by intros [_ ->].
Qed.

(** The one error a call can raise once the generator returned. *)
Lemma marshal_Throw_iff cbf o out w :
  marshal cbf o out = Throw w ↔
  cbf = true ∧ is_Some (neighborlist out)
  ∧ (tetrahedronlist out = None ∨ numberoftetrahedra out ≤ 0
     ∨ numberofcorners out ≠ 4)
  ∧ w = "tets must have shape (T,4)".
Proof.
  rewrite marshal_Throw, derive_boundary_Throw. unfold marshal_neighbors.
  split.
  - intros (-> & nbrs & Hn & Hc).
    destruct (neighborlist out) as [nl|] eqn:Hnl; [|done]. injection Hn as <-.
    apply compute_boundary_face_tris_marshalled in Hc as [Hbad ->].
    split_and!; [done|by eexists|done|done].
  - intros (-> & [nl Hnl] & Hbad & ->). split; [done|].
    rewrite Hnl. eexists. split; [done|].
    by apply compute_boundary_face_tris_marshalled.
Qed.

(** X12.  Once the generator returned, the call raises in one case only and
    with one message: boundary-face derivation is on, the adjacency buffer
    is non-null, and the tetrahedra are not a (K,4) array (the buffer is
    null, there is no tetrahedron, or the corner count is not 4); the
    message is "tets must have shape (T,4)".  The two other errors of the
    extractor cannot occur, the adjacency array being built with the
    tetrahedra's row count and four columns.  In every other case the call
    returns a result. *)
Theorem post_generation_error (compute_boundary_faces : bool)
    (tetgen_switches : py_object) (out : tetgenio) :
  (∀ w, marshal compute_boundary_faces tetgen_switches out = Throw w ↔
     compute_boundary_faces = true ∧ is_Some (neighborlist out)
     ∧ (tetrahedronlist out = None ∨ numberoftetrahedra out ≤ 0
        ∨ numberofcorners out ≠ 4)
     ∧ w = "tets must have shape (T,4)")
  ∧ marshal compute_boundary_faces tetgen_switches out
    ≠ Throw "neighbors must have shape (T,4)"
  ∧ marshal compute_boundary_faces tetgen_switches out
    ≠ Throw "tets and neighbors must have same length"
  ∧ ((compute_boundary_faces = false ∨ neighborlist out = None
      ∨ (is_Some (tetrahedronlist out) ∧ 0 < numberoftetrahedra out
         ∧ numberofcorners out = 4)) →
     ∃ res, marshal compute_boundary_faces tetgen_switches out = Ok res).
Proof.
  split_and!.
  - intros w. apply marshal_Throw_iff.
  - intros H. by apply marshal_Throw_iff in H as (_ & _ & _ & [=]).
  - intros H. by apply marshal_Throw_iff in H as (_ & _ & _ & [=]).
  - intros Hok.
    destruct (marshal compute_boundary_faces tetgen_switches out)
      as [res|w] eqn:Hm; [by exists res|].
    apply marshal_Throw_iff in Hm as (-> & [nl Hnl] & Hbad & _).
    destruct Hok as [?|[?|([tl Htl] & ? & ?)]]; [done|congruence|].
    destruct Hbad as [?|[?|?]]; [congruence|lia|done].
Qed.

(** An empty mesh with its adjacency buffer allocated raises. *)
Example empty_mesh_with_adjacency_raises :
  marshal true (PyStr "pqn") no_tet_out = Throw "tets must have shape (T,4)".
Proof. reflexivity. Qed.




(** ** Markers and marshalled arrays *)

Lemma sort3_eq_perm t1 t2 :
  sort3 t1 = sort3 t2 → triangle_cells t1 ≡ₚ triangle_cells t2.
Proof. intros Heq. by rewrite <- (sort3_perm t1), Heq, sort3_perm. Qed.

Lemma triface_map_nonempty_inv out :
  build_triface_marker_map out ≠ ∅ →
  ∃ tl ml, trifacelist out = Some tl ∧ trifacemarkerlist out = Some ml
           ∧ 0 < numberoftrifaces out.
Proof.
  intros Hne.
  destruct (trifacelist out) as [tl|] eqn:Htl;
    [|destruct Hne; apply build_triface_marker_map_empty; auto].
  destruct (trifacemarkerlist out) as [ml|] eqn:Hml;
    [|destruct Hne; apply build_triface_marker_map_empty; auto].
  destruct (decide (0 < numberoftrifaces out));
    [by exists tl, ml|].
  destruct Hne. apply build_triface_marker_map_empty. right. right. lia.
Qed.

(** X14.  Where a boundary marker comes from.  When the result carries
    boundary markers, the generator gave faces and face markers; a boundary
    face with a marker other than 0 has the same three vertices as some
    Output Face, whose marker it carries; a boundary face gets the marker
    of the Output Face of greatest index with its three vertices, and 0
    when no Output Face has its three vertices. *)
Theorem boundary_marker_provenance (compute_boundary_faces : bool)
    (tetgen_switches : py_object) (out : tetgenio) (res : TetwrapIO)
    (bf markers : ndarray Z) :
  marshal compute_boundary_faces tetgen_switches out = Ok res →
  boundary_tri_faces res = Some bf →
  boundary_tri_markers res = Some markers →
  ∃ tl ml,
    trifacelist out = Some tl ∧ trifacemarkerlist out = Some ml
    ∧ 0 < numberoftrifaces out
    ∧ (∀ b, 0 ≤ b < dim bf 0 → at1 0 markers b ≠ 0 →
         ∃ i, 0 ≤ i < numberoftrifaces out
              ∧ triangle_cells (buffer_triangle tl i)
                ≡ₚ triangle_cells (face_row bf b)
              ∧ at1 0 markers b = rd 0 ml i)
    ∧ (∀ b i, 0 ≤ b < dim bf 0 → 0 ≤ i < numberoftrifaces out →
         triangle_cells (buffer_triangle tl i) ≡ₚ triangle_cells (face_row bf b) →
         (∀ j, i < j < numberoftrifaces out →
            ¬ triangle_cells (buffer_triangle tl j)
              ≡ₚ triangle_cells (face_row bf b)) →
         at1 0 markers b = rd 0 ml i)
    ∧ (∀ b, 0 ≤ b < dim bf 0 →
         (∀ i, 0 ≤ i < numberoftrifaces out →
            ¬ triangle_cells (buffer_triangle tl i)
              ≡ₚ triangle_cells (face_row bf b)) →
         at1 0 markers b = 0).
Proof.
  intros Hres Hbf Hbm.
  apply marshal_Ok in Hres as (bf' & bm & Hd & ->). cbn in Hbf, Hbm.
  subst bf' bm.
  apply derive_boundary_Ok in Hd as [(_ & nbrs & faces & _ & _ & [= <-] & Hm)
                                    |(_ & ? & _)]; [|done].
  case_bool_decide as Hne; [|done]. injection Hm as ->.
  destruct (triface_map_nonempty_inv out Hne) as (tl & ml & Htl & Hml & Hn).
  exists tl, ml. split; [done|]. split; [done|]. split; [done|].
  assert (∀ b, 0 ≤ b < dim bf 0 →
            at1 0 (boundary_markers (build_triface_marker_map out) bf) b
            = default 0 (last_wins tl ml
                           (seqZ 0 (Z.of_nat (Z.to_nat (numberoftrifaces out))))
                           (sort3 (face_row bf b)))) as Hat.
  { intros b Hb. rewrite boundary_markers_at by done. unfold lookup_marker.
    rewrite (build_triface_marker_map_lookup out tl ml) by done.
    by rewrite Z2Nat.id by lia. }
  split_and!.
  - intros b Hb Hnz. rewrite Hat in Hnz |- * by done.
    destruct (last_wins _ _ _ _) as [v|] eqn:Hlw; [|done].
    apply last_wins_Some in Hlw as (i & Hi & Hk & -> & _).
    exists i. split; [lia|]. split; [by apply sort3_eq_perm|done].
  - intros b i Hb Hi Hperm Hlast. rewrite Hat by done.
    assert (last_wins tl ml
              (seqZ 0 (Z.of_nat (Z.to_nat (numberoftrifaces out))))
              (sort3 (face_row bf b)) = Some (rd 0 ml i)) as ->; [|done].
    apply last_wins_Some. exists i. split_and!; [lia..| |done|].
    + by apply sort3_permutation.
    + intros j Hj Hk. apply (Hlast j); [lia|]. by apply sort3_eq_perm.
  - intros b Hb Hnone. rewrite Hat by done.
    assert (last_wins tl ml
              (seqZ 0 (Z.of_nat (Z.to_nat (numberoftrifaces out))))
              (sort3 (face_row bf b)) = None) as ->; [|done].
    apply last_wins_None. intros i Hi Hk. apply (Hnone i); [lia|].
    by apply sort3_eq_perm.
Qed.

Lemma boundary_marker_provenance_witness :
  ∃ tl ml,
    trifacelist one_tet_out = Some tl ∧ trifacemarkerlist one_tet_out = Some ml
    ∧ 0 < numberoftrifaces one_tet_out
    ∧ (∀ b, 0 ≤ b < dim (NdArray [4; 3] [1; 2; 3; 0; 3; 2; 0; 1; 3; 0; 2; 1]) 0 →
         at1 0 (NdArray [4] [9; 8; 0; 0]) b ≠ 0 →
         ∃ i, 0 ≤ i < numberoftrifaces one_tet_out
              ∧ triangle_cells (buffer_triangle tl i)
                ≡ₚ triangle_cells
                     (face_row
                        (NdArray [4; 3] [1; 2; 3; 0; 3; 2; 0; 1; 3; 0; 2; 1]) b)
              ∧ at1 0 (NdArray [4] [9; 8; 0; 0]) b = rd 0 ml i)
    ∧ (∀ b i,
         0 ≤ b < dim (NdArray [4; 3] [1; 2; 3; 0; 3; 2; 0; 1; 3; 0; 2; 1]) 0 →
         0 ≤ i < numberoftrifaces one_tet_out →
         triangle_cells (buffer_triangle tl i)
         ≡ₚ triangle_cells
              (face_row (NdArray [4; 3] [1; 2; 3; 0; 3; 2; 0; 1; 3; 0; 2; 1]) b) →
         (∀ j, i < j < numberoftrifaces one_tet_out →
            ¬ triangle_cells (buffer_triangle tl j)
              ≡ₚ triangle_cells
                   (face_row
                      (NdArray [4; 3] [1; 2; 3; 0; 3; 2; 0; 1; 3; 0; 2; 1]) b)) →
         at1 0 (NdArray [4] [9; 8; 0; 0]) b = rd 0 ml i)
    ∧ (∀ b,
         0 ≤ b < dim (NdArray [4; 3] [1; 2; 3; 0; 3; 2; 0; 1; 3; 0; 2; 1]) 0 →
         (∀ i, 0 ≤ i < numberoftrifaces one_tet_out →
            ¬ triangle_cells (buffer_triangle tl i)
              ≡ₚ triangle_cells
                   (face_row
                      (NdArray [4; 3] [1; 2; 3; 0; 3; 2; 0; 1; 3; 0; 2; 1]) b)) →
         at1 0 (NdArray [4] [9; 8; 0; 0]) b = 0).
Proof.
  apply (boundary_marker_provenance true (PyStr "pq") one_tet_out one_tet_io
           (NdArray [4; 3] [1; 2; 3; 0; 3; 2; 0; 1; 3; 0; 2; 1])
           (NdArray [4] [9; 8; 0; 0])).
  - vm_compute. reflexivity.
  - reflexivity.
  - reflexivity.
Defined.

Lemma marshal_tri_faces_Some out f :
  marshal_tri_faces out = Some f ↔
  ∃ tl, trifacelist out = Some tl ∧ 0 < numberoftrifaces out
        ∧ f = to_array_i32 (Some tl) (numberoftrifaces out) 3.
Proof.
  unfold marshal_tri_faces. destruct (trifacelist out) as [tl|].
  - case_bool_decide; split.
    + intros [= <-]. by exists tl.
    + by intros (tl' & [= <-] & _ & ->).
    + done.
    + intros (tl' & _ & ? & _). lia.
  - split; [done|]. by intros (? & ? & _).
Qed.

Lemma marshal_tri_markers_Some out m :
  marshal_tri_markers out = Some m ↔
  ∃ tl ml, trifacelist out = Some tl ∧ trifacemarkerlist out = Some ml
           ∧ 0 < numberoftrifaces out
           ∧ m = to_vector_i32 (Some ml) (numberoftrifaces out).
Proof.
  unfold marshal_tri_markers.
  destruct (trifacelist out) as [tl|]; [|split; [done|by intros (? & ? & ? & _)]].
  case_bool_decide; [|split; [done|intros (? & ? & _ & _ & ? & _); lia]].
  destruct (trifacemarkerlist out) as [ml|];
    [|split; [done|by intros (? & ? & _ & ? & _)]].
  split.
  - intros [= <-]. by exists tl, ml.
  - by intros (? & ? & _ & [= <-] & _ & ->).
Qed.

Lemma marshal_edges_Some out f :
  marshal_edges out = Some f ↔
  ∃ el, edgelist out = Some el ∧ 0 < numberofedges out
        ∧ f = to_array_i32 (Some el) (numberofedges out) 2.
Proof.
  unfold marshal_edges. destruct (edgelist out) as [el|].
  - case_bool_decide; split.
    + intros [= <-]. by exists el.
    + by intros (el' & [= <-] & _ & ->).
    + done.
    + intros (el' & _ & ? & _). lia.
  - split; [done|]. by intros (? & ? & _).
Qed.

Lemma marshal_edge_markers_Some out m :
  marshal_edge_markers out = Some m ↔
  ∃ el ml, edgelist out = Some el ∧ edgemarkerlist out = Some ml
           ∧ 0 < numberofedges out
           ∧ m = to_vector_i32 (Some ml) (numberofedges out).
Proof.
  unfold marshal_edge_markers.
  destruct (edgelist out) as [el|]; [|split; [done|by intros (? & ? & ? & _)]].
  case_bool_decide; [|split; [done|intros (? & ? & _ & _ & ? & _); lia]].
  destruct (edgemarkerlist out) as [ml|];
    [|split; [done|by intros (? & ? & _ & ? & _)]].
  split.
  - intros [= <-]. by exists el, ml.
  - by intros (? & ? & _ & [= <-] & _ & ->).
Qed.

(** X15.  The explicit faces, the edges and their markers in the result
    are parallel arrays of the generator's values: present faces are an
    (F,3) array whose cell (i,k) is the face buffer's cell 3 i + k when 3 F
    does not exceed INT_MAX, present edges an (E,2) array whose cell (i,k)
    is the edge buffer's cell 2 i + k when 2 E does not exceed INT_MAX (the
    source computes these indices in [int]); present markers come with
    their faces or edges, are a vector of the same number of rows, and
    their cell i is the marker buffer's cell i. *)
Theorem faces_edges_and_markers_parallel (compute_boundary_faces : bool)
    (tetgen_switches : py_object) (out : tetgenio) (res : TetwrapIO) :
  marshal compute_boundary_faces tetgen_switches out = Ok res →
  (∀ f, tri_faces res = Some f →
     ∃ tl, trifacelist out = Some tl
           ∧ shape f = [numberoftrifaces out; 3]
           ∧ (numberoftrifaces out * 3 ≤ INT_MAX →
              ∀ i k, 0 ≤ i < numberoftrifaces out → 0 ≤ k < 3 →
                at2 0 f i k = rd 0 tl (i * 3 + k)))
  ∧ (∀ m, tri_markers res = Some m →
       ∃ f ml, tri_faces res = Some f ∧ trifacemarkerlist out = Some ml
               ∧ shape m = [dim f 0]
               ∧ ∀ i, 0 ≤ i < dim f 0 → at1 0 m i = rd 0 ml i)
  ∧ (∀ f, edges res = Some f →
       ∃ el, edgelist out = Some el
             ∧ shape f = [numberofedges out; 2]
             ∧ (numberofedges out * 2 ≤ INT_MAX →
                ∀ i k, 0 ≤ i < numberofedges out → 0 ≤ k < 2 →
                  at2 0 f i k = rd 0 el (i * 2 + k)))
  ∧ (∀ m, edge_markers res = Some m →
       ∃ f ml, edges res = Some f ∧ edgemarkerlist out = Some ml
               ∧ shape m = [dim f 0]
               ∧ ∀ i, 0 ≤ i < dim f 0 → at1 0 m i = rd 0 ml i).
Proof.
  intros Hres. apply marshal_Ok in Hres as (bf & bm & _ & ->).
  cbn [tri_faces tri_markers edges edge_markers]. split_and!.
  - intros f Hf. apply marshal_tri_faces_Some in Hf as (tl & Htl & Hn & ->).
    exists tl. unfold to_array_i32. split; [done|].
    split; [by rewrite to_array_present|].
    intros Hmax i k Hi Hk. by apply to_array_at.
  - intros m Hm.
    apply marshal_tri_markers_Some in Hm as (tl & ml & Htl & Hml & Hn & ->).
    exists (to_array_i32 (Some tl) (numberoftrifaces out) 3), ml.
    split; [apply marshal_tri_faces_Some; by exists tl|]. split; [done|].
    unfold to_array_i32, to_vector_i32. rewrite to_array_rows by lia.
    split; [by rewrite to_vector_present|].
    intros i Hi. by apply to_vector_at.
  - intros f Hf. apply marshal_edges_Some in Hf as (el & Hel & Hn & ->).
    exists el. unfold to_array_i32. split; [done|].
    split; [by rewrite to_array_present|].
    intros Hmax i k Hi Hk. by apply to_array_at.
  - intros m Hm.
    apply marshal_edge_markers_Some in Hm as (el & ml & Hel & Hml & Hn & ->).
    exists (to_array_i32 (Some el) (numberofedges out) 2), ml.
    split; [apply marshal_edges_Some; by exists el|]. split; [done|].
    unfold to_array_i32, to_vector_i32. rewrite to_array_rows by lia.
    split; [by rewrite to_vector_present|].
    intros i Hi. by apply to_vector_at.
Qed.

Lemma faces_edges_and_markers_parallel_witness :
  (∀ f, tri_faces one_tet_io = Some f →
     ∃ tl, trifacelist one_tet_out = Some tl
           ∧ shape f = [numberoftrifaces one_tet_out; 3]
           ∧ (numberoftrifaces one_tet_out * 3 ≤ INT_MAX →
              ∀ i k, 0 ≤ i < numberoftrifaces one_tet_out → 0 ≤ k < 3 →
                at2 0 f i k = rd 0 tl (i * 3 + k)))
  ∧ (∀ m, tri_markers one_tet_io = Some m →
       ∃ f ml, tri_faces one_tet_io = Some f
               ∧ trifacemarkerlist one_tet_out = Some ml
               ∧ shape m = [dim f 0]
               ∧ ∀ i, 0 ≤ i < dim f 0 → at1 0 m i = rd 0 ml i)
  ∧ (∀ f, edges one_tet_io = Some f →
       ∃ el, edgelist one_tet_out = Some el
             ∧ shape f = [numberofedges one_tet_out; 2]
             ∧ (numberofedges one_tet_out * 2 ≤ INT_MAX →
                ∀ i k, 0 ≤ i < numberofedges one_tet_out → 0 ≤ k < 2 →
                  at2 0 f i k = rd 0 el (i * 2 + k)))
  ∧ (∀ m, edge_markers one_tet_io = Some m →
       ∃ f ml, edges one_tet_io = Some f
               ∧ edgemarkerlist one_tet_out = Some ml
               ∧ shape m = [dim f 0]
               ∧ ∀ i, 0 ≤ i < dim f 0 → at1 0 m i = rd 0 ml i).
Proof.
  apply (faces_edges_and_markers_parallel true (PyStr "pq") one_tet_out
           one_tet_io).
  vm_compute. reflexivity.
Defined.

(** ** The switch buffer, again *)

(** X16.  Ensuring the flags is idempotent on a NUL-terminated buffer whose
    payload holds no NUL byte: a second pass finds both flags and leaves
    the buffer as it is. *)
Theorem ensure_flags_idempotent (bytes : list ascii) :
  NUL ∉ bytes →
  ensure_flags true (ensure_flags true (bytes ++ [NUL]))
  = ensure_flags true (bytes ++ [NUL])
  ∧ "n"%char ∈ c_string (ensure_flags true (bytes ++ [NUL]))
  ∧ "f"%char ∈ c_string (ensure_flags true (bytes ++ [NUL]))
  ∧ last (ensure_flags true (bytes ++ [NUL])) = Some NUL.
Proof.
  intros Hnul. rewrite ensure_flags_terminated.
  pose proof (both_flags_after_ensuring bytes) as [Hn Hf].
  rewrite (c_string_no_NUL bytes Hnul) in Hn, Hf.
  assert (c_string (bytes ++ missing_flags bytes ++ [NUL])
          = bytes ++ missing_flags bytes) as Hcs
    by (apply c_string_switches; [done|apply missing_flags_no_NUL]).
  split_and!.
  - assert (NUL ∉ bytes ++ missing_flags bytes) as Hnul'.
    { rewrite elem_of_app. intros [?|H]; [done|].
      by apply missing_flags_no_NUL in H. }
    assert (missing_flags (bytes ++ missing_flags bytes) = []) as Hnone.
    { apply missing_flags_none; by rewrite c_string_no_NUL. }
    rewrite app_assoc, ensure_flags_terminated. by rewrite Hnone.
  - by rewrite Hcs.
  - by rewrite Hcs.
  - by rewrite !app_assoc, last_snoc.
Qed.

Lemma ensure_flags_idempotent_witness :
  ensure_flags true (ensure_flags true (list_ascii_of_string "pq" ++ [NUL]))
  = ensure_flags true (list_ascii_of_string "pq" ++ [NUL])
  ∧ "n"%char ∈ c_string (ensure_flags true (list_ascii_of_string "pq" ++ [NUL]))
  ∧ "f"%char ∈ c_string (ensure_flags true (list_ascii_of_string "pq" ++ [NUL]))
  ∧ last (ensure_flags true (list_ascii_of_string "pq" ++ [NUL])) = Some NUL.
Proof.
  apply (ensure_flags_idempotent (list_ascii_of_string "pq")).
  vm_compute. set_solver.
Defined.

Lemma c_string_before_NUL l l' : NUL ∈ l → c_string (l ++ l') = c_string l.
Proof.
  intros Hin. apply list_elem_of_split in Hin as (l1 & l2 & ->).
  by rewrite <- app_assoc, <- app_comm_cons, !c_string_terminated.
Qed.

(** X18.  On a payload that holds a NUL byte, ensuring the flags does not
    change the string the generator reads: the flags that the payload
    lacks before its first NUL are appended after the whole payload, behind
    that NUL, so the C string of the buffer is the C string of the payload
    and holds none of the appended flags. *)
Theorem flags_behind_embedded_nul (bytes : list ascii) :
  NUL ∈ bytes →
  ensure_flags true (bytes ++ [NUL]) = bytes ++ missing_flags bytes ++ [NUL]
  ∧ c_string (ensure_flags true (bytes ++ [NUL])) = c_string bytes
  ∧ ∀ c, c ∈ missing_flags bytes →
      (c = "n"%char ∨ c = "f"%char)
      ∧ c ∉ c_string (ensure_flags true (bytes ++ [NUL])).
Proof.
  intros Hnul. rewrite ensure_flags_terminated.
  rewrite (c_string_before_NUL bytes _ Hnul).
  split; [done|]. split; [done|].
  intros c Hc. by apply elem_of_missing_flags in Hc.
Qed.

(** The payload "pq" followed by a NUL byte: 'n' and 'f' are appended, and
    the generator reads "pq". *)
Lemma flags_behind_embedded_nul_witness :
  ensure_flags true (["p"; "q"; NUL]%char ++ [NUL])
  = ["p"; "q"; NUL]%char ++ missing_flags ["p"; "q"; NUL]%char ++ [NUL]
  ∧ c_string (ensure_flags true (["p"; "q"; NUL]%char ++ [NUL]))
    = c_string ["p"; "q"; NUL]%char
  ∧ ∀ c, c ∈ missing_flags ["p"; "q"; NUL]%char →
      (c = "n"%char ∨ c = "f"%char)
      ∧ c ∉ c_string (ensure_flags true (["p"; "q"; NUL]%char ++ [NUL])).
Proof.
  apply (flags_behind_embedded_nul ["p"; "q"; NUL]%char).
  do 2 apply list_elem_of_further. apply list_elem_of_here.
Defined.

Example embedded_nul_hides_the_flags :
  switch_buffer (PyStr (String "p" (String "q" (String NUL "")))) true
  = Ok ["p"; "q"; NUL; "n"; "f"; NUL]%char
  ∧ c_string ["p"; "q"; NUL; "n"; "f"; NUL]%char = ["p"; "q"]%char.
Proof. split; reflexivity. Qed.

(** ** The core arrays of the result *)

(** X17.  The points, tetrahedra and adjacency of the result carry the
    generator's buffers row by row: the corner count reported is the
    generator's; for a non-null buffer and positive counts the tetrahedra
    are a (K, corners) array, the points an (N,3) array and a present
    adjacency of K > 0 tetrahedra a (K,4) array with as many rows as the
    tetrahedra; when rows * columns does not exceed INT_MAX (the source
    computes the index in [int]) the cell (i,j) of each is the buffer's
    cell i * columns + j, in row-major order; the echoed switches are the
    caller's text, and empty for a payload that is not text. *)
Theorem core_arrays_of_result (compute_boundary_faces : bool)
    (tetgen_switches : py_object) (out : tetgenio) (res : TetwrapIO) :
  marshal compute_boundary_faces tetgen_switches out = Ok res →
  corners res = numberofcorners out
  ∧ switches res = match tetgen_switches with PyStr s => s | _ => "" end
  ∧ (∀ tl, tetrahedronlist out = Some tl →
       0 < numberoftetrahedra out → 0 < numberofcorners out →
       shape (tets res) = [numberoftetrahedra out; corners res]
       ∧ (numberoftetrahedra out * numberofcorners out ≤ INT_MAX →
          ∀ i j, 0 ≤ i < numberoftetrahedra out → 0 ≤ j < numberofcorners out →
            at2 0 (tets res) i j = rd 0 tl (i * numberofcorners out + j)))
  ∧ (∀ pl, pointlist out = Some pl → 0 < numberofpoints out →
       shape (points res) = [numberofpoints out; 3]
       ∧ (numberofpoints out * 3 ≤ INT_MAX →
          ∀ i k, 0 ≤ i < numberofpoints out → 0 ≤ k < 3 →
            at2 0%float (points res) i k = rd 0%float pl (i * 3 + k)))
  ∧ (∀ nb nl, neighbors res = Some nb → neighborlist out = Some nl →
       0 < numberoftetrahedra out →
       shape nb = [numberoftetrahedra out; 4]
       ∧ (numberoftetrahedra out * 4 ≤ INT_MAX →
          ∀ i k, 0 ≤ i < numberoftetrahedra out → 0 ≤ k < 4 →
            at2 0 nb i k = rd 0 nl (i * 4 + k))
       ∧ (is_Some (boundary_tri_faces res) → dim (tets res) 0 = dim nb 0)).
Proof.
  intros Hres. pose proof Hres as Hres'.
  apply marshal_Ok in Hres as (bf & bm & Hd & ->).
  cbn [corners switches tets points neighbors boundary_tri_faces].
  split; [done|]. split; [done|]. split_and!.
  - intros tl -> HK Hc. unfold to_array_i32.
    split; [by rewrite to_array_present|].
    intros Hmax i j Hi Hj. by apply to_array_at.
  - intros pl -> HN. unfold to_array_f64.
    split; [by rewrite to_array_present|].
    intros Hmax i k Hi Hk. by apply to_array_at.
  - intros nb nl Hnb Hnl HK. unfold marshal_neighbors in *. rewrite Hnl in *.
    assert (nb = to_array_i32 (Some nl) (numberoftetrahedra out) 4) as ->
      by congruence.
    unfold to_array_i32.
    split; [by rewrite to_array_present|].
    split; [intros Hmax i k Hi Hk; by apply to_array_at|].
    intros [faces ->].
    apply derive_boundary_Ok in Hd
      as [(_ & nbrs & faces' & [= <-] & Hc & _)|(_ & ? & _)]; [|done].
    rewrite compute_boundary_face_tris_cases in Hc.
    repeat (case_decide; [|done]). done.
Qed.

Lemma core_arrays_of_result_witness :
  corners one_tet_io = numberofcorners one_tet_out
  ∧ switches one_tet_io = match PyStr "pq" with PyStr s => s | _ => "" end
  ∧ (∀ tl, tetrahedronlist one_tet_out = Some tl →
       0 < numberoftetrahedra one_tet_out → 0 < numberofcorners one_tet_out →
       shape (tets one_tet_io) = [numberoftetrahedra one_tet_out; corners one_tet_io]
       ∧ (numberoftetrahedra one_tet_out * numberofcorners one_tet_out
            ≤ INT_MAX →
          ∀ i j, 0 ≤ i < numberoftetrahedra one_tet_out →
            0 ≤ j < numberofcorners one_tet_out →
            at2 0 (tets one_tet_io) i j
            = rd 0 tl (i * numberofcorners one_tet_out + j)))
  ∧ (∀ pl, pointlist one_tet_out = Some pl → 0 < numberofpoints one_tet_out →
       shape (points one_tet_io) = [numberofpoints one_tet_out; 3]
       ∧ (numberofpoints one_tet_out * 3 ≤ INT_MAX →
          ∀ i k, 0 ≤ i < numberofpoints one_tet_out → 0 ≤ k < 3 →
            at2 0%float (points one_tet_io) i k = rd 0%float pl (i * 3 + k)))
  ∧ (∀ nb nl, neighbors one_tet_io = Some nb →
       neighborlist one_tet_out = Some nl →
       0 < numberoftetrahedra one_tet_out →
       shape nb = [numberoftetrahedra one_tet_out; 4]
       ∧ (numberoftetrahedra one_tet_out * 4 ≤ INT_MAX →
          ∀ i k, 0 ≤ i < numberoftetrahedra one_tet_out → 0 ≤ k < 4 →
            at2 0 nb i k = rd 0 nl (i * 4 + k))
       ∧ (is_Some (boundary_tri_faces one_tet_io) →
          dim (tets one_tet_io) 0 = dim nb 0)).
Proof.
  apply (core_arrays_of_result true (PyStr "pq") one_tet_out one_tet_io).
  vm_compute. reflexivity.
Defined.
